(** * IMDb analytics dashboard: data reconciliation layer

    A shallow embedding of [dashboard.py]: the schema normaliser, the numeric
    coercer and imputer, the sidebar filter block, the title-to-year join with
    its column-collision resolution, and the script-level flow of the frames
    between the two CSV export points.

    Frames are row-oriented: a list of column labels and a list of rows.
    Column labels are ASCII strings.  Numbers are rationals, so the rounding
    of binary floating point and the infinities are not represented; [NaN]
    stands for every missing value.  A Python exception is a [Raise].

    The chart calls (plotly, streamlit) are left out.  The aggregates that
    feed them (means, group means, group sizes, value counts, correlation)
    bind no frame variable, but they can raise and are part of the tabs;
    what the tabs do to the frame variables is modelled statement by
    statement.  The CSV writer is modelled with its quoting; pandas'
    numeric parser and the way the writer prints a number are
    parameters. *)

From Stdlib Require Import List String Ascii Bool Arith ZArith QArith Lia DecimalString.
Import ListNotations.
Open Scope string_scope.
Open Scope list_scope.

(* ================================================================= *)
(** ** Exceptions *)

Inductive exn : Type :=
| KeyError (label : string)
| TypeError
| ValueError
| IntCastingNaNError
| MergeError.

Inductive result (A : Type) : Type :=
| Ok (a : A)
| Raise (e : exn).
Arguments Ok {A} a.
Arguments Raise {A} e.

Definition bind {A B : Type} (m : result A) (k : A -> result B) : result B :=
  match m with
  | Ok a => k a
  | Raise e => Raise e
  end.

Notation "x <- m ;; k" := (bind m (fun x => k))
  (at level 61, m at next level, right associativity).

Fixpoint mapM {A B : Type} (f : A -> result B) (l : list A) : result (list B) :=
  match l with
  | [] => Ok []
  | a :: l' => b <- f a ;; bs <- mapM f l' ;; Ok (b :: bs)
  end.

(* ================================================================= *)
(** ** Python string methods used on column labels *)

Module PyStr.

Definition chars := list ascii.

(** [str.lower] on ASCII: ["A".."Z"] move to ["a".."z"]. *)
Definition lower_char (c : ascii) : ascii :=
  let n := nat_of_ascii c in
  if (65 <=? n)%nat && (n <=? 90)%nat then ascii_of_nat (n + 32) else c.

(** The characters [str.strip] removes without an argument: tab, line
    feed, vertical tab, form feed, carriage return, the four separators
    0x1c..0x1f and the space. *)
Definition is_space (c : ascii) : bool :=
  let n := nat_of_ascii c in
  ((9 <=? n)%nat && (n <=? 13)%nat)
  || ((28 <=? n)%nat && (n <=? 31)%nat)
  || (n =? 32)%nat.

Fixpoint lstrip (l : chars) : chars :=
  match l with
  | [] => []
  | c :: l' => if is_space c then lstrip l' else l
  end.

Fixpoint rstrip (l : chars) : chars :=
  match l with
  | [] => []
  | c :: l' =>
      match rstrip l' with
      | [] => if is_space c then [] else [c]
      | r => c :: r
      end
  end.

Definition strip (l : chars) : chars := rstrip (lstrip l).

(** [s.replace(old, new)] for one-character [old] and [new]. *)
Definition replace (old new : ascii) (l : chars) : chars :=
  map (fun c => if Ascii.eqb c old then new else c) l.

Definition lower (l : chars) : chars := map lower_char l.

Definition SPACE : ascii := ascii_of_nat 32.
Definition NEWLINE : ascii := ascii_of_nat 10.
Definition TAB : ascii := ascii_of_nat 9.
Definition UNDERSCORE : ascii := ascii_of_nat 95.

End PyStr.

(* ================================================================= *)
(** ** Schema normaliser (lines 35-63) *)

Definition mem (name : string) (cols : list string) : bool :=
  existsb (String.eqb name) cols.

(** The [else] branch of the loop body of [normalize_columns]:
    [c.lower().strip().replace(" ", "_").replace("\n", "_").replace("\t", "_")]. *)
Definition canon_chars (l : PyStr.chars) : PyStr.chars :=
  PyStr.replace PyStr.TAB PyStr.UNDERSCORE
    (PyStr.replace PyStr.NEWLINE PyStr.UNDERSCORE
       (PyStr.replace PyStr.SPACE PyStr.UNDERSCORE
          (PyStr.strip (PyStr.lower l)))).

(** The three replacements seen as one map on characters (used in proofs). *)
Definition repl (c : ascii) : ascii :=
  if PyStr.is_space c
  then (if Ascii.eqb c PyStr.SPACE || Ascii.eqb c PyStr.NEWLINE || Ascii.eqb c PyStr.TAB
        then PyStr.UNDERSCORE else c)
  else c.

Definition normalize_name (c : string) : string :=
  if String.eqb c "metadata" then c
  else string_of_list_ascii (canon_chars (list_ascii_of_string c)).

(** [normalize_columns] on the labels of a frame. *)
Definition normalize_labels (cols : list string) : list string :=
  map normalize_name cols.

(** [df.rename(columns={old: new})]: every label equal to [old] changes. *)
Definition rename_label (old new : string) (cols : list string) : list string :=
  map (fun c => if String.eqb c old then new else c) cols.

(** The loop of lines 56-58. *)
Definition rename_meta_data (cols : list string) : list string :=
  if mem "meta_data" cols && negb (mem "metadata" cols)
  then rename_label "meta_data" "metadata" cols
  else cols.

(** The loop of lines 61-63. *)
Definition rename_duration_ (cols : list string) : list string :=
  if mem "duration_" cols && negb (mem "duration" cols)
  then rename_label "duration_" "duration" cols
  else cols.

Definition normalize_schema (cols : list string) : list string :=
  rename_duration_ (rename_meta_data (normalize_labels cols)).

(* ================================================================= *)
(** ** Frames *)

Inductive cell : Type :=
| NaN
| Num (q : Q)
| Str (s : string).

Record DataFrame : Type := mkDF {
  columns : list string;
  rows : list (list cell)
}.

(** [normalize_columns] (lines 35-49) assigns [df.columns]; the rows stay. *)
Definition normalize_columns (df : DataFrame) : DataFrame :=
  mkDF (normalize_labels (columns df)) (rows df).

(** Lines 51-63 for one of the three frames. *)
Definition normalize (df : DataFrame) : DataFrame :=
  mkDF (normalize_schema (columns df)) (rows df).

(** A frame is well formed when its labels are pairwise distinct and every
    row has one cell per label.  (Selecting a repeated label gives a
    sub-frame in pandas; that is outside this model.) *)
Definition wf (df : DataFrame) : Prop :=
  NoDup (columns df)
  /\ Forall (fun r => List.length r = List.length (columns df)) (rows df).

Fixpoint index_of (name : string) (cols : list string) : option nat :=
  match cols with
  | [] => None
  | c :: t => if String.eqb c name then Some O else option_map S (index_of name t)
  end.

(** [name in df.columns] *)
Definition has_col (name : string) (df : DataFrame) : bool :=
  mem name (columns df).

(** [df[name]]: the column as a sequence of cells, [KeyError] when absent. *)
Definition get_col (name : string) (df : DataFrame) : result (list cell) :=
  match index_of name (columns df) with
  | Some i => Ok (map (fun r => nth i r NaN) (rows df))
  | None => Raise (KeyError name)
  end.

Fixpoint replace_nth (i : nat) (v : cell) (r : list cell) : list cell :=
  match r, i with
  | [], _ => []
  | _ :: t, O => v :: t
  | c :: t, S j => c :: replace_nth j v t
  end.

(** [df[name] = vals]: overwrite the column in place, or append a new one. *)
Definition set_col (name : string) (vals : list cell) (df : DataFrame) : DataFrame :=
  match index_of name (columns df) with
  | Some i =>
      mkDF (columns df)
           (map (fun rv => replace_nth i (snd rv) (fst rv)) (combine (rows df) vals))
  | None =>
      mkDF (columns df ++ [name])
           (map (fun rv => fst rv ++ [snd rv]) (combine (rows df) vals))
  end.

(** [df[mask]]: the rows at which the boolean mask holds. *)
Definition boolean_index (df : DataFrame) (mask : list bool) : DataFrame :=
  mkDF (columns df) (map fst (filter snd (combine (rows df) mask))).

Definition is_missing (c : cell) : bool :=
  match c with NaN => true | _ => false end.

(* ================================================================= *)
(** ** Numeric coercer and imputer (lines 68-86) *)

(** [Series.median] sorts the observed values. *)
Fixpoint insert_sorted (q : Q) (l : list Q) : list Q :=
  match l with
  | [] => [q]
  | h :: t => if Qle_bool q h then q :: l else h :: insert_sorted q t
  end.

Definition sort_values (l : list Q) : list Q := fold_right insert_sorted [] l.

Definition median_of (l : list Q) : option Q :=
  match l with
  | [] => None
  | _ =>
      let s := sort_values l in
      let n := List.length s in
      if Nat.even n
      then Some ((nth (n / 2 - 1) s 0 + nth (n / 2) s 0) / 2)%Q
      else Some (nth (n / 2) s 0%Q)
  end.

(** The observed (non-missing) numbers of a column; a string makes the
    reduction raise. *)
Fixpoint observed (s : list cell) : result (list Q) :=
  match s with
  | [] => Ok []
  | NaN :: t => observed t
  | Num q :: t => qs <- observed t ;; Ok (q :: qs)
  | Str _ :: t => Raise TypeError
  end.

(** [s.median()]: missing values are skipped; with nothing observed the
    median is itself missing. *)
Definition median (s : list cell) : result cell :=
  qs <- observed s ;;
  Ok (match median_of qs with Some m => Num m | None => NaN end).

(** [s.fillna(v)] for a scalar [v]; filling with NaN changes nothing. *)
Definition fillna (v : cell) (s : list cell) : list cell :=
  map (fun c => if is_missing c then v else c) s.

(** Conversion to integer rounds towards zero. *)
Definition trunc (q : Q) : Z := Z.quot (Qnum q) (Zpos (Qden q)).

Section Coercion.

(** What pandas' numeric parser makes of a string, and what Python's
    [int] makes of one. *)
Variable parse_number : string -> option Q.
Variable int_of_str : string -> option Z.

(** [pd.to_numeric(s, errors="coerce")] *)
Definition to_numeric_cell (c : cell) : cell :=
  match c with
  | Str s => match parse_number s with Some q => Num q | None => NaN end
  | _ => c
  end.

Definition to_numeric (s : list cell) : list cell := map to_numeric_cell s.

Fixpoint coerce_numeric (df : DataFrame) (cols : list string) : result DataFrame :=
  match cols with
  | [] => Ok df
  | c :: t =>
      df' <- (if has_col c df
              then s <- get_col c df ;; Ok (set_col c (to_numeric s) df)
              else Ok df) ;;
      coerce_numeric df' t
  end.

(** [s.astype(int)] *)
Definition astype_int_cell (c : cell) : result cell :=
  match c with
  | Num q => Ok (Num (inject_Z (trunc q)))
  | NaN => Raise IntCastingNaNError
  | Str s => match int_of_str s with
             | Some z => Ok (Num (inject_Z z))
             | None => Raise ValueError
             end
  end.

Definition astype_int (s : list cell) : result (list cell) := mapM astype_int_cell s.

Definition impute_and_cast (df : DataFrame) : result DataFrame :=
  df <- (if has_col "metadata" df
         then s <- get_col "metadata" df ;;
              m <- median s ;;
              Ok (set_col "metadata" (fillna m s) df)
         else Ok df) ;;
  df <- (if has_col "duration" df
         then s <- get_col "duration" df ;;
              m <- median s ;;
              v <- astype_int (fillna m s) ;;
              Ok (set_col "duration" v df)
         else Ok df) ;;
  df <- (if has_col "year" df
         then s <- get_col "year" df ;;
              m <- median s ;;
              v <- astype_int (fillna m s) ;;
              Ok (set_col "year" v df)
         else Ok df) ;;
  Ok df.

(** The body of the loop of lines 84-86 for one frame. *)
Definition prepare (df : DataFrame) : result DataFrame :=
  df <- coerce_numeric df ["metadata"; "duration"; "year"] ;;
  impute_and_cast df.

End Coercion.

(** A reader of unsigned decimal integers, enough to run the coercer on
    examples. *)
Fixpoint digits_value (l : list ascii) (acc : Z) : option Z :=
  match l with
  | [] => Some acc
  | c :: t =>
      let n := nat_of_ascii c in
      if (48 <=? n)%nat && (n <=? 57)%nat
      then digits_value t (10 * acc + Z.of_nat (n - 48))
      else None
  end.

Definition int_of_digits (s : string) : option Z :=
  match list_ascii_of_string s with
  | [] => None
  | l => digits_value l 0
  end.

Definition number_of_digits (s : string) : option Q :=
  option_map inject_Z (int_of_digits s).


(** *** Vocabulary for the statements about the imputer *)

(** The numbers of a column, missing cells and strings left out. *)
Fixpoint nonmissing (s : list cell) : list Q :=
  match s with
  | [] => []
  | Num q :: t => q :: nonmissing t
  | _ :: t => nonmissing t
  end.

Definition is_num (c : cell) : bool :=
  match c with Num _ => true | _ => false end.

Definition is_str (c : cell) : bool :=
  match c with Str _ => true | _ => false end.

(** The median of the observed values of a column, as a cell. *)
Definition median_cell (s : list cell) : cell :=
  match median_of (nonmissing s) with Some m => Num m | None => NaN end.

Definition cast_int (c : cell) : cell :=
  match c with Num q => Num (inject_Z (trunc q)) | _ => c end.

(** [df'] is [df] with [f] applied along column [c] (when it exists). *)
Definition col_updated (c : string) (f : list cell -> list cell)
    (df df' : DataFrame) : Prop :=
  wf df' /\ columns df' = columns df
  /\ List.length (rows df') = List.length (rows df)
  /\ forall d, get_col d df' =
               if String.eqb d c then (s <- get_col d df ;; Ok (f s)) else get_col d df.


(** What the passes of [prepare] leave in a column that was read as [s]:
    coercion, filling with the column's own median, and for [duration]
    and [year] the integer cast. *)
Definition imputed (parse_number : string -> option Q) (c : string)
    (s : list cell) : list cell :=
  let t := to_numeric parse_number s in
  let filled := fillna (median_cell t) t in
  if String.eqb c "metadata" then filled else map cast_int filled.

Definition sample_raw : DataFrame :=
  mkDF ["title"; "metadata"; "duration"; "year"]
       [ [Str "A"; Num (15 # 2); Str "90"; Num 2000];
         [Str "B"; Str "n/a"; NaN; Str "2004"];
         [Str "C"; Num 9; Str "121"; Str "unknown"] ].

(* ================================================================= *)
(** ** Series predicates used by the filters *)

Definition in_range (lo hi : Z) (c : cell) : bool :=
  match c with
  | Num q => Qle_bool (inject_Z lo) q && Qle_bool q (inject_Z hi)
  | _ => false
  end.

(** [s.between(lo, hi)]: inclusive at both ends, false on a missing value;
    comparing a string with a number raises. *)
Definition between_cell (lo hi : Z) (c : cell) : result bool :=
  match c with
  | Str _ => Raise TypeError
  | _ => Ok (in_range lo hi c)
  end.

Definition between (lo hi : Z) (s : list cell) : result (list bool) :=
  mapM (between_cell lo hi) s.

(** Equality as [isin] and the merge keys see it: numbers by value, and a
    missing value matches a missing value. *)
Definition cell_eqb (a b : cell) : bool :=
  match a, b with
  | NaN, NaN => true
  | Num p, Num q => Qeq_bool p q
  | Str s, Str t => String.eqb s t
  | _, _ => false
  end.

(** [s.isin(values)] *)
Definition isin (s : list cell) (values : list cell) : list bool :=
  map (fun c => existsb (cell_eqb c) values) s.

(** [s.unique().tolist()]: distinct values in order of first appearance. *)
Fixpoint unique (s : list cell) : list cell :=
  match s with
  | [] => []
  | c :: t => c :: filter (fun d => negb (cell_eqb d c)) (unique t)
  end.

(* ================================================================= *)
(** ** Sidebar filter state and defaults (lines 101-115) *)

Record FilterState : Type := mkFilter {
  year_range : Z * Z;
  meta_range : Z * Z;
  genre_filter : list cell;
  cast_filter : list cell
}.

Fixpoint list_min (l : list Q) : option Q :=
  match l with
  | [] => None
  | q :: t => match list_min t with
              | None => Some q
              | Some m => Some (if Qle_bool q m then q else m)
              end
  end.

Fixpoint list_max (l : list Q) : option Q :=
  match l with
  | [] => None
  | q :: t => match list_max t with
              | None => Some q
              | Some m => Some (if Qle_bool m q then q else m)
              end
  end.

(** [s.min()], [np.nanmin(s)]: the least observed value, missing when
    there is none. *)
Definition series_min (s : list cell) : result cell :=
  qs <- observed s ;;
  Ok (match list_min qs with Some m => Num m | None => NaN end).

Definition series_max (s : list cell) : result cell :=
  qs <- observed s ;;
  Ok (match list_max qs with Some m => Num m | None => NaN end).

(** Python's [int(x)] on a float: truncation, [ValueError] on NaN. *)
Definition py_int (c : cell) : result Z :=
  match c with
  | Num q => Ok (trunc q)
  | NaN => Raise ValueError
  | Str _ => Raise TypeError
  end.

Definition default_year_range (df_clean : DataFrame) : result (Z * Z) :=
  if has_col "year" df_clean
  then s <- get_col "year" df_clean ;;
       lo <- series_min s ;; year_min <- py_int lo ;;
       hi <- series_max s ;; year_max <- py_int hi ;;
       Ok (year_min, year_max)
  else Ok (1900, 2025)%Z.

Definition default_meta_range (df_clean : DataFrame) : result (Z * Z) :=
  if has_col "metadata" df_clean
  then s <- get_col "metadata" df_clean ;;
       lo <- series_min s ;; meta_min <- py_int lo ;;
       hi <- series_max s ;; meta_max <- py_int hi ;;
       Ok (meta_min, meta_max)
  else Ok (0, 100)%Z.

(** The state of the sidebar before the analyst touches it: full ranges,
    nothing selected. *)
Definition default_filters (df_clean : DataFrame) : result FilterState :=
  yr <- default_year_range df_clean ;;
  mr <- default_meta_range df_clean ;;
  Ok (mkFilter yr mr [] []).

(* ================================================================= *)
(** ** Filter block (lines 117-135) *)

Definition nonempty {A : Type} (l : list A) : bool :=
  match l with [] => false | _ => true end.

(** One of the two range steps, lines 122-125. *)
Definition range_step (name : string) (range : Z * Z) (df_filtered : DataFrame)
    : result DataFrame :=
  if has_col name df_filtered
  then s <- get_col name df_filtered ;;
       m <- between (fst range) (snd range) s ;;
       Ok (boolean_index df_filtered m)
  else Ok df_filtered.

(** One of the two membership steps, lines 128-135; [title_col] is the
    [title] label when the movie frame has it. *)
Definition membership_step (label : string) (selected : list cell)
    (title_col : option string) (df_exploded df_filtered : DataFrame)
    : result DataFrame :=
  match title_col with
  | Some title =>
      if nonempty selected && has_col label df_exploded
      then g <- get_col label df_exploded ;;
           t <- get_col title (boolean_index df_exploded (isin g selected)) ;;
           let titles := unique t in
           ft <- get_col title df_filtered ;;
           Ok (boolean_index df_filtered (isin ft titles))
      else Ok df_filtered
  | None => Ok df_filtered
  end.

Definition apply_filters (cfg : FilterState) (df_clean df_genre df_cast : DataFrame)
    : result DataFrame :=
  let title_col := if has_col "title" df_clean then Some "title" else None in
  let df_filtered := df_clean in
  df_filtered <- range_step "year" (year_range cfg) df_filtered ;;
  df_filtered <- range_step "metadata" (meta_range cfg) df_filtered ;;
  df_filtered <- membership_step "genre" (genre_filter cfg) title_col df_genre df_filtered ;;
  df_filtered <- membership_step "cast" (cast_filter cfg) title_col df_cast df_filtered ;;
  Ok df_filtered.

(** *** Vocabulary for the statements about the filters *)

(** The cell of row [r] under label [name]. *)
Definition cell_at (name : string) (cols : list string) (r : list cell) : cell :=
  match index_of name cols with
  | Some i => nth i r NaN
  | None => NaN
  end.

(** The rows of [df] at which [p] holds, labels kept. *)
Definition select (p : list cell -> bool) (df : DataFrame) : DataFrame :=
  mkDF (columns df) (filter p (rows df)).

(** The titles of the rows of an exploded frame whose [label] cell is one of
    the selected values. *)
Definition titles_with (label : string) (selected : list cell) (df_exploded : DataFrame)
    : list cell :=
  map (cell_at "title" (columns df_exploded))
      (filter (fun r => existsb (cell_eqb (cell_at label (columns df_exploded) r)) selected)
              (rows df_exploded)).

Definition year_ok (cfg : FilterState) (df_clean : DataFrame) (r : list cell) : bool :=
  if has_col "year" df_clean
  then in_range (fst (year_range cfg)) (snd (year_range cfg))
                (cell_at "year" (columns df_clean) r)
  else true.

Definition metadata_ok (cfg : FilterState) (df_clean : DataFrame) (r : list cell) : bool :=
  if has_col "metadata" df_clean
  then in_range (fst (meta_range cfg)) (snd (meta_range cfg))
                (cell_at "metadata" (columns df_clean) r)
  else true.

(** A membership step applies when something is selected and the labels it
    needs are there. *)
Definition applies (label : string) (selected : list cell)
    (df_clean df_exploded : DataFrame) : bool :=
  nonempty selected && has_col "title" df_clean && has_col label df_exploded.

Definition member_ok (label : string) (selected : list cell)
    (df_clean df_exploded : DataFrame) (r : list cell) : bool :=
  if applies label selected df_clean df_exploded
  then existsb (cell_eqb (cell_at "title" (columns df_clean) r))
               (titles_with label selected df_exploded)
  else true.

(** The conjunction of the four predicates. *)
Definition keeps (cfg : FilterState) (df_clean df_genre df_cast : DataFrame)
    (r : list cell) : bool :=
  year_ok cfg df_clean r && metadata_ok cfg df_clean r
  && member_ok "genre" (genre_filter cfg) df_clean df_genre r
  && member_ok "cast" (cast_filter cfg) df_clean df_cast r.

(** The numeric columns of a prepared movie frame hold no string. *)
Definition numeric_ready (df_clean : DataFrame) : Prop :=
  forall name s, In name ["year"; "metadata"] -> get_col name df_clean = Ok s ->
                 Forall (fun c => is_str c = false) s.

(** Every membership step that applies finds a [title] label in its
    exploded frame. *)
Definition titles_linked (cfg : FilterState) (df_clean df_genre df_cast : DataFrame)
    : bool :=
  (negb (applies "genre" (genre_filter cfg) df_clean df_genre) || has_col "title" df_genre)
  && (negb (applies "cast" (cast_filter cfg) df_clean df_cast) || has_col "title" df_cast).

Inductive Sublist {A : Type} : list A -> list A -> Prop :=
| Sublist_nil : Sublist [] []
| Sublist_skip : forall x l1 l2, Sublist l1 l2 -> Sublist l1 (x :: l2)
| Sublist_keep : forall x l1 l2, Sublist l1 l2 -> Sublist (x :: l1) (x :: l2).


(** How one filter state widens another in a single dimension.  A wider
    selection covers the narrower one, which is not empty. *)
Definition covers (wide narrow : list cell) : Prop :=
  forall c, existsb (cell_eqb c) narrow = true -> existsb (cell_eqb c) wide = true.

Inductive widens : FilterState -> FilterState -> Prop :=
| widen_year : forall n lo hi,
    (lo <= fst (year_range n))%Z -> (snd (year_range n) <= hi)%Z ->
    widens n (mkFilter (lo, hi) (meta_range n) (genre_filter n) (cast_filter n))
| widen_meta : forall n lo hi,
    (lo <= fst (meta_range n))%Z -> (snd (meta_range n) <= hi)%Z ->
    widens n (mkFilter (year_range n) (lo, hi) (genre_filter n) (cast_filter n))
| widen_genres : forall n gs,
    genre_filter n <> [] -> covers gs (genre_filter n) ->
    widens n (mkFilter (year_range n) (meta_range n) gs (cast_filter n))
| widen_cast : forall n cs,
    cast_filter n <> [] -> covers cs (cast_filter n) ->
    widens n (mkFilter (year_range n) (meta_range n) (genre_filter n) cs).

(* ================================================================= *)
(** ** Aggregates that decide which rows later frames keep *)

(** Number of cells of [s] equal to [c]. *)
Definition count_cell (c : cell) (s : list cell) : nat :=
  List.length (filter (cell_eqb c) s).

(** Insertion by decreasing count: the new pair goes in front of the first
    pair whose count is not larger, so also in front of the pairs of its
    own count. *)
Fixpoint insert_by_count (x : cell * nat) (l : list (cell * nat)) : list (cell * nat) :=
  match l with
  | [] => [x]
  | h :: t => if (snd h <=? snd x)%nat then x :: l else h :: insert_by_count x t
  end.

(** [s.value_counts()]: missing values dropped, counts in decreasing
    order, ties in order of first appearance (the values are inserted from
    the last distinct one to the first). *)
Definition value_counts (s : list cell) : list (cell * nat) :=
  let observed_cells := filter (fun c => negb (is_missing c)) s in
  fold_right insert_by_count []
    (map (fun c => (c, count_cell c observed_cells)) (unique observed_cells)).

(** [s.value_counts().head(n).index] *)
Definition top_values (n : nat) (s : list cell) : list cell :=
  map fst (firstn n (value_counts s)).

(* ================================================================= *)
(** ** Title-to-year join and year-column resolution *)

(** The cells of a row whose labels pass [keep]. *)
Fixpoint cells_where (keep : string -> bool) (cols : list string) (r : list cell)
    : list cell :=
  match cols, r with
  | c :: cols', v :: r' =>
      if keep c then v :: cells_where keep cols' r' else cells_where keep cols' r'
  | _, _ => []
  end.

(** [df.drop(columns=names)] *)
Definition drop_columns (names : list string) (df : DataFrame) : DataFrame :=
  mkDF (filter (fun c => negb (mem c names)) (columns df))
       (map (cells_where (fun c => negb (mem c names)) (columns df)) (rows df)).

(** [df.rename(columns={old: new})] *)
Definition rename_column (old new : string) (df : DataFrame) : DataFrame :=
  mkDF (rename_label old new (columns df)) (rows df).

(** [df.dropna(subset=[name])] *)
Definition dropna (name : string) (df : DataFrame) : result DataFrame :=
  s <- get_col name df ;;
  Ok (boolean_index df (map (fun c => negb (is_missing c)) s)).

(** [other.fillna(s)] between two columns of one frame: position by
    position, the first where present and else the second. *)
Definition coalesce (a b : cell) : cell := if is_missing a then b else a.

Definition fillna_from (preferred fallback : list cell) : list cell :=
  map (fun ab => coalesce (fst ab) (snd ab)) (combine preferred fallback).

(** [left.merge(right[[title, "year"]], on=title, how="left")].  A label
    [year] on the left collides with the one brought from the right: the
    left one becomes [year_x], the right one [year_y].  A left row is
    repeated once per right row with its title and kept once, with a missing
    year, when there is none. *)
Definition merge_year (title : string) (left right : DataFrame) : result DataFrame :=
  rt <- get_col title right ;;
  ry <- get_col "year" right ;;
  lt <- get_col title left ;;
  let collide := has_col "year" left in
  if collide && (has_col "year_x" left || has_col "year_y" left)
  then Raise MergeError
  else
    let right_rows := combine rt ry in
    let joined (lr : list cell * cell) : list (list cell) :=
      match filter (fun ty => cell_eqb (fst ty) (snd lr)) right_rows with
      | [] => [fst lr ++ [NaN]]
      | ms => map (fun ty => fst lr ++ [snd ty]) ms
      end in
    Ok (mkDF ((if collide then rename_label "year" "year_x" (columns left)
               else columns left)
              ++ [if collide then "year_y" else "year"])
             (flat_map joined (combine (rows left) lt))).

(** The [if]/[elif]/[elif] of lines 268-275, 323-329 and 377-383. *)
Definition unify_year (df : DataFrame) : result DataFrame :=
  if has_col "year_x" df && has_col "year_y" df
  then y <- get_col "year_y" df ;;
       x <- get_col "year_x" df ;;
       Ok (drop_columns ["year_x"; "year_y"] (set_col "year" (fillna_from y x) df))
  else if has_col "year_x" df then Ok (rename_column "year_x" "year" df)
  else if has_col "year_y" df then Ok (rename_column "year_y" "year" df)
  else Ok df.

(** Lines 261-278 of the Genre tab: the frame that feeds the pivot. *)
Definition genre_tab_trend (title : string) (df_genre df_clean : DataFrame)
    : result DataFrame :=
  m <- merge_year title df_genre df_clean ;;
  u <- unify_year m ;;
  dropna "year" u.

(** Lines 320-332 of the Cast tab and 373-386 of the Yearly tab. *)
Definition guarded_trend (title : string) (df_exploded df_clean : DataFrame)
    : result DataFrame :=
  m <- merge_year title df_exploded df_clean ;;
  u <- unify_year m ;;
  if has_col "year" u then dropna "year" u else Ok u.

(** *** The join resolver in the words of the specification *)

(** The years the movie frame offers for a title: one per matching row,
    a single missing value when no row matches. *)
Definition movie_years (title : cell) (df_clean : DataFrame) : list cell :=
  match filter (fun m => cell_eqb (cell_at "title" (columns df_clean) m) title)
               (rows df_clean) with
  | [] => [NaN]
  | ms => map (cell_at "year" (columns df_clean)) ms
  end.

Definition not_year (c : string) : bool := negb (String.eqb c "year").

(** Attach [year] to every exploded row: the movie frame's value, else the
    exploded row's own; the row is dropped when both are missing; the one
    [year] column comes last. *)
Definition join_resolver (df_exploded df_clean : DataFrame) : DataFrame :=
  let cols := columns df_exploded in
  mkDF (filter not_year cols ++ ["year"])
       (flat_map
          (fun l =>
             flat_map
               (fun y =>
                  let v := match y with
                           | NaN => cell_at "year" cols l
                           | _ => y
                           end in
                  match v with
                  | NaN => []
                  | _ => [cells_where not_year cols l ++ [v]]
                  end)
               (movie_years (cell_at "title" cols l) df_clean))
          (rows df_exploded)).


(* ================================================================= *)
(** ** Pivot of counts *)

Record Pivot : Type := mkPivot {
  pivot_index : list cell;
  pivot_columns : list cell;
  pivot_counts : list (list nat)
}.

(** Order of the pivot's labels: numbers by value, strings
    lexicographically. *)
Definition cell_leb (a b : cell) : bool :=
  match a, b with
  | NaN, _ => true
  | Num p, Num q => Qle_bool p q
  | Num _, Str _ => true
  | Str s, Str t => String.leb s t
  | _, _ => false
  end.

Fixpoint insert_cell (c : cell) (l : list cell) : list cell :=
  match l with
  | [] => [c]
  | h :: t => if cell_leb c h then c :: l else h :: insert_cell c t
  end.

Definition sorted_labels (s : list cell) : list cell :=
  fold_right insert_cell [] (unique s).

(** [df.pivot_table(index=i, columns=c, values=v, aggfunc="count").fillna(0)]:
    rows with a missing key are left out, the labels are the sorted keys
    that remain, and a cell counts the rows of its pair of keys whose value
    is present. *)
Definition pivot_count (i c v : string) (df : DataFrame) : result Pivot :=
  si <- get_col i df ;;
  sc <- get_col c df ;;
  sv <- get_col v df ;;
  let keyed := filter (fun t => negb (is_missing (fst (fst t)))
                                && negb (is_missing (snd (fst t))))
                      (combine (combine si sc) sv) in
  let index := sorted_labels (map (fun t => fst (fst t)) keyed) in
  let labels := sorted_labels (map (fun t => snd (fst t)) keyed) in
  Ok (mkPivot index labels
        (map (fun y =>
                map (fun g =>
                       List.length
                         (filter (fun t => cell_eqb (fst (fst t)) y
                                           && cell_eqb (snd (fst t)) g
                                           && negb (is_missing (snd t)))
                                 keyed))
                    labels)
             index)).

(* ================================================================= *)
(** ** Aggregates that feed the charts *)

(** The arithmetic mean of the observed numbers; missing when there is
    none. *)
Definition mean_of (l : list Q) : cell :=
  match l with
  | [] => NaN
  | _ => Num (fold_right Qplus 0 l / inject_Z (Z.of_nat (List.length l)))
  end.

(** [s.mean()]: missing values are skipped; a string in the column makes
    the reduction raise. *)
Definition mean (s : list cell) : result cell :=
  qs <- observed s ;;
  Ok (mean_of qs).

(** [df.groupby(key)[value].mean()]: rows with a missing key are left out,
    there is one entry per key that remains, keys in ascending order, and
    each entry is the mean of its group. *)
Definition groupby_mean (key value : string) (df : DataFrame)
    : result (list (cell * cell)) :=
  ks <- get_col key df ;;
  vs <- get_col value df ;;
  let keyed := filter (fun kv => negb (is_missing (fst kv))) (combine ks vs) in
  mapM (fun k =>
          m <- mean (map snd (filter (fun kv => cell_eqb (fst kv) k) keyed)) ;;
          Ok (k, m))
       (sorted_labels (map fst keyed)).

(** Key tuples: equality cell by cell, order lexicographic. *)
Fixpoint row_eqb (a b : list cell) : bool :=
  match a, b with
  | [], [] => true
  | x :: a', y :: b' => cell_eqb x y && row_eqb a' b'
  | _, _ => false
  end.

Fixpoint row_leb (a b : list cell) : bool :=
  match a, b with
  | [], _ => true
  | _ :: _, [] => false
  | x :: a', y :: b' => if cell_eqb x y then row_leb a' b' else cell_leb x y
  end.

Fixpoint insert_row (r : list cell) (l : list (list cell)) : list (list cell) :=
  match l with
  | [] => [r]
  | h :: t => if row_leb r h then r :: l else h :: insert_row r t
  end.

Fixpoint unique_rows (l : list (list cell)) : list (list cell) :=
  match l with
  | [] => []
  | r :: t => r :: filter (fun d => negb (row_eqb d r)) (unique_rows t)
  end.

(** [df.groupby(keys).size()]: the number of rows of every combination of
    present keys, combinations in ascending order. *)
Definition groupby_size (keys : list string) (df : DataFrame)
    : result (list (list cell * nat)) :=
  _ <- mapM (fun k => get_col k df) keys ;;
  let tuples :=
    filter (forallb (fun c => negb (is_missing c)))
           (map (fun r => map (fun k => cell_at k (columns df) r) keys) (rows df)) in
  Ok (map (fun t => (t, List.length (filter (row_eqb t) tuples)))
          (fold_right insert_row [] (unique_rows tuples))).

(** [df[names].corr()]: the columns are converted to floating point, which
    raises on a string; the coefficients themselves are floating-point
    values handed to the heatmap and are not represented. *)
Definition corr (names : list string) (df : DataFrame) : result unit :=
  cols <- mapM (fun c => get_col c df) names ;;
  if existsb (existsb is_str) cols then Raise ValueError else Ok tt.

(* ================================================================= *)
(** ** CSV export *)

Module Csv.

Definition COMMA : ascii := ascii_of_nat 44.
Definition QUOTE : ascii := ascii_of_nat 34.
Definition LF : ascii := ascii_of_nat 10.
Definition CR : ascii := ascii_of_nat 13.

(** The characters that make the writer quote a field. *)
Definition special (c : ascii) : bool :=
  Ascii.eqb c COMMA || Ascii.eqb c QUOTE || Ascii.eqb c LF || Ascii.eqb c CR.

(** Inside quotes a quote is written twice. *)
Definition escape (f : list ascii) : list ascii :=
  flat_map (fun c => if Ascii.eqb c QUOTE then [QUOTE; QUOTE] else [c]) f.

(** One field under minimal quoting. *)
Definition field (f : list ascii) : list ascii :=
  if existsb special f then QUOTE :: escape f ++ [QUOTE] else f.

Fixpoint join (fields : list (list ascii)) : list ascii :=
  match fields with
  | [] => []
  | [f] => field f
  | f :: t => field f ++ COMMA :: join t
  end.

(** One record and its line terminator.  A record that is a single empty
    field is written as a pair of quotes, so that its line is not blank. *)
Definition record (fields : list (list ascii)) : list ascii :=
  match fields with
  | [[]] => [QUOTE; QUOTE]
  | _ => join fields
  end ++ [LF].

Definition text (records : list (list (list ascii))) : list ascii :=
  flat_map record records.

(** *** A reader for what the writer produces *)









End Csv.

Section CsvExport.

(** How the writer prints a number.  Labels, strings and missing values
    are pinned below; exported text is ASCII, so encoding it changes
    nothing. *)
Variable format_number : Q -> string.

(** The text of one cell: a missing value is written as the empty
    string. *)
Definition cell_text (c : cell) : string :=
  match c with
  | NaN => EmptyString
  | Num q => format_number q
  | Str s => s
  end.

(** The records of a frame: its labels, then its rows in their order,
    with no index column ([index=False]). *)
Definition csv_records (df : DataFrame) : list (list string) :=
  columns df :: map (map cell_text) (rows df).

(** [df.to_csv(index=False).encode("utf-8")] *)
Definition to_csv (df : DataFrame) : string :=
  string_of_list_ascii (Csv.text (map (map list_ascii_of_string) (csv_records df))).

End CsvExport.


(* ================================================================= *)
(** ** The script from the filter block to the last export *)

(** The frame variables of the script and the data handed to the download
    buttons, oldest first. *)
Record Env : Type := mkEnv {
  df_clean : DataFrame;
  df_cast : DataFrame;
  df_genre : DataFrame;
  df_filtered : DataFrame;
  dfg : option DataFrame;
  dfg_top : option DataFrame;
  dfc : option DataFrame;
  dfc_top : option DataFrame;
  df_year_genre : option DataFrame;
  df_year_cast : option DataFrame;
  pivot : option Pivot;
  downloads : list string
}.

Definition set_df_filtered (v : DataFrame) (e : Env) : Env :=
  mkEnv (df_clean e) (df_cast e) (df_genre e) v (dfg e) (dfg_top e) (dfc e)
        (dfc_top e) (df_year_genre e) (df_year_cast e) (pivot e) (downloads e).

Definition set_dfg (v : DataFrame) (e : Env) : Env :=
  mkEnv (df_clean e) (df_cast e) (df_genre e) (df_filtered e) (Some v) (dfg_top e)
        (dfc e) (dfc_top e) (df_year_genre e) (df_year_cast e) (pivot e) (downloads e).

Definition set_dfg_top (v : DataFrame) (e : Env) : Env :=
  mkEnv (df_clean e) (df_cast e) (df_genre e) (df_filtered e) (dfg e) (Some v)
        (dfc e) (dfc_top e) (df_year_genre e) (df_year_cast e) (pivot e) (downloads e).

Definition set_dfc (v : DataFrame) (e : Env) : Env :=
  mkEnv (df_clean e) (df_cast e) (df_genre e) (df_filtered e) (dfg e) (dfg_top e)
        (Some v) (dfc_top e) (df_year_genre e) (df_year_cast e) (pivot e) (downloads e).

Definition set_dfc_top (v : DataFrame) (e : Env) : Env :=
  mkEnv (df_clean e) (df_cast e) (df_genre e) (df_filtered e) (dfg e) (dfg_top e)
        (dfc e) (Some v) (df_year_genre e) (df_year_cast e) (pivot e) (downloads e).

Definition set_df_year_genre (v : DataFrame) (e : Env) : Env :=
  mkEnv (df_clean e) (df_cast e) (df_genre e) (df_filtered e) (dfg e) (dfg_top e)
        (dfc e) (dfc_top e) (Some v) (df_year_cast e) (pivot e) (downloads e).

Definition set_df_year_cast (v : DataFrame) (e : Env) : Env :=
  mkEnv (df_clean e) (df_cast e) (df_genre e) (df_filtered e) (dfg e) (dfg_top e)
        (dfc e) (dfc_top e) (df_year_genre e) (Some v) (pivot e) (downloads e).

Definition set_pivot (v : Pivot) (e : Env) : Env :=
  mkEnv (df_clean e) (df_cast e) (df_genre e) (df_filtered e) (dfg e) (dfg_top e)
        (dfc e) (dfc_top e) (df_year_genre e) (df_year_cast e) (Some v) (downloads e).

Definition download_button (data : string) (e : Env) : Env :=
  mkEnv (df_clean e) (df_cast e) (df_genre e) (df_filtered e) (dfg e) (dfg_top e)
        (dfc e) (dfc_top e) (df_year_genre e) (df_year_cast e) (pivot e)
        (downloads e ++ [data]).

(** Line 121, [df_filtered = df_clean.copy()], with nothing else bound. *)
Definition start (clean cast genre : DataFrame) : Env :=
  mkEnv clean cast genre clean None None None None None None None [].

(** Lines 121-135. *)
Definition filter_block (cfg : FilterState) (e : Env) : result Env :=
  f <- apply_filters cfg (df_clean e) (df_genre e) (df_cast e) ;;
  Ok (set_df_filtered f e).

(** [df_x[df_x[title].isin(df_filtered[title])]] *)
Definition rows_of_filtered_titles (title : string) (df_x filtered : DataFrame)
    : result DataFrame :=
  xt <- get_col title df_x ;;
  ft <- get_col title filtered ;;
  Ok (boolean_index df_x (isin xt ft)).

(** [title_col] of line 118. *)
Definition title_col (e : Env) : option string :=
  if has_col "title" (df_clean e) then Some "title" else None.

(** The value counts of the exploded rows of the filtered titles, lines
    180-184 and 202-206.  An absent [title_col] is in no frame's labels. *)
Definition top_counts (label : string) (df_x : DataFrame) (e : Env)
    : result (list (cell * nat)) :=
  match title_col e with
  | Some title =>
      if has_col label df_x && has_col title df_x && has_col title (df_filtered e)
      then x <- rows_of_filtered_titles title df_x (df_filtered e) ;;
           s <- get_col label x ;;
           Ok (firstn 15 (value_counts s))
      else Ok []
  | None => Ok []
  end.

(** Overview tab, lines 166-219.  The values computed here go to metrics
    and charts and bind no frame variable; what the tab can do to the rest
    of the script is raise.  (The dash shown for an absent column is display
    only.) *)
Definition tab_overview (e : Env) : result Env :=
  avg_duration <- (if has_col "duration" (df_filtered e)
                   then s <- get_col "duration" (df_filtered e) ;; mean s
                   else Ok NaN) ;;
  avg_metadata <- (if has_col "metadata" (df_filtered e)
                   then s <- get_col "metadata" (df_filtered e) ;; mean s
                   else Ok NaN) ;;
  genres_covered <-
    (match title_col e with
     | Some title =>
         if has_col "genre" (df_genre e)
         then unique_titles_in_genre <-
                (if has_col title (df_genre e)
                 then rows_of_filtered_titles title (df_genre e) (df_filtered e)
                 else Ok (df_genre e)) ;;
              g <- get_col "genre" unique_titles_in_genre ;;
              Ok (List.length (unique g))
         else Ok O
     | None => Ok O
     end) ;;
  g_counts <- top_counts "genre" (df_genre e) e ;;
  c_counts <- top_counts "cast" (df_cast e) e ;;
  Ok e.

(** Genre tab, lines 225-284.  An absent [title_col] is in no frame's
    labels.  The counts and the means of lines 231 and 237 go to charts
    (sorted and cut to twenty entries there). *)
Definition tab_genre (e : Env) : result Env :=
  match title_col e with
  | Some title =>
      if has_col "genre" (df_genre e) && has_col title (df_genre e)
         && has_col title (df_filtered e)
      then
        g <- rows_of_filtered_titles title (df_genre e) (df_filtered e) ;;
        let e := set_dfg g e in
        genres <- get_col "genre" g ;;
        let g_counts := firstn 20 (value_counts genres) in
        g_scores <- (if has_col "metadata" g
                     then groupby_mean "genre" "metadata" g
                     else Ok []) ;;
        let top_genres := top_values 12 genres in
        let top := boolean_index g (isin genres top_genres) in
        let e := set_dfg_top top e in
        if has_col "year" (df_clean e)
        then
          first <- (if has_col title (df_clean e)
                    then merge_year title top (df_clean e)
                    else Ok top) ;;
          let e := set_df_year_genre first e in
          second <- genre_tab_trend title (df_genre e) (df_clean e) ;;
          let e := set_df_year_genre second e in
          p <- pivot_count "year" "genre" title second ;;
          Ok (set_pivot p e)
        else Ok e
      else Ok e
  | None => Ok e
  end.

(** Cast tab, lines 292-338. *)
Definition tab_cast (e : Env) : result Env :=
  match title_col e with
  | Some title =>
      if has_col "cast" (df_cast e) && has_col title (df_cast e)
         && has_col title (df_filtered e)
      then
        c <- rows_of_filtered_titles title (df_cast e) (df_filtered e) ;;
        let e := set_dfc c e in
        actors <- get_col "cast" c ;;
        let c_counts := firstn 20 (value_counts actors) in
        c_scores <- (if has_col "metadata" c
                     then groupby_mean "cast" "metadata" c
                     else Ok []) ;;
        let top_actors := top_values 15 actors in
        let top := boolean_index c (isin actors top_actors) in
        let e := set_dfc_top top e in
        if has_col "year" (df_clean e)
        then
          t <- guarded_trend title top (df_clean e) ;;
          let e := set_df_year_cast t e in
          count_by_year <- (if has_col "year" t
                            then groupby_size ["year"; "cast"] t
                            else Ok []) ;;
          Ok e
        else Ok e
      else Ok e
  | None => Ok e
  end.

(** Yearly tab, lines 348-397. *)
Definition tab_yearly (e : Env) : result Env :=
  if has_col "year" (df_filtered e)
  then
    yearly_count <- groupby_size ["year"] (df_filtered e) ;;
    yearly_dur <- (if has_col "duration" (df_filtered e)
                   then groupby_mean "year" "duration" (df_filtered e)
                   else Ok []) ;;
    yearly_meta <- (if has_col "metadata" (df_filtered e)
                    then groupby_mean "year" "metadata" (df_filtered e)
                    else Ok []) ;;
    match title_col e with
    | Some title =>
        if has_col "genre" (df_genre e) && has_col title (df_genre e)
           && has_col title (df_clean e)
        then
          t <- guarded_trend title (df_genre e) (df_clean e) ;;
          let e := set_df_year_genre t e in
          if has_col "year" t
          then p <- pivot_count "year" "genre" title t ;; Ok (set_pivot p e)
          else Ok e
        else Ok e
    | None => Ok e
    end
  else Ok e.

(** Scatter tab, lines 402-420: under its label guards the tab hands
    [df_filtered] to plotting calls and computes nothing on it. *)
Definition tab_scatter (e : Env) : result Env := Ok e.

(** Correlation tab, lines 425-440. *)
Definition tab_correlation (e : Env) : result Env :=
  let num_cols := filter (fun c => has_col c (df_filtered e))
                         ["metadata"; "duration"; "year"] in
  if (2 <=? List.length num_cols)%nat
  then _ <- corr num_cols (df_filtered e) ;; Ok e
  else Ok e.

Section Dashboard.

Variable format_number : Q -> string.

(** Data tab, lines 445-455. *)
Definition tab_data (e : Env) : result Env :=
  Ok (download_button (to_csv format_number (df_filtered e)) e).

(** Lines 121-455 for one interaction. *)
Definition dashboard (cfg : FilterState) (clean cast genre : DataFrame) : result Env :=
  let e := start clean cast genre in
  e <- filter_block cfg e ;;
  let csv_bytes := to_csv format_number (df_filtered e) in
  let e := download_button csv_bytes e in
  e <- tab_overview e ;;
  e <- tab_genre e ;;
  e <- tab_cast e ;;
  e <- tab_yearly e ;;
  e <- tab_scatter e ;;
  e <- tab_correlation e ;;
  tab_data e.

End Dashboard.

(** *** Frames for the examples *)

Definition movies : DataFrame :=
  mkDF ["title"; "year"; "metadata"]
       [ [Str "A"; Num 2000; Num (15 # 2)];
         [Str "B"; Num 2001; Num (93 # 10)] ].

Definition genres : DataFrame :=
  mkDF ["title"; "genre"]
       [ [Str "A"; Str "Drama"]; [Str "B"; Str "Comedy"]; [Str "C"; Str "Drama"] ].

Definition casts : DataFrame :=
  mkDF ["title"; "cast"]
       [ [Str "A"; Str "X"]; [Str "A"; Str "Y"]; [Str "B"; Str "X"] ].

(** A genre frame whose title column goes by another name. *)
Definition genres_untitled : DataFrame :=
  mkDF ["movie"; "genre"]
       [ [Str "A"; Str "Drama"]; [Str "B"; Str "Comedy"] ].


Definition cell_eq_dec (a b : cell) : {a = b} + {a <> b}.
Proof.
  decide equality.
  - destruct q as [n d], q0 as [n0 d0].
    destruct (Z.eq_dec n n0) as [->|Hn]; [|right; congruence].
    destruct (Pos.eq_dec d d0) as [->|Hd]; [left; reflexivity|right; congruence].
  - apply string_dec.
Defined.

Definition row_eq_dec : forall a b : list cell, {a = b} + {a <> b} :=
  list_eq_dec cell_eq_dec.


(** A cast frame that carries its own [year] column. *)
Definition casts_with_year : DataFrame :=
  mkDF ["title"; "cast"; "year"]
       [ [Str "A"; Str "X"; Num 1999];
         [Str "C"; Str "Y"; Num 1987];
         [Str "D"; Str "Z"; NaN] ].


(** The pairs (exploded row, offered year) of a left join, in the order
    of the joined frame. *)
Definition join_items (df_exploded df_clean : DataFrame) : list (list cell * cell) :=
  flat_map (fun l => map (pair l)
                         (movie_years (cell_at "title" (columns df_exploded) l) df_clean))
           (rows df_exploded).

(** The labels of the frame [merge_year] returns. *)
Definition merged_columns (df_exploded : DataFrame) : list string :=
  (if has_col "year" df_exploded
   then rename_label "year" "year_x" (columns df_exploded)
   else columns df_exploded)
  ++ [if has_col "year" df_exploded then "year_y" else "year"].



(** The Genre tab reaches its trend view. *)
Definition genre_trend_applies (e : Env) : bool :=
  has_col "title" (df_clean e) && has_col "genre" (df_genre e)
  && has_col "title" (df_genre e) && has_col "title" (df_filtered e)
  && has_col "year" (df_clean e).

(** A number printer for running the script on examples: whole numbers in
    decimal, other numbers as a fraction. *)
Definition decimal (z : Z) : string := NilZero.string_of_int (Z.to_int z).

Definition fraction_text (q : Q) : string :=
  if Pos.eqb (Qden q) 1 then decimal (Qnum q)
  else (decimal (Qnum q) ++ "/" ++ decimal (Zpos (Qden q)))%string.


(** A cell holding a whole number, as the integer cast leaves it. *)
Definition is_int_cell (c : cell) : Prop := exists z : Z, c = Num (inject_Z z).


(** A movie frame whose scores are whole numbers. *)
Definition movies_whole : DataFrame :=
  mkDF ["title"; "year"; "metadata"]
       [ [Str "A"; Num 2000; Num 75];
         [Str "B"; Num 2001; Num 93] ].


(** A label as the normaliser leaves it: no upper-case letter, no space,
    line feed or tab anywhere, no white space at either end. *)
Definition clean_label (s : string) : Prop :=
  let l := list_ascii_of_string s in
  PyStr.strip l = l
  /\ Forall (fun ch => PyStr.lower_char ch = ch
                       /\ ch <> PyStr.SPACE /\ ch <> PyStr.NEWLINE /\ ch <> PyStr.TAB) l.


(* ================================================================= *)
(** ** Sidebar options (lines 93-99) *)

(** Python's [sorted] on a list of present values: comparing a string with
    a number raises; otherwise the order is ascending and stable. *)
Definition py_sorted (l : list cell) : result (list cell) :=
  if existsb is_num l && existsb is_str l then Raise TypeError
  else Ok (fold_right insert_cell [] l).

(** [sorted([g for g in df[label].dropna().unique()]) if label in df.columns else []] *)
Definition options_available (label : string) (df : DataFrame) : result (list cell) :=
  if has_col label df
  then s <- get_col label df ;;
       py_sorted (unique (filter (fun c => negb (is_missing c)) s))
  else Ok [].

(** Each element is below its successor. *)
Fixpoint ascending (l : list cell) : bool :=
  match l with
  | [] => true
  | x :: t => match t with
              | [] => true
              | y :: _ => cell_leb x y && ascending t
              end
  end.


(** The rows of a frame whose title is [t]. *)
Definition rows_titled (t : cell) (df : DataFrame) : list (list cell) :=
  filter (fun m => cell_eqb (cell_at "title" (columns df) m) t) (rows df).

(** No two rows of the frame have the same title. *)
Definition titles_unique (df : DataFrame) : Prop :=
  forall t, (List.length (rows_titled t df) <= 1)%nat.

(** A movie frame in which a title occurs twice. *)
Definition movies_remade : DataFrame :=
  mkDF ["title"; "year"]
       [ [Str "A"; Num 1960]; [Str "A"; Num 2001]; [Str "B"; Num 1999] ].


(** Counts that never increase along the list. *)
Fixpoint descending (l : list nat) : bool :=
  match l with
  | [] => true
  | x :: t => match t with
              | [] => true
              | y :: _ => (y <=? x)%nat && descending t
              end
  end.



(** Column [name] of [df] holds no string (trivially so when absent). *)
Definition numeric_col (name : string) (df : DataFrame) : Prop :=
  Forall (fun r => is_str (cell_at name (columns df) r) = false) (rows df).

(* ================================================================= *)
(** * Properties *)

(** ** Characters *)

Ltac all_ascii c :=
  destruct c as [[] [] [] [] [] [] [] []]; vm_compute; try reflexivity; try discriminate; auto.

Lemma lower_char_idem (c : ascii) :
  PyStr.lower_char (PyStr.lower_char c) = PyStr.lower_char c.
Proof. all_ascii c. Qed.

Lemma replace_thrice (l : PyStr.chars) :
  PyStr.replace PyStr.TAB PyStr.UNDERSCORE
    (PyStr.replace PyStr.NEWLINE PyStr.UNDERSCORE
       (PyStr.replace PyStr.SPACE PyStr.UNDERSCORE l)) = map repl l.
Proof.
  unfold PyStr.replace. rewrite !map_map. apply map_ext.
  intros c. all_ascii c.
Qed.

Lemma repl_not_space (c : ascii) : PyStr.is_space c = false -> repl c = c.
Proof. unfold repl. intros ->. reflexivity. Qed.

Lemma repl_idem (c : ascii) : repl (repl c) = repl c.
Proof. all_ascii c. Qed.

Lemma lower_repl_lower (c : ascii) :
  PyStr.lower_char (repl (PyStr.lower_char c)) = repl (PyStr.lower_char c).
Proof. all_ascii c. Qed.

Lemma is_space_lower (c : ascii) :
  PyStr.is_space (PyStr.lower_char c) = PyStr.is_space c.
Proof. all_ascii c. Qed.

(** ** Stripping *)

Lemma lstrip_fixed (l : PyStr.chars) :
  PyStr.lstrip l = l <-> l = [] \/ exists c t, l = c :: t /\ PyStr.is_space c = false.
Proof.
  split.
  - destruct l as [|c t]; [now left|]. simpl.
    destruct (PyStr.is_space c) eqn:E.
    + intros H. exfalso.
      assert (Hlen : forall m, (List.length (PyStr.lstrip m) <= List.length m)%nat).
      { induction m as [|d m IH]; simpl; [lia|]. destruct (PyStr.is_space d); simpl; lia. }
      specialize (Hlen t). rewrite H in Hlen. simpl in Hlen. lia.
    + intros _. right. now exists c, t.
  - intros [->|(c & t & -> & Hc)]; [reflexivity|]. simpl. now rewrite Hc.
Qed.

Lemma lstrip_idem (l : PyStr.chars) : PyStr.lstrip (PyStr.lstrip l) = PyStr.lstrip l.
Proof.
  induction l as [|c t IH]; [reflexivity|]. simpl.
  destruct (PyStr.is_space c) eqn:E; [exact IH|]. simpl. now rewrite E.
Qed.

Lemma rstrip_cons_keep (c : ascii) (l : PyStr.chars) :
  PyStr.is_space c = false -> PyStr.rstrip (c :: l) = c :: PyStr.rstrip l.
Proof.
  intros Hc. simpl. destruct (PyStr.rstrip l); [now rewrite Hc|reflexivity].
Qed.

Lemma rstrip_idem (l : PyStr.chars) : PyStr.rstrip (PyStr.rstrip l) = PyStr.rstrip l.
Proof.
  induction l as [|c t IH]; [reflexivity|]. simpl.
  destruct (PyStr.rstrip t) as [|d r] eqn:E.
  - destruct (PyStr.is_space c) eqn:Hc; [reflexivity|]. simpl. now rewrite Hc.
  - change (PyStr.rstrip (c :: d :: r)) with
      (match PyStr.rstrip (d :: r) with
       | [] => if PyStr.is_space c then [] else [c]
       | x => c :: x end).
    rewrite IH. reflexivity.
Qed.

Lemma strip_lstrip_fixed (l : PyStr.chars) :
  PyStr.lstrip (PyStr.strip l) = PyStr.strip l.
Proof.
  unfold PyStr.strip.
  destruct (proj1 (lstrip_fixed (PyStr.lstrip l)) (lstrip_idem l)) as [E|(c & t & E & Hc)].
  - rewrite E. reflexivity.
  - rewrite E, (rstrip_cons_keep _ _ Hc). simpl. now rewrite Hc.
Qed.

Lemma strip_rstrip_fixed (l : PyStr.chars) :
  PyStr.rstrip (PyStr.strip l) = PyStr.strip l.
Proof. unfold PyStr.strip. apply rstrip_idem. Qed.

Lemma lstrip_map_repl (l : PyStr.chars) :
  PyStr.lstrip l = l -> PyStr.lstrip (map repl l) = map repl l.
Proof.
  intros H. apply lstrip_fixed in H. destruct H as [->|(c & t & -> & Hc)]; [reflexivity|].
  simpl. rewrite (repl_not_space _ Hc), Hc. reflexivity.
Qed.

Lemma rstrip_map_repl (l : PyStr.chars) :
  PyStr.rstrip l = l -> PyStr.rstrip (map repl l) = map repl l.
Proof.
  induction l as [|c t IH]; [reflexivity|]. simpl.
  destruct (PyStr.rstrip t) as [|d r] eqn:E.
  - destruct (PyStr.is_space c) eqn:Hc; [discriminate|].
    intros H. injection H as <-. simpl. rewrite (repl_not_space _ Hc), Hc. reflexivity.
  - intros H. injection H as H. rewrite IH by exact H. rewrite <- H. reflexivity.
Qed.

(** ** Normalising a label *)

Lemma canon_chars_eq (l : PyStr.chars) :
  canon_chars l = map repl (PyStr.strip (map PyStr.lower_char l)).
Proof. unfold canon_chars, PyStr.lower. apply replace_thrice. Qed.

Lemma strip_incl (l : PyStr.chars) (c : ascii) : In c (PyStr.strip l) -> In c l.
Proof.
  unfold PyStr.strip. intros H.
  assert (R : forall m, In c (PyStr.rstrip m) -> In c m).
  { induction m as [|d m IH]; simpl; [tauto|].
    destruct (PyStr.rstrip m) as [|e r].
    - destruct (PyStr.is_space d); simpl; tauto.
    - intros [->|H']; [now left|right; apply IH; exact H']. }
  apply R in H. clear R. induction l as [|d l IH]; simpl in *; [tauto|].
  destruct (PyStr.is_space d); [right; apply IH; exact H|exact H].
Qed.

Lemma canon_chars_idem (l : PyStr.chars) : canon_chars (canon_chars l) = canon_chars l.
Proof.
  rewrite !canon_chars_eq.
  set (t := PyStr.strip (map PyStr.lower_char l)).
  assert (Hlow : map PyStr.lower_char (map repl t) = map repl t).
  { rewrite map_map. apply map_ext_in. intros c Hc.
    apply strip_incl, in_map_iff in Hc. destruct Hc as (d & <- & _).
    apply lower_repl_lower. }
  rewrite Hlow.
  assert (Hstrip : PyStr.strip (map repl t) = map repl t).
  { unfold PyStr.strip.
    rewrite (lstrip_map_repl t) by apply strip_lstrip_fixed.
    apply rstrip_map_repl, strip_rstrip_fixed. }
  rewrite Hstrip, map_map. apply map_ext. intros c. apply repl_idem.
Qed.

Lemma normalize_name_metadata : normalize_name "metadata" = "metadata".
Proof. reflexivity. Qed.

Lemma normalize_name_idem (c : string) :
  normalize_name (normalize_name c) = normalize_name c.
Proof.
  unfold normalize_name at 2 3. destruct (String.eqb c "metadata") eqn:E.
  - apply String.eqb_eq in E. subst c. reflexivity.
  - unfold normalize_name.
    destruct (String.eqb (string_of_list_ascii _) "metadata"); [reflexivity|].
    rewrite list_ascii_of_string_of_list_ascii, canon_chars_idem. reflexivity.
Qed.

(** ** Renaming rules *)

Lemma mem_In (name : string) (cols : list string) : mem name cols = true <-> In name cols.
Proof.
  unfold mem. rewrite existsb_exists. split.
  - intros (x & Hx & E). apply String.eqb_eq in E. now subst.
  - intros H. exists name. split; [exact H|apply String.eqb_refl].
Qed.

Lemma mem_rename_old (old new : string) (cols : list string) :
  old <> new -> mem old (rename_label old new cols) = false.
Proof.
  intros Hne. destruct (mem old (rename_label old new cols)) eqn:E; [|reflexivity].
  apply mem_In in E. unfold rename_label in E. apply in_map_iff in E.
  destruct E as (x & Hx & _). destruct (String.eqb x old) eqn:Ex.
  - congruence.
  - apply String.eqb_neq in Ex. congruence.
Qed.

Lemma rename_label_fixed (old new : string) (cols : list string) :
  Forall (fun c => normalize_name c = c) cols ->
  normalize_name new = new ->
  Forall (fun c => normalize_name c = c) (rename_label old new cols).
Proof.
  intros H Hn. unfold rename_label. apply Forall_map.
  eapply Forall_impl; [|exact H]. intros c Hc. simpl.
  destruct (String.eqb c old); assumption.
Qed.

Lemma normalize_labels_fixed (cols : list string) :
  Forall (fun c => normalize_name c = c) cols -> normalize_labels cols = cols.
Proof.
  intros H. unfold normalize_labels. rewrite <- (map_id cols) at 2.
  apply map_ext_in. intros c Hc. rewrite Forall_forall in H. now apply H.
Qed.

Lemma normalize_schema_fixed_names (cols : list string) :
  Forall (fun c => normalize_name c = c) (normalize_schema cols).
Proof.
  assert (D : forall l, Forall (fun c => normalize_name c = c) l ->
                        Forall (fun c => normalize_name c = c) (rename_duration_ l)).
  { intros l Hl. unfold rename_duration_.
    destruct (_ && _); [apply rename_label_fixed; [exact Hl|reflexivity]|exact Hl]. }
  assert (M : forall l, Forall (fun c => normalize_name c = c) l ->
                        Forall (fun c => normalize_name c = c) (rename_meta_data l)).
  { intros l Hl. unfold rename_meta_data.
    destruct (_ && _); [apply rename_label_fixed; [exact Hl|reflexivity]|exact Hl]. }
  unfold normalize_schema. apply D, M.
  unfold normalize_labels. apply Forall_map, Forall_forall.
  intros c _. apply normalize_name_idem.
Qed.

Lemma rename_meta_data_idem (cols : list string) :
  rename_meta_data (rename_meta_data cols) = rename_meta_data cols.
Proof.
  unfold rename_meta_data at 2 3.
  destruct (mem "meta_data" cols && negb (mem "metadata" cols)) eqn:E.
  - unfold rename_meta_data. rewrite mem_rename_old by discriminate. reflexivity.
  - unfold rename_meta_data. rewrite E. reflexivity.
Qed.

Lemma rename_duration_idem (cols : list string) :
  rename_duration_ (rename_duration_ cols) = rename_duration_ cols.
Proof.
  unfold rename_duration_ at 2 3.
  destruct (mem "duration_" cols && negb (mem "duration" cols)) eqn:E.
  - unfold rename_duration_. rewrite mem_rename_old by discriminate. reflexivity.
  - unfold rename_duration_. rewrite E. reflexivity.
Qed.

Lemma mem_rename_other (name old new : string) (cols : list string) :
  name <> old -> name <> new -> mem name (rename_label old new cols) = mem name cols.
Proof.
  intros H1 H2. unfold mem, rename_label. induction cols as [|c t IH]; [reflexivity|].
  simpl. rewrite IH. f_equal. destruct (String.eqb c old) eqn:E.
  - apply String.eqb_eq in E. subst c.
    apply String.eqb_neq in H1, H2. now rewrite H1, H2.
  - reflexivity.
Qed.

Lemma rename_meta_data_after_duration (cols : list string) :
  rename_meta_data cols = cols ->
  rename_meta_data (rename_duration_ cols) = rename_duration_ cols.
Proof.
  intros H. unfold rename_duration_.
  destruct (mem "duration_" cols && negb (mem "duration" cols)); [|exact H].
  unfold rename_meta_data in *.
  rewrite !mem_rename_other by discriminate.
  destruct (mem "meta_data" cols && negb (mem "metadata" cols)) eqn:E; [|reflexivity].
  apply andb_true_iff in E. destruct E as [E1 E2].
  exfalso. pose proof (mem_rename_old "meta_data" "metadata" cols ltac:(discriminate)) as M.
  rewrite H in M. congruence.
Qed.

Lemma normalize_schema_idem (cols : list string) :
  normalize_schema (normalize_schema cols) = normalize_schema cols.
Proof.
  unfold normalize_schema at 1.
  rewrite normalize_labels_fixed by apply normalize_schema_fixed_names.
  unfold normalize_schema.
  rewrite rename_meta_data_after_duration by apply rename_meta_data_idem.
  apply rename_duration_idem.
Qed.

(** C5.  The schema normalisation (the label rewriting of
    [normalize_columns] followed by the [meta_data] and [duration_] renaming
    rules) is idempotent: on every frame, normalising the normalised frame
    gives the normalised frame again. *)
Theorem normalize_idempotent (df : DataFrame) :
  normalize (normalize df) = normalize df.
Proof.
  unfold normalize. simpl. now rewrite normalize_schema_idem.
Qed.

Example normalize_name_spaced :
  normalize_name "  Meta Data " = "meta_data"
  /\ normalize_name "Release	Year" = "release_year"
  /\ normalize_name "METADATA" = "metadata".
Proof. repeat split; reflexivity. Qed.

Example normalize_schema_aliases :
  normalize_schema ["Title"; " Meta_Data"; "Duration_"; "Year "]
  = ["title"; "metadata"; "duration"; "year"].
Proof. reflexivity. Qed.

(** ** The score column *)

Lemma nth_error_rename_other (old new c : string) (cols : list string) (i : nat) :
  nth_error cols i = Some c -> c <> old ->
  nth_error (rename_label old new cols) i = Some c.
Proof.
  intros H Hne. unfold rename_label. rewrite nth_error_map, H. simpl.
  apply String.eqb_neq in Hne. now rewrite Hne.
Qed.

Lemma nth_error_rename_old (old new : string) (cols : list string) (i : nat) :
  nth_error cols i = Some old ->
  nth_error (rename_label old new cols) i = Some new.
Proof.
  intros H. unfold rename_label. rewrite nth_error_map, H. simpl.
  now rewrite String.eqb_refl.
Qed.

Lemma nth_error_rename_duration_ (c : string) (cols : list string) (i : nat) :
  nth_error cols i = Some c -> c <> "duration_" ->
  nth_error (rename_duration_ cols) i = Some c.
Proof.
  intros H Hne. unfold rename_duration_.
  destruct (_ && _); [now apply nth_error_rename_other|exact H].
Qed.

(** C6.  Normalisation establishes the canonical name of the score column:
    a column named [metadata] before normalisation is named [metadata]
    after it; and a column whose label is [meta_data] once
    [normalize_columns] has run ends up named [metadata] exactly when
    [normalize_columns] left no column named [metadata]. *)
Theorem metadata_name_canonical (df : DataFrame) (i : nat) :
  (nth_error (columns df) i = Some "metadata" ->
   nth_error (columns (normalize df)) i = Some "metadata")
  /\ (nth_error (columns (normalize_columns df)) i = Some "meta_data" ->
      (nth_error (columns (normalize df)) i = Some "metadata"
       <-> mem "metadata" (columns (normalize_columns df)) = false)).
Proof.
  destruct df as [cols rs]. simpl. unfold normalize_schema. split.
  - intros H. apply nth_error_rename_duration_; [|discriminate].
    assert (H0 : nth_error (normalize_labels cols) i = Some "metadata").
    { unfold normalize_labels. rewrite nth_error_map, H. reflexivity. }
    unfold rename_meta_data.
    destruct (_ && _); [apply nth_error_rename_other; [exact H0|discriminate]|exact H0].
  - intros H.
    assert (Hm : mem "meta_data" (normalize_labels cols) = true).
    { apply mem_In. eapply nth_error_In. exact H. }
    unfold rename_meta_data. rewrite Hm. simpl.
    destruct (mem "metadata" (normalize_labels cols)) eqn:E; simpl.
    + split; [|discriminate]. intros H'.
      rewrite (nth_error_rename_duration_ "meta_data") in H'; [discriminate|exact H|discriminate].
    + split; [reflexivity|]. intros _.
      apply nth_error_rename_duration_; [|discriminate].
      now apply nth_error_rename_old.
Qed.

Lemma metadata_name_canonical_witness :
  nth_error (columns (normalize (mkDF ["Title"; "Meta Data"] []))) 1 = Some "metadata".
Proof.
  apply (proj2 (metadata_name_canonical (mkDF ["Title"; "Meta Data"] []) 1)); reflexivity.
Defined.

(** ** Frames: labels and columns *)

Lemma index_of_Some (name : string) (cols : list string) (i : nat) :
  index_of name cols = Some i -> nth_error cols i = Some name.
Proof.
  revert i. induction cols as [|c t IH]; intros i; simpl; [discriminate|].
  destruct (String.eqb c name) eqn:E.
  - intros H. injection H as <-. apply String.eqb_eq in E. now subst.
  - destruct (index_of name t) as [j|]; simpl; [|discriminate].
    intros H. injection H as <-. simpl. now apply IH.
Qed.

Lemma index_of_lt (name : string) (cols : list string) (i : nat) :
  index_of name cols = Some i -> (i < List.length cols)%nat.
Proof.
  intros H. apply index_of_Some in H. apply nth_error_Some. congruence.
Qed.

Lemma index_of_inj (c d : string) (cols : list string) (i : nat) :
  index_of c cols = Some i -> index_of d cols = Some i -> c = d.
Proof.
  intros H1 H2. apply index_of_Some in H1, H2. congruence.
Qed.

Lemma index_of_mem (name : string) (cols : list string) :
  mem name cols = true <-> exists i, index_of name cols = Some i.
Proof.
  induction cols as [|c t IH]; simpl.
  - split; [discriminate|intros [i H]; discriminate].
  - rewrite (String.eqb_sym name c). destruct (String.eqb c name); simpl.
    + split; [now exists O|reflexivity].
    + rewrite IH. split; intros [i H].
      * exists (S i). now rewrite H.
      * destruct (index_of name t) as [j|]; [now exists j|discriminate].
Qed.

Lemma index_of_not_mem (name : string) (cols : list string) :
  mem name cols = false <-> index_of name cols = None.
Proof.
  pose proof (index_of_mem name cols) as H.
  destruct (mem name cols), (index_of name cols) as [i|]; split; intros E;
    try reflexivity; try discriminate.
  - destruct (proj1 H eq_refl); discriminate.
  - assert (false = true) by (apply H; now exists i). discriminate.
Qed.

Lemma get_col_has (name : string) (df : DataFrame) :
  has_col name df = true -> exists s, get_col name df = Ok s.
Proof.
  unfold has_col, get_col. intros H. apply index_of_mem in H. destruct H as [i ->].
  eexists. reflexivity.
Qed.

Lemma get_col_length (name : string) (df : DataFrame) (s : list cell) :
  get_col name df = Ok s -> List.length s = List.length (rows df).
Proof.
  unfold get_col. destruct (index_of name (columns df)); [|discriminate].
  intros H. injection H as <-. apply length_map.
Qed.

Lemma replace_nth_length (i : nat) (v : cell) (r : list cell) :
  List.length (replace_nth i v r) = List.length r.
Proof.
  revert i. induction r as [|c t IH]; intros [|j]; simpl; auto.
Qed.

Lemma nth_replace_nth_same (i : nat) (v : cell) (r : list cell) :
  (i < List.length r)%nat -> nth i (replace_nth i v r) NaN = v.
Proof.
  revert i. induction r as [|c t IH]; intros [|j] H; simpl in *; try lia; auto.
  apply IH. lia.
Qed.

Lemma nth_replace_nth_other (i j : nat) (v : cell) (r : list cell) :
  i <> j -> nth j (replace_nth i v r) NaN = nth j r NaN.
Proof.
  revert i j. induction r as [|c t IH]; intros [|i] [|j] H; simpl; auto; try lia.
Qed.

Lemma combine_map_self {A B : Type} (g : A -> B) (l : list A) :
  combine l (map g l) = map (fun a => (a, g a)) l.
Proof. induction l as [|a t IH]; simpl; [reflexivity|now rewrite IH]. Qed.

Lemma set_col_map (c : string) (f : list cell -> list cell) (df : DataFrame)
    (i : nat) (s : list cell) :
  wf df -> index_of c (columns df) = Some i -> get_col c df = Ok s ->
  List.length (f s) = List.length s ->
  col_updated c f df (set_col c (f s) df).
Proof.
  intros Hwf Hi Hs Hlen. unfold set_col. rewrite Hi.
  pose proof (get_col_length _ _ _ Hs) as Hl.
  assert (Hcomb : forall (l : list (list cell)) (v : list cell),
             List.length v = List.length l ->
             map fst (combine l v) = l /\ map snd (combine l v) = v).
  { induction l as [|a t IH]; intros [|y v] H; simpl in *; try lia; auto.
    destruct (IH v) as [IH1 IH2]; [lia|]. now rewrite IH1, IH2. }
  destruct (Hcomb (rows df) (f s)) as [Hfst Hsnd]; [lia|]. clear Hcomb.
  assert (Hin : forall rv, In rv (combine (rows df) (f s)) ->
                           List.length (fst rv) = List.length (columns df)).
  { intros [r v] H. apply in_combine_l in H. destruct Hwf as [_ Hwf].
    rewrite Forall_forall in Hwf. now apply Hwf. }
  unfold col_updated. simpl. repeat split.
  - exact (proj1 Hwf).
  - simpl. apply Forall_map, Forall_forall. intros rv H.
    rewrite replace_nth_length. now apply Hin.
  - rewrite length_map, <- (length_map fst), Hfst. reflexivity.
  - intros d. unfold get_col at 1. simpl.
    destruct (String.eqb d c) eqn:E.
    + apply String.eqb_eq in E. subst d. rewrite Hi, Hs. simpl. f_equal.
      rewrite map_map. rewrite <- Hsnd at 2. apply map_ext_in. intros rv H.
      apply nth_replace_nth_same. rewrite (Hin rv H). eapply index_of_lt, Hi.
    + unfold get_col. destruct (index_of d (columns df)) as [j|] eqn:Hj; [|reflexivity].
      f_equal. rewrite map_map. rewrite <- Hfst at 2. rewrite map_map.
      apply map_ext. intros rv. apply nth_replace_nth_other.
      intros ->. apply String.eqb_neq in E. apply E. eapply index_of_inj; eassumption.
Qed.

Lemma col_updated_refl_absent (c : string) (f : list cell -> list cell) (df : DataFrame) :
  wf df -> has_col c df = false -> col_updated c f df df.
Proof.
  intros Hwf H. unfold col_updated. split; [exact Hwf|]. repeat split; auto.
  intros d. destruct (String.eqb d c) eqn:E; [|reflexivity].
  apply String.eqb_eq in E. subst d. unfold get_col.
  apply index_of_not_mem in H. now rewrite H.
Qed.

(** ** Coercion and imputation *)

Lemma bind_Ok {A B : Type} (a : A) (k : A -> result B) : bind (Ok a) k = k a.
Proof. reflexivity. Qed.

Lemma mapM_ok {A B : Type} (f : A -> result B) (g : A -> B) (l : list A) :
  Forall (fun a => f a = Ok (g a)) l -> mapM f l = Ok (map g l).
Proof.
  induction 1 as [|a t Ha Ht IH]; simpl; [reflexivity|].
  rewrite Ha. simpl. rewrite IH. reflexivity.
Qed.

Lemma observed_no_str (s : list cell) :
  Forall (fun c => is_str c = false) s -> observed s = Ok (nonmissing s).
Proof.
  induction 1 as [|c t Hc Ht IH]; simpl; [reflexivity|].
  destruct c; simpl in *; try discriminate; rewrite IH; reflexivity.
Qed.

Lemma median_no_str (s : list cell) :
  Forall (fun c => is_str c = false) s -> median s = Ok (median_cell s).
Proof.
  intros H. unfold median, median_cell. rewrite (observed_no_str _ H). reflexivity.
Qed.

Lemma median_cell_observed (s : list cell) :
  nonmissing s <> [] -> is_num (median_cell s) = true.
Proof.
  unfold median_cell, median_of. destruct (nonmissing s) as [|q t]; [congruence|].
  intros _. destruct (Nat.even _); reflexivity.
Qed.

Lemma fillna_length (v : cell) (s : list cell) : List.length (fillna v s) = List.length s.
Proof. apply length_map. Qed.

Lemma fillna_all_num (v : cell) (s : list cell) :
  is_num v = true -> Forall (fun c => is_str c = false) s ->
  Forall (fun c => is_num c = true) (fillna v s).
Proof.
  intros Hv H. unfold fillna. apply Forall_map.
  eapply Forall_impl; [|exact H]. intros c Hc. simpl.
  destruct c; simpl in *; auto; discriminate.
Qed.

Lemma fillna_no_str (v : cell) (s : list cell) :
  is_str v = false -> Forall (fun c => is_str c = false) s ->
  Forall (fun c => is_str c = false) (fillna v s).
Proof.
  intros Hv H. unfold fillna. apply Forall_map.
  eapply Forall_impl; [|exact H]. intros c Hc. simpl. destruct c; simpl in *; auto.
Qed.

Lemma cast_int_all_num (s : list cell) :
  Forall (fun c => is_num c = true) s -> Forall (fun c => is_num c = true) (map cast_int s).
Proof.
  intros H. apply Forall_map. eapply Forall_impl; [|exact H].
  intros c Hc. destruct c; simpl in *; auto.
Qed.

Section CoercionFacts.

Variable parse_number : string -> option Q.
Variable int_of_str : string -> option Z.

Lemma to_numeric_no_str (s : list cell) :
  Forall (fun c => is_str c = false) (to_numeric parse_number s).
Proof.
  unfold to_numeric. apply Forall_map, Forall_forall. intros c _.
  destruct c; simpl; auto. destruct (parse_number s0); reflexivity.
Qed.

Lemma astype_int_all_num (s : list cell) :
  Forall (fun c => is_num c = true) s ->
  astype_int int_of_str s = Ok (map cast_int s).
Proof.
  intros H. unfold astype_int. apply mapM_ok.
  eapply Forall_impl; [|exact H]. intros c Hc. destruct c; simpl in *; try discriminate.
  reflexivity.
Qed.

Lemma coerce_step (c : string) (df : DataFrame) :
  wf df ->
  exists df',
    (if has_col c df
     then s <- get_col c df ;; Ok (set_col c (to_numeric parse_number s) df)
     else Ok df) = Ok df'
    /\ col_updated c (to_numeric parse_number) df df'.
Proof.
  intros Hwf. destruct (has_col c df) eqn:E.
  - pose proof E as E'. unfold has_col in E'. apply index_of_mem in E'.
    destruct E' as [i Hi]. destruct (get_col_has _ _ E) as [s Hs].
    rewrite Hs. simpl. eexists. split; [reflexivity|].
    eapply set_col_map; eauto. apply length_map.
  - exists df. split; [reflexivity|]. now apply col_updated_refl_absent.
Qed.

Lemma impute_float_step (c : string) (df : DataFrame) :
  wf df ->
  (forall s, get_col c df = Ok s -> Forall (fun x => is_str x = false) s) ->
  exists df',
    (if has_col c df
     then s <- get_col c df ;; m <- median s ;; Ok (set_col c (fillna m s) df)
     else Ok df) = Ok df'
    /\ col_updated c (fun s => fillna (median_cell s) s) df df'.
Proof.
  intros Hwf Hns. destruct (has_col c df) eqn:E.
  - pose proof E as E'. unfold has_col in E'. apply index_of_mem in E'.
    destruct E' as [i Hi]. destruct (get_col_has _ _ E) as [s Hs].
    rewrite Hs. simpl. rewrite (median_no_str s (Hns s Hs)). simpl.
    eexists. split; [reflexivity|].
    apply (set_col_map c (fun s => fillna (median_cell s) s) df i s); auto.
    apply fillna_length.
  - exists df. split; [reflexivity|]. now apply col_updated_refl_absent.
Qed.

Lemma impute_int_step (c : string) (df : DataFrame) :
  wf df ->
  (forall s, get_col c df = Ok s ->
             Forall (fun x => is_str x = false) s /\ nonmissing s <> []) ->
  exists df',
    (if has_col c df
     then s <- get_col c df ;; m <- median s ;;
          v <- astype_int int_of_str (fillna m s) ;; Ok (set_col c v df)
     else Ok df) = Ok df'
    /\ col_updated c (fun s => map cast_int (fillna (median_cell s) s)) df df'.
Proof.
  intros Hwf Hns. destruct (has_col c df) eqn:E.
  - pose proof E as E'. unfold has_col in E'. apply index_of_mem in E'.
    destruct E' as [i Hi]. destruct (get_col_has _ _ E) as [s Hs].
    destruct (Hns s Hs) as [H1 H2].
    rewrite Hs. simpl. rewrite (median_no_str s H1). simpl.
    rewrite astype_int_all_num
      by (apply fillna_all_num; [now apply median_cell_observed|exact H1]).
    simpl. eexists. split; [reflexivity|].
    apply (set_col_map c (fun s => map cast_int (fillna (median_cell s) s)) df i s); auto.
    now rewrite length_map, fillna_length.
  - exists df. split; [reflexivity|]. now apply col_updated_refl_absent.
Qed.

Lemma astype_int_exact (s v : list cell) :
  Forall (fun c => is_str c = false) s ->
  astype_int int_of_str s = Ok v -> v = map cast_int s.
Proof.
  unfold astype_int. revert v. induction s as [|c t IH]; intros v Hs H; simpl in *.
  - now injection H as <-.
  - inversion Hs as [|? ? Hc Ht]; subst.
    destruct c as [|q|x]; simpl in *; try discriminate.
    destruct (mapM (astype_int_cell int_of_str) t) as [bs|] eqn:E; simpl in H;
      [|discriminate].
    injection H as <-. simpl. f_equal. now apply IH.
Qed.

Lemma impute_int_step_exact (c : string) (df out : DataFrame) :
  wf df ->
  (forall s, get_col c df = Ok s -> Forall (fun x => is_str x = false) s) ->
  (if has_col c df
   then s <- get_col c df ;; m <- median s ;;
        v <- astype_int int_of_str (fillna m s) ;; Ok (set_col c v df)
   else Ok df) = Ok out ->
  col_updated c (fun s => map cast_int (fillna (median_cell s) s)) df out.
Proof.
  intros Hwf Hns. destruct (has_col c df) eqn:E.
  - pose proof E as E'. unfold has_col in E'. apply index_of_mem in E'.
    destruct E' as [i Hi]. destruct (get_col_has _ _ E) as [s Hs].
    pose proof (Hns s Hs) as H1.
    rewrite Hs. simpl. rewrite (median_no_str s H1). simpl.
    destruct (astype_int int_of_str (fillna (median_cell s) s)) as [v|] eqn:Ea;
      simpl; [|discriminate].
    intros H. injection H as <-.
    apply astype_int_exact in Ea.
    + subst v.
      apply (set_col_map c (fun s => map cast_int (fillna (median_cell s) s)) df i s);
        auto.
      now rewrite length_map, fillna_length.
    + apply fillna_no_str; [|exact H1].
      unfold median_cell. destruct (median_of (nonmissing s)); reflexivity.
  - intros H. injection H as <-. now apply col_updated_refl_absent.
Qed.

End CoercionFacts.

Section ImputationInvariant.

Variable parse_number : string -> option Q.
Variable int_of_str : string -> option Z.

Lemma imputed_all_num (c : string) (s : list cell) :
  nonmissing (to_numeric parse_number s) <> [] ->
  Forall (fun x => is_num x = true) (imputed parse_number c s).
Proof.
  intros H. unfold imputed.
  assert (F : Forall (fun x => is_num x = true)
                (fillna (median_cell (to_numeric parse_number s))
                   (to_numeric parse_number s))).
  { apply fillna_all_num; [now apply median_cell_observed|apply to_numeric_no_str]. }
  destruct (String.eqb c "metadata"); [exact F|now apply cast_int_all_num].
Qed.

Lemma prepare_columns (df : DataFrame) :
  wf df ->
  (forall c s, In c ["duration"; "year"] -> get_col c df = Ok s ->
               nonmissing (to_numeric parse_number s) <> []) ->
  exists df',
    prepare parse_number int_of_str df = Ok df'
    /\ wf df' /\ columns df' = columns df
    /\ forall c, In c ["metadata"; "duration"; "year"] ->
                 get_col c df' = (s <- get_col c df ;; Ok (imputed parse_number c s)).
Proof.
  intros Hwf Hobs. unfold prepare, impute_and_cast. simpl coerce_numeric.
  destruct (coerce_step parse_number "metadata" df Hwf) as (d1 & E1 & W1 & C1 & L1 & G1).
  rewrite E1. simpl bind at 1.
  destruct (coerce_step parse_number "duration" d1 W1) as (d2 & E2 & W2 & C2 & L2 & G2).
  rewrite E2. simpl bind at 1.
  destruct (coerce_step parse_number "year" d2 W2) as (d3 & E3 & W3 & C3 & L3 & G3).
  rewrite E3. simpl bind at 1.
  assert (K3 : forall c, In c ["metadata"; "duration"; "year"] ->
                 get_col c d3 = (s <- get_col c df ;; Ok (to_numeric parse_number s))).
  { intros c [<-|[<-|[<-|[]]]]; rewrite G3, G2, G1; simpl; try reflexivity. }
  destruct (impute_float_step "metadata" d3 W3) as (d4 & E4 & W4 & C4 & L4 & G4).
  { intros s Hs. rewrite K3 in Hs by (simpl; auto).
    destruct (get_col "metadata" df); simpl in Hs; [|discriminate].
    injection Hs as <-. apply to_numeric_no_str. }
  rewrite E4. simpl bind at 1.
  destruct (impute_int_step int_of_str "duration" d4 W4) as (d5 & E5 & W5 & C5 & L5 & G5).
  { intros s Hs. rewrite G4 in Hs. simpl in Hs. rewrite K3 in Hs by (simpl; auto).
    destruct (get_col "duration" df) as [s0|] eqn:E0; simpl in Hs; [|discriminate].
    injection Hs as <-. split; [apply to_numeric_no_str|].
    apply (Hobs "duration"); simpl; auto. }
  rewrite E5. simpl bind at 1.
  destruct (impute_int_step int_of_str "year" d5 W5) as (d6 & E6 & W6 & C6 & L6 & G6).
  { intros s Hs. rewrite G5, G4 in Hs. simpl in Hs. rewrite K3 in Hs by (simpl; auto).
    destruct (get_col "year" df) as [s0|] eqn:E0; simpl in Hs; [|discriminate].
    injection Hs as <-. split; [apply to_numeric_no_str|].
    apply (Hobs "year"); simpl; auto. }
  rewrite E6. simpl bind at 1.
  exists d6. split; [reflexivity|]. split; [exact W6|]. split; [congruence|].
  intros c Hc. rewrite G6, G5, G4.
  destruct Hc as [<-|[<-|[<-|[]]]]; simpl; rewrite K3 by (simpl; auto);
    match goal with |- context [get_col ?c df] => destruct (get_col c df) end;
    reflexivity.
Qed.

(** Whenever the imputer returns, each of the three columns holds what
    coercion, the median fill and (for [duration] and [year]) the integer
    cast make of its cells. *)
Lemma prepare_columns_exact (df df' : DataFrame) :
  wf df ->
  prepare parse_number int_of_str df = Ok df' ->
  columns df' = columns df
  /\ forall c, In c ["metadata"; "duration"; "year"] ->
               get_col c df' = (s <- get_col c df ;; Ok (imputed parse_number c s)).
Proof.
  intros Hwf. unfold prepare, impute_and_cast. simpl coerce_numeric.
  destruct (coerce_step parse_number "metadata" df Hwf) as (d1 & E1 & W1 & C1 & L1 & G1).
  rewrite E1. simpl bind at 1.
  destruct (coerce_step parse_number "duration" d1 W1) as (d2 & E2 & W2 & C2 & L2 & G2).
  rewrite E2. simpl bind at 1.
  destruct (coerce_step parse_number "year" d2 W2) as (d3 & E3 & W3 & C3 & L3 & G3).
  rewrite E3. simpl bind at 1.
  assert (K3 : forall c, In c ["metadata"; "duration"; "year"] ->
                 get_col c d3 = (s <- get_col c df ;; Ok (to_numeric parse_number s))).
  { intros c [<-|[<-|[<-|[]]]]; rewrite G3, G2, G1; simpl; try reflexivity. }
  destruct (impute_float_step "metadata" d3 W3) as (d4 & E4 & W4 & C4 & L4 & G4).
  { intros s Hs. rewrite K3 in Hs by (simpl; auto).
    destruct (get_col "metadata" df); simpl in Hs; [|discriminate].
    injection Hs as <-. apply to_numeric_no_str. }
  rewrite E4. simpl bind at 1.
  match goal with |- bind ?m _ = _ -> _ =>
    destruct m as [d5|] eqn:E5; [|simpl; discriminate] end.
  apply (impute_int_step_exact int_of_str "duration" d4 d5 W4) in E5.
  2:{ intros s Hs. rewrite G4 in Hs. simpl in Hs. rewrite K3 in Hs by (simpl; auto).
      destruct (get_col "duration" df) as [s0|] eqn:E0; simpl in Hs; [|discriminate].
      injection Hs as <-. apply to_numeric_no_str. }
  destruct E5 as (W5 & C5 & L5 & G5). simpl bind at 1.
  match goal with |- bind ?m _ = _ -> _ =>
    destruct m as [d6|] eqn:E6; [|simpl; discriminate] end.
  apply (impute_int_step_exact int_of_str "year" d5 d6 W5) in E6.
  2:{ intros s Hs. rewrite G5, G4 in Hs. simpl in Hs. rewrite K3 in Hs by (simpl; auto).
      destruct (get_col "year" df) as [s0|] eqn:E0; simpl in Hs; [|discriminate].
      injection Hs as <-. apply to_numeric_no_str. }
  destruct E6 as (W6 & C6 & L6 & G6). simpl bind at 1.
  intros H. injection H as <-. split; [congruence|].
  intros c Hc. rewrite G6, G5, G4.
  destruct Hc as [<-|[<-|[<-|[]]]]; simpl; rewrite K3 by (simpl; auto);
    match goal with |- context [get_col ?c df] => destruct (get_col c df) end;
    reflexivity.
Qed.

End ImputationInvariant.

(** C4 (as amended).  On a well-formed frame, coercion and imputation
    return whenever each of [duration] and [year] that is present holds at
    least one value that is a number after coercion.  Whenever they return,
    the labels are kept and each of the columns [metadata], [duration],
    [year] holds what coercion, the fill with the median of that column's
    own observed values and, for [duration] and [year], the integer cast
    make of it; a column with at least one observed value then has no
    missing value, whatever the other columns hold. *)
Theorem imputation_leaves_no_missing
    (parse_number : string -> option Q) (int_of_str : string -> option Z)
    (df : DataFrame) :
  wf df ->
  ((forall c s, In c ["duration"; "year"] -> get_col c df = Ok s ->
                nonmissing (to_numeric parse_number s) <> []) ->
   exists df', prepare parse_number int_of_str df = Ok df')
  /\ forall df',
       prepare parse_number int_of_str df = Ok df' ->
       columns df' = columns df
       /\ forall c s, In c ["metadata"; "duration"; "year"] -> get_col c df = Ok s ->
            get_col c df' = Ok (imputed parse_number c s)
            /\ (nonmissing (to_numeric parse_number s) <> [] ->
                Forall (fun x => is_num x = true) (imputed parse_number c s)).
Proof.
  intros Hwf. split.
  - intros Hobs.
    destruct (prepare_columns parse_number int_of_str df Hwf Hobs) as (df' & E & _).
    now exists df'.
  - intros df' E.
    destruct (prepare_columns_exact parse_number int_of_str df df' Hwf E) as [C G].
    split; [exact C|]. intros c s Hc Hs. split.
    + rewrite (G c Hc), Hs. reflexivity.
    + apply imputed_all_num.
Qed.

Lemma imputation_leaves_no_missing_witness :
  exists df',
    prepare number_of_digits int_of_digits sample_raw = Ok df'
    /\ columns df' = columns sample_raw
    /\ forall c s, In c ["metadata"; "duration"; "year"] -> get_col c sample_raw = Ok s ->
         get_col c df' = Ok (imputed number_of_digits c s)
         /\ Forall (fun x => is_num x = true) (imputed number_of_digits c s).
Proof.
  assert (Hwf : wf sample_raw).
  { unfold wf. simpl. split; [|repeat constructor].
    repeat (constructor; [simpl; intuition discriminate|]). constructor. }
  destruct (imputation_leaves_no_missing number_of_digits int_of_digits sample_raw Hwf)
    as [Hret Hcols].
  destruct Hret as [df' E].
  { intros c s [<-|[<-|[]]] H; vm_compute in H; injection H as <-;
      vm_compute; discriminate. }
  exists df'. split; [exact E|]. destruct (Hcols df' E) as [C G]. split; [exact C|].
  intros c s Hc Hs. destruct (G c s Hc Hs) as [G1 G2]. split; [exact G1|].
  apply G2. destruct Hc as [<-|[<-|[<-|[]]]]; vm_compute in Hs; injection Hs as <-;
    vm_compute; discriminate.
Defined.

(** On a column whose every cell is missing the median is missing too and
    [fillna] changes nothing: the claim of C4 fails there. *)
Lemma imputation_all_missing_counterexample :
  let df := mkDF ["title"; "metadata"] [[Str "A"; NaN]; [Str "B"; Str "n/a"]] in
  has_col "metadata" df = true
  /\ exists df', prepare number_of_digits int_of_digits df = Ok df'
                 /\ get_col "metadata" df' = Ok [NaN; NaN].
Proof.
  simpl. split; [reflexivity|]. eexists. split; vm_compute; reflexivity.
Qed.

(** A column without observed values does not spoil the others: here
    [metadata] has no observed value and stays missing, while the gap in
    [year] is filled. *)
Example imputation_beside_unobserved_column :
  prepare number_of_digits int_of_digits
    (mkDF ["title"; "metadata"; "year"]
          [[Str "A"; NaN; Num 2000]; [Str "B"; Str "n/a"; NaN]; [Str "C"; NaN; Num 2004]])
  = Ok (mkDF ["title"; "metadata"; "year"]
          [[Str "A"; NaN; Num 2000]; [Str "B"; NaN; Num 2002]; [Str "C"; NaN; Num 2004]]).
Proof. vm_compute. reflexivity. Qed.

(** The same input with [duration] in place of [metadata] stops the script:
    the integer cast meets the missing value. *)
Example imputation_all_missing_duration :
  prepare number_of_digits int_of_digits
    (mkDF ["title"; "duration"] [[Str "A"; NaN]; [Str "B"; Str "n/a"]])
  = Raise IntCastingNaNError.
Proof. vm_compute. reflexivity. Qed.

Example prepare_sample :
  prepare number_of_digits int_of_digits sample_raw
  = Ok (mkDF ["title"; "metadata"; "duration"; "year"]
          [ [Str "A"; Num (15 # 2); Num 90; Num 2000];
            [Str "B"; Num (33 # 4); Num 105; Num 2004];
            [Str "C"; Num 9; Num 121; Num 2002] ]).
Proof. vm_compute. reflexivity. Qed.

(** ** Masks and selections *)

Lemma get_col_cell_at (name : string) (df : DataFrame) :
  get_col name df =
  if has_col name df
  then Ok (map (cell_at name (columns df)) (rows df))
  else Raise (KeyError name).
Proof.
  unfold get_col, has_col, cell_at.
  destruct (index_of name (columns df)) as [i|] eqn:E.
  - assert (H : mem name (columns df) = true) by (apply index_of_mem; eauto).
    rewrite H. reflexivity.
  - apply index_of_not_mem in E. rewrite E. reflexivity.
Qed.

Lemma boolean_index_map (p : list cell -> bool) (df : DataFrame) :
  boolean_index df (map p (rows df)) = select p df.
Proof.
  unfold boolean_index, select. f_equal. rewrite combine_map_self.
  induction (rows df) as [|r t IH]; simpl; [reflexivity|].
  destruct (p r); simpl; now rewrite IH.
Qed.

Lemma boolean_index_map_mk (p : list cell -> bool) (cols : list string)
    (rs : list (list cell)) :
  boolean_index (mkDF cols rs) (map p rs) = mkDF cols (filter p rs).
Proof. apply (boolean_index_map p (mkDF cols rs)). Qed.

Lemma boolean_index_Sublist (df : DataFrame) (mask : list bool) :
  Sublist (rows (boolean_index df mask)) (rows df).
Proof.
  unfold boolean_index. simpl. revert mask.
  induction (rows df) as [|r t IH]; intros mask; simpl.
  - constructor.
  - destruct mask as [|b m]; simpl.
    + apply Sublist_skip. specialize (IH []). destruct t; exact IH.
    + destruct b; simpl; [apply Sublist_keep|apply Sublist_skip]; apply IH.
Qed.

Lemma Sublist_trans {A : Type} (l1 l2 l3 : list A) :
  Sublist l1 l2 -> Sublist l2 l3 -> Sublist l1 l3.
Proof.
  intros H12 H23. revert l1 H12.
  induction H23 as [|x l2 l3 H IH|x l2 l3 H IH]; intros l1 H12.
  - exact H12.
  - apply Sublist_skip. now apply IH.
  - inversion H12; subst.
    + apply Sublist_skip. now apply IH.
    + apply Sublist_keep. now apply IH.
Qed.

Lemma Sublist_refl {A : Type} (l : list A) : Sublist l l.
Proof. induction l; constructor; assumption. Qed.

Lemma Sublist_length {A : Type} (l1 l2 : list A) :
  Sublist l1 l2 -> (List.length l1 <= List.length l2)%nat.
Proof. induction 1; simpl; lia. Qed.

Lemma filter_filter {A : Type} (p q : A -> bool) (l : list A) :
  filter q (filter p l) = filter (fun x => p x && q x) l.
Proof.
  induction l as [|a t IH]; simpl; [reflexivity|].
  destruct (p a); simpl; [destruct (q a)|]; now rewrite IH.
Qed.

Lemma filter_true {A : Type} (l : list A) : filter (fun _ => true) l = l.
Proof. induction l as [|a t IH]; simpl; [reflexivity|now rewrite IH]. Qed.

Lemma filter_length_mono {A : Type} (p q : A -> bool) (l : list A) :
  (forall x, In x l -> p x = true -> q x = true) ->
  (List.length (filter p l) <= List.length (filter q l))%nat.
Proof.
  induction l as [|a t IH]; intros H; simpl; [lia|].
  assert (IH' : (List.length (filter p t) <= List.length (filter q t))%nat).
  { apply IH. intros x Hx. apply H. now right. }
  destruct (p a) eqn:Ep.
  - rewrite (H a (or_introl eq_refl) Ep). simpl. lia.
  - destruct (q a); simpl; lia.
Qed.

(** ** Cell equality *)

Lemma cell_eqb_refl (a : cell) : cell_eqb a a = true.
Proof.
  destruct a; simpl; auto.
  - apply Qeq_bool_iff. reflexivity.
  - apply String.eqb_refl.
Qed.

Lemma cell_eqb_sym (a b : cell) : cell_eqb a b = cell_eqb b a.
Proof.
  destruct a, b; simpl; auto.
  - destruct (Qeq_bool q q0) eqn:E1, (Qeq_bool q0 q) eqn:E2; auto.
    + apply Qeq_bool_iff in E1. symmetry in E1. apply Qeq_bool_iff in E1. congruence.
    + apply Qeq_bool_iff in E2. symmetry in E2. apply Qeq_bool_iff in E2. congruence.
  - apply String.eqb_sym.
Qed.

Lemma cell_eqb_trans (a b c : cell) :
  cell_eqb a b = true -> cell_eqb b c = true -> cell_eqb a c = true.
Proof.
  destruct a, b, c; simpl; auto; try discriminate.
  - intros H1 H2. apply Qeq_bool_iff in H1, H2. apply Qeq_bool_iff.
    now rewrite H1.
  - intros H1 H2. apply String.eqb_eq in H1, H2. subst. apply String.eqb_refl.
Qed.

Lemma isin_unique (c : cell) (s : list cell) :
  existsb (cell_eqb c) (unique s) = existsb (cell_eqb c) s.
Proof.
  induction s as [|x t IH]; simpl; [reflexivity|].
  destruct (cell_eqb c x) eqn:E; simpl; [reflexivity|].
  rewrite <- IH. clear IH. induction (unique t) as [|y u IHu]; simpl; [reflexivity|].
  destruct (cell_eqb y x) eqn:Eyx; simpl.
  - rewrite IHu. destruct (cell_eqb c y) eqn:Ecy; [|reflexivity].
    rewrite (cell_eqb_trans c y x Ecy Eyx) in E. discriminate.
  - now rewrite IHu.
Qed.

Lemma isin_map {A : Type} (f : A -> cell) (l : list A) (values : list cell) :
  isin (map f l) values = map (fun a => existsb (cell_eqb (f a)) values) l.
Proof. unfold isin. now rewrite map_map. Qed.

(** ** The steps of the filter block *)

Lemma between_ok (lo hi : Z) (s : list cell) :
  Forall (fun c => is_str c = false) s -> between lo hi s = Ok (map (in_range lo hi) s).
Proof.
  intros H. unfold between. apply mapM_ok.
  eapply Forall_impl; [|exact H]. intros c Hc. destruct c; simpl in *; auto; discriminate.
Qed.

Lemma range_step_select (name : string) (range : Z * Z)
    (cols : list string) (rs : list (list cell)) :
  (mem name cols = true ->
   Forall (fun r => is_str (cell_at name cols r) = false) rs) ->
  range_step name range (mkDF cols rs)
  = Ok (mkDF cols
          (filter (fun r => if mem name cols
                            then in_range (fst range) (snd range) (cell_at name cols r)
                            else true) rs)).
Proof.
  intros H. unfold range_step. rewrite get_col_cell_at. unfold has_col. simpl.
  destruct (mem name cols) eqn:E.
  - simpl. rewrite between_ok by (apply Forall_map, H; reflexivity).
    simpl. rewrite map_map. rewrite boolean_index_map_mk. reflexivity.
  - now rewrite filter_true.
Qed.

Lemma membership_step_select (label : string) (selected : list cell)
    (df_exploded : DataFrame) (cols : list string) (rs : list (list cell)) :
  mem "title" cols = true ->
  membership_step label selected (Some "title") df_exploded (mkDF cols rs)
  = if nonempty selected && has_col label df_exploded
    then if has_col "title" df_exploded
         then Ok (mkDF cols
                    (filter (fun r => existsb (cell_eqb (cell_at "title" cols r))
                                        (titles_with label selected df_exploded)) rs))
         else Raise (KeyError "title")
    else Ok (mkDF cols rs).
Proof.
  intros Ht. unfold membership_step.
  destruct (nonempty selected && has_col label df_exploded) eqn:E; [|reflexivity].
  apply andb_true_iff in E. destruct E as [_ El].
  rewrite (get_col_cell_at label), El. simpl.
  rewrite isin_map, boolean_index_map.
  rewrite (get_col_cell_at "title" (select _ df_exploded)).
  unfold has_col at 1. simpl columns. fold (has_col "title" df_exploded).
  destruct (has_col "title" df_exploded) eqn:Et; [|reflexivity].
  simpl. rewrite (get_col_cell_at "title"). unfold has_col. simpl. rewrite Ht. simpl.
  rewrite isin_map, boolean_index_map_mk. do 2 f_equal.
  apply filter_ext. intros r. unfold titles_with. apply isin_unique.
Qed.

Lemma has_col_mk (name : string) (cols : list string) (rs : list (list cell)) :
  has_col name (mkDF cols rs) = mem name cols.
Proof. reflexivity. Qed.

Lemma Forall_filter {A : Type} (P : A -> Prop) (p : A -> bool) (l : list A) :
  Forall P l -> Forall P (filter p l).
Proof.
  intros H. apply Forall_forall. intros x Hx. apply filter_In in Hx.
  rewrite Forall_forall in H. now apply H.
Qed.

Lemma numeric_ready_cells (cols : list string) (rs : list (list cell)) (name : string) :
  numeric_ready (mkDF cols rs) -> In name ["year"; "metadata"] ->
  mem name cols = true ->
  Forall (fun r => is_str (cell_at name cols r) = false) rs.
Proof.
  intros H Hn Hm.
  assert (E : get_col name (mkDF cols rs) = Ok (map (cell_at name cols) rs)).
  { rewrite get_col_cell_at. unfold has_col. simpl. now rewrite Hm. }
  specialize (H name _ Hn E). rewrite Forall_map in H. exact H.
Qed.

(** The filter block computes the conjunctive selection, and stops with
    [KeyError] exactly when a membership step applies to an exploded frame
    that has no [title] label. *)
Lemma apply_filters_char (cfg : FilterState) (df_clean df_genre df_cast : DataFrame) :
  numeric_ready df_clean ->
  apply_filters cfg df_clean df_genre df_cast
  = if titles_linked cfg df_clean df_genre df_cast
    then Ok (select (keeps cfg df_clean df_genre df_cast) df_clean)
    else Raise (KeyError "title").
Proof.
  destruct df_clean as [cols rs]. intros Hnum.
  pose proof (numeric_ready_cells cols rs "year" Hnum (or_introl eq_refl)) as Hy.
  pose proof (numeric_ready_cells cols rs "metadata" Hnum (or_intror (or_introl eq_refl))) as Hm.
  unfold apply_filters.
  rewrite range_step_select by exact Hy. rewrite bind_Ok.
  rewrite range_step_select by (intros E; apply Forall_filter, Hm, E). rewrite bind_Ok.
  rewrite filter_filter.
  unfold titles_linked, select, keeps, member_ok, applies, year_ok, metadata_ok.
  rewrite !has_col_mk. simpl columns. simpl rows.
  assert (Fin : forall p q : list cell -> bool,
             (forall r, p r = q r) ->
             Ok (mkDF cols (filter p rs)) = Ok (mkDF cols (filter q rs))).
  { intros p q H. do 2 f_equal. now apply filter_ext. }
  destruct (mem "title" cols) eqn:Et.
  - rewrite membership_step_select by exact Et.
    rewrite !andb_true_r.
    destruct (nonempty (genre_filter cfg) && has_col "genre" df_genre) eqn:Eg.
    + simpl negb. simpl orb.
      destruct (has_col "title" df_genre) eqn:Etg; [|reflexivity].
      rewrite bind_Ok. rewrite membership_step_select by exact Et.
      destruct (nonempty (cast_filter cfg) && has_col "cast" df_cast) eqn:Ec.
      * simpl negb. simpl orb.
        destruct (has_col "title" df_cast) eqn:Etc; [|reflexivity].
        rewrite bind_Ok. simpl andb. rewrite !filter_filter. apply Fin.
        intros r. now rewrite ?andb_assoc.
      * rewrite bind_Ok. simpl. rewrite !filter_filter. apply Fin.
        intros r. now rewrite ?andb_true_r, ?andb_assoc.
    + simpl negb. simpl orb.
      rewrite bind_Ok. rewrite membership_step_select by exact Et.
      destruct (nonempty (cast_filter cfg) && has_col "cast" df_cast) eqn:Ec.
      * simpl negb. simpl orb.
        destruct (has_col "title" df_cast) eqn:Etc; [|reflexivity].
        rewrite bind_Ok. simpl andb. rewrite !filter_filter. apply Fin.
        intros r. now rewrite ?andb_true_r, ?andb_assoc.
      * rewrite bind_Ok. simpl. apply Fin.
        intros r. now rewrite ?andb_true_r, ?andb_assoc.
  - simpl. rewrite !andb_false_r. simpl. apply Fin.
    intros r. now rewrite ?andb_true_r, ?andb_assoc.
Qed.

(** ** The filter block on examples *)

Example filter_by_genre :
  apply_filters (mkFilter (2000, 2001)%Z (0, 100)%Z [Str "Drama"] []) movies genres casts
  = Ok (mkDF ["title"; "year"; "metadata"] [[Str "A"; Num 2000; Num (15 # 2)]]).
Proof. vm_compute. reflexivity. Qed.

Example filter_by_cast_and_year :
  apply_filters (mkFilter (2001, 2001)%Z (0, 100)%Z [] [Str "X"]) movies genres casts
  = Ok (mkDF ["title"; "year"; "metadata"] [[Str "B"; Num 2001; Num (93 # 10)]]).
Proof. vm_compute. reflexivity. Qed.

(** C1.  With a genre selected and a genre frame that has a [genre] label
    but no [title] label, the filter block does not skip the genre step: it
    stops with [KeyError].  (The tabs test [title_col in df_genre.columns]
    before the same lookup; the filter block does not.) *)
Theorem filter_block_untitled_genre_raises :
  apply_filters (mkFilter (2000, 2001)%Z (0, 100)%Z [Str "Drama"] [])
                movies genres_untitled casts
  = Raise (KeyError "title").
Proof. vm_compute. reflexivity. Qed.

(** With every label in place the filter block keeps exactly the rows that
    satisfy the four predicates together. *)
Lemma apply_filters_conjunctive (cfg : FilterState) (df_clean df_genre df_cast : DataFrame) :
  numeric_ready df_clean ->
  titles_linked cfg df_clean df_genre df_cast = true ->
  apply_filters cfg df_clean df_genre df_cast
  = Ok (select (keeps cfg df_clean df_genre df_cast) df_clean).
Proof. intros Hn Ht. rewrite apply_filters_char by exact Hn. now rewrite Ht. Qed.

(** ** Default ranges *)

(** C3.  The default metadata range is cut to integers towards zero, so it
    can end below the largest score: on scores 7.5 and 9.3 the default is
    (7, 9), and filtering with the defaults drops the second movie. *)
Theorem default_meta_range_truncates :
  default_filters movies = Ok (mkFilter (2000, 2001)%Z (7, 9)%Z [] [])
  /\ apply_filters (mkFilter (2000, 2001)%Z (7, 9)%Z [] []) movies genres casts
     = Ok (mkDF ["title"; "year"; "metadata"] [[Str "A"; Num 2000; Num (15 # 2)]]).
Proof. split; vm_compute; reflexivity. Qed.

Example default_ranges_fallback :
  default_year_range genres = Ok (1900, 2025)%Z
  /\ default_meta_range genres = Ok (0, 100)%Z.
Proof. split; reflexivity. Qed.

Ltac wf_concrete :=
  split;
  [ repeat (constructor; [simpl; intuition discriminate|]); constructor
  | repeat constructor ].

Lemma movies_wf : wf movies.
Proof. wf_concrete. Qed.

Lemma genres_wf : wf genres.
Proof. wf_concrete. Qed.

Lemma casts_wf : wf casts.
Proof. wf_concrete. Qed.

(** ** Monotonicity of the filters *)

Lemma in_range_widen (lo hi lo' hi' : Z) (c : cell) :
  (lo' <= lo)%Z -> (hi <= hi')%Z ->
  in_range lo hi c = true -> in_range lo' hi' c = true.
Proof.
  intros Hlo Hhi. destruct c as [|q|s]; simpl; try discriminate.
  rewrite !andb_true_iff, !Qle_bool_iff. intros [H1 H2]. split.
  - eapply Qle_trans; [|exact H1]. now rewrite <- Zle_Qle.
  - eapply Qle_trans; [exact H2|]. now rewrite <- Zle_Qle.
Qed.

Lemma covers_nonempty (wide narrow : list cell) :
  narrow <> [] -> covers wide narrow -> nonempty wide = true /\ nonempty narrow = true.
Proof.
  intros Hne Hc. destruct narrow as [|c t]; [congruence|]. split; [|reflexivity].
  specialize (Hc c). simpl in Hc. rewrite cell_eqb_refl in Hc. specialize (Hc eq_refl).
  destruct wide; [discriminate|reflexivity].
Qed.

Lemma titles_with_covers (label : string) (wide narrow : list cell)
    (df_exploded : DataFrame) (t : cell) :
  covers wide narrow ->
  existsb (cell_eqb t) (titles_with label narrow df_exploded) = true ->
  existsb (cell_eqb t) (titles_with label wide df_exploded) = true.
Proof.
  intros Hc. unfold titles_with. rewrite !existsb_exists.
  intros (x & Hx & E). exists x. split; [|exact E].
  apply in_map_iff in Hx. destruct Hx as (r & <- & Hr).
  apply in_map_iff. exists r. split; [reflexivity|].
  apply filter_In in Hr. destruct Hr as [Hr Hp]. apply filter_In. split; [exact Hr|].
  now apply Hc.
Qed.

Lemma member_ok_covers (label : string) (wide narrow : list cell)
    (df_clean df_exploded : DataFrame) (r : list cell) :
  narrow <> [] -> covers wide narrow ->
  applies label wide df_clean df_exploded = applies label narrow df_clean df_exploded
  /\ (member_ok label narrow df_clean df_exploded r = true ->
      member_ok label wide df_clean df_exploded r = true).
Proof.
  intros Hne Hc. destruct (covers_nonempty _ _ Hne Hc) as [Hw Hn].
  assert (Ha : applies label wide df_clean df_exploded
               = applies label narrow df_clean df_exploded).
  { unfold applies. now rewrite Hw, Hn. }
  split; [exact Ha|]. unfold member_ok. rewrite Ha.
  destruct (applies label narrow df_clean df_exploded); [|reflexivity].
  now apply titles_with_covers.
Qed.

Lemma apply_filters_monotone (n w : FilterState) (df_clean df_genre df_cast : DataFrame) :
  numeric_ready df_clean ->
  titles_linked w df_clean df_genre df_cast = titles_linked n df_clean df_genre df_cast ->
  (forall r, keeps n df_clean df_genre df_cast r = true ->
             keeps w df_clean df_genre df_cast r = true) ->
  forall a, apply_filters n df_clean df_genre df_cast = Ok a ->
  exists b, apply_filters w df_clean df_genre df_cast = Ok b
            /\ (List.length (rows a) <= List.length (rows b))%nat.
Proof.
  intros Hnum Hl Hk a Ha. rewrite apply_filters_char in * by exact Hnum.
  rewrite Hl. destruct (titles_linked n df_clean df_genre df_cast); [|discriminate].
  injection Ha as <-. eexists. split; [reflexivity|]. simpl.
  apply filter_length_mono. intros r _. apply Hk.
Qed.

(** C7 (as amended).  On well-formed frames with a prepared movie frame, take two filter states
    that differ in one dimension only: a range that contains the other's, or
    a genre or cast selection that covers the other's non-empty selection.
    When the narrower state yields a filtered frame, so does the wider one,
    with at least as many rows. *)
Theorem filter_monotone (n w : FilterState) (df_clean df_genre df_cast a : DataFrame) :
  wf df_clean -> wf df_genre -> wf df_cast ->
  numeric_ready df_clean ->
  widens n w ->
  apply_filters n df_clean df_genre df_cast = Ok a ->
  exists b, apply_filters w df_clean df_genre df_cast = Ok b
            /\ (List.length (rows a) <= List.length (rows b))%nat.
Proof.
  intros _ _ _ Hnum Hw. apply apply_filters_monotone; [exact Hnum| |].
  - destruct Hw as [n lo hi H1 H2|n lo hi H1 H2|n gs H1 H2|n cs H1 H2];
      try reflexivity; unfold titles_linked; simpl.
    + now rewrite (proj1 (member_ok_covers "genre" gs (genre_filter n)
                            df_clean df_genre [] H1 H2)).
    + now rewrite (proj1 (member_ok_covers "cast" cs (cast_filter n)
                            df_clean df_cast [] H1 H2)).
  - intros r.
    destruct Hw as [n lo hi H1 H2|n lo hi H1 H2|n gs H1 H2|n cs H1 H2];
      unfold keeps, year_ok, metadata_ok; simpl;
      rewrite !andb_true_iff; intros [[[Hy Hm] Hg] Hc]; repeat split; auto.
    + destruct (has_col "year" df_clean); [|reflexivity].
      now apply (in_range_widen (fst (year_range n)) (snd (year_range n))).
    + destruct (has_col "metadata" df_clean); [|reflexivity].
      now apply (in_range_widen (fst (meta_range n)) (snd (meta_range n))).
    + now apply (member_ok_covers "genre" gs (genre_filter n) df_clean df_genre r H1 H2).
    + now apply (member_ok_covers "cast" cs (cast_filter n) df_clean df_cast r H1 H2).
Qed.

Lemma movies_numeric_ready : numeric_ready movies.
Proof.
  intros name s [<-|[<-|[]]] H; vm_compute in H; injection H as <-;
    repeat constructor.
Qed.

Lemma filter_monotone_witness :
  exists b,
    apply_filters (mkFilter (2000, 2001)%Z (0, 100)%Z [Str "Drama"; Str "Comedy"] [])
                  movies genres casts = Ok b
    /\ (List.length (rows (mkDF ["title"; "year"; "metadata"]
                             [[Str "A"; Num 2000; Num (15 # 2)]]))
        <= List.length (rows b))%nat.
Proof.
  apply (filter_monotone
           (mkFilter (2000, 2001)%Z (0, 100)%Z [Str "Drama"] [])
           (mkFilter (2000, 2001)%Z (0, 100)%Z [Str "Drama"; Str "Comedy"] [])
           movies genres casts).
  - exact movies_wf.
  - exact genres_wf.
  - exact casts_wf.
  - exact movies_numeric_ready.
  - apply (widen_genres (mkFilter (2000, 2001)%Z (0, 100)%Z [Str "Drama"] [])
             [Str "Drama"; Str "Comedy"]).
    + simpl. discriminate.
    + intros c H. simpl in *. rewrite orb_false_r in H. now rewrite H.
  - vm_compute. reflexivity.
Defined.

(** An empty selection means no restriction, so selecting a genre where
    none was selected is a superset that shrinks the result: the claim of
    C7 fails for the set filters. *)
Lemma filter_monotone_empty_set_counterexample :
  let narrow := mkFilter (2000, 2001)%Z (0, 100)%Z [] [] in
  let wide := mkFilter (2000, 2001)%Z (0, 100)%Z [Str "Drama"] [] in
  incl (genre_filter narrow) (genre_filter wide)
  /\ exists a b,
       apply_filters narrow movies genres casts = Ok a
       /\ apply_filters wide movies genres casts = Ok b
       /\ (List.length (rows b) < List.length (rows a))%nat.
Proof.
  simpl. split; [intros x []|].
  do 2 eexists. split; [vm_compute; reflexivity|].
  split; [vm_compute; reflexivity|]. simpl. lia.
Qed.

(** ** The filtered frame inside the base frame *)

Lemma Sublist_count_occ (l1 l2 : list (list cell)) (r : list cell) :
  Sublist l1 l2 -> (count_occ row_eq_dec l1 r <= count_occ row_eq_dec l2 r)%nat.
Proof.
  induction 1 as [|x l1 l2 H IH|x l1 l2 H IH]; simpl.
  - lia.
  - destruct (row_eq_dec x r); lia.
  - destruct (row_eq_dec x r); lia.
Qed.

Lemma range_step_sub (name : string) (range : Z * Z) (df df' : DataFrame) :
  range_step name range df = Ok df' ->
  columns df' = columns df /\ Sublist (rows df') (rows df).
Proof.
  unfold range_step. destruct (has_col name df).
  - destruct (get_col name df) as [s|]; simpl; [|discriminate].
    destruct (between (fst range) (snd range) s) as [m|]; simpl; [|discriminate].
    intros H. injection H as <-. split; [reflexivity|apply boolean_index_Sublist].
  - intros H. injection H as <-. split; [reflexivity|apply Sublist_refl].
Qed.

Lemma membership_step_sub (label : string) (selected : list cell) (t : option string)
    (df_exploded df df' : DataFrame) :
  membership_step label selected t df_exploded df = Ok df' ->
  columns df' = columns df /\ Sublist (rows df') (rows df).
Proof.
  unfold membership_step. destruct t as [title|].
  - destruct (nonempty selected && has_col label df_exploded).
    + destruct (get_col label df_exploded) as [g|]; simpl; [|discriminate].
      destruct (get_col title (boolean_index df_exploded (isin g selected))) as [ts|];
        simpl; [|discriminate].
      destruct (get_col title df) as [ft|]; simpl; [|discriminate].
      intros H. injection H as <-. split; [reflexivity|apply boolean_index_Sublist].
    + intros H. injection H as <-. split; [reflexivity|apply Sublist_refl].
  - intros H. injection H as <-. split; [reflexivity|apply Sublist_refl].
Qed.

Lemma apply_filters_sub (cfg : FilterState) (df_clean df_genre df_cast out : DataFrame) :
  apply_filters cfg df_clean df_genre df_cast = Ok out ->
  columns out = columns df_clean /\ Sublist (rows out) (rows df_clean).
Proof.
  unfold apply_filters.
  destruct (range_step "year" (year_range cfg) df_clean) as [d1|] eqn:E1;
    simpl; [|discriminate].
  destruct (range_step "metadata" (meta_range cfg) d1) as [d2|] eqn:E2;
    simpl; [|discriminate].
  destruct (membership_step "genre" (genre_filter cfg) _ df_genre d2) as [d3|] eqn:E3;
    simpl; [|discriminate].
  destruct (membership_step "cast" (cast_filter cfg) _ df_cast d3) as [d4|] eqn:E4;
    simpl; [|discriminate].
  intros H. injection H as <-.
  apply range_step_sub in E1, E2. apply membership_step_sub in E3, E4.
  destruct E1 as [C1 S1], E2 as [C2 S2], E3 as [C3 S3], E4 as [C4 S4].
  split; [congruence|].
  eapply Sublist_trans; [exact S4|]. eapply Sublist_trans; [exact S3|].
  eapply Sublist_trans; [exact S2|exact S1].
Qed.

(** C10.  On well-formed frames, whenever the filter block yields a filtered frame, the three
    base frames are what they were, the filtered frame has the labels of
    the movie frame, and its rows are rows of the movie frame, unchanged,
    in the same relative order; in particular no row occurs more often
    than in the movie frame. *)
Theorem filtered_is_ordered_subset (cfg : FilterState) (e e' : Env) :
  wf (df_clean e) -> wf (df_genre e) -> wf (df_cast e) ->
  filter_block cfg e = Ok e' ->
  df_clean e' = df_clean e /\ df_genre e' = df_genre e /\ df_cast e' = df_cast e
  /\ columns (df_filtered e') = columns (df_clean e)
  /\ Sublist (rows (df_filtered e')) (rows (df_clean e))
  /\ forall r, (count_occ row_eq_dec (rows (df_filtered e')) r
                <= count_occ row_eq_dec (rows (df_clean e)) r)%nat.
Proof.
  intros _ _ _. unfold filter_block.
  destruct (apply_filters cfg (df_clean e) (df_genre e) (df_cast e)) as [f|] eqn:E;
    simpl; [|discriminate].
  intros H. injection H as <-. simpl.
  destruct (apply_filters_sub _ _ _ _ _ E) as [Hc Hs].
  repeat split; auto. intros r. now apply Sublist_count_occ.
Qed.

Lemma filtered_is_ordered_subset_witness :
  Sublist [[Str "A"; Num 2000; Num (15 # 2)]] (rows movies).
Proof.
  exact (proj1 (proj2 (proj2 (proj2 (proj2
    (filtered_is_ordered_subset
       (mkFilter (2000, 2001)%Z (0, 100)%Z [Str "Drama"; Str "Drama"] [Str "X"; Str "Y"])
       (start movies casts genres)
       (set_df_filtered
          (mkDF ["title"; "year"; "metadata"] [[Str "A"; Num 2000; Num (15 # 2)]])
          (start movies casts genres))
       movies_wf genres_wf casts_wf eq_refl)))))).
Defined.

(** ** The join resolver on examples *)

Example genre_trend_drops_unmatched :
  genre_tab_trend "title" genres movies
  = Ok (mkDF ["title"; "genre"; "year"]
          [ [Str "A"; Str "Drama"; Num 2000]; [Str "B"; Str "Comedy"; Num 2001] ])
  /\ guarded_trend "title" genres movies = genre_tab_trend "title" genres movies
  /\ join_resolver genres movies
     = mkDF ["title"; "genre"; "year"]
         [ [Str "A"; Str "Drama"; Num 2000]; [Str "B"; Str "Comedy"; Num 2001] ].
Proof. repeat split; vm_compute; reflexivity. Qed.

Example cast_trend_coalesces :
  guarded_trend "title" casts_with_year movies
  = Ok (mkDF ["title"; "cast"; "year"]
          [ [Str "A"; Str "X"; Num 2000]; [Str "C"; Str "Y"; Num 1987] ])
  /\ join_resolver casts_with_year movies
     = mkDF ["title"; "cast"; "year"]
         [ [Str "A"; Str "X"; Num 2000]; [Str "C"; Str "Y"; Num 1987] ].
Proof. repeat split; vm_compute; reflexivity. Qed.

(** ** Lists, labels and rows *)

Lemma filter_map_commute {A B : Type} (p : B -> bool) (f : A -> B) (l : list A) :
  filter p (map f l) = map f (filter (fun x => p (f x)) l).
Proof.
  induction l as [|a t IH]; simpl; [reflexivity|].
  destruct (p (f a)); simpl; now rewrite IH.
Qed.

Lemma combine_map2 {A B C : Type} (f : A -> B) (g : A -> C) (l : list A) :
  combine (map f l) (map g l) = map (fun x => (f x, g x)) l.
Proof. induction l as [|a t IH]; simpl; [reflexivity|now rewrite IH]. Qed.

Lemma flat_map_map {A B C : Type} (f : A -> B) (g : B -> list C) (l : list A) :
  flat_map g (map f l) = flat_map (fun a => g (f a)) l.
Proof. induction l as [|a t IH]; simpl; [reflexivity|now rewrite IH]. Qed.

Lemma map_flat_map {A B C : Type} (f : B -> C) (g : A -> list B) (l : list A) :
  map f (flat_map g l) = flat_map (fun a => map f (g a)) l.
Proof.
  induction l as [|a t IH]; simpl; [reflexivity|]. now rewrite map_app, IH.
Qed.

Lemma filter_flat_map {A B : Type} (p : B -> bool) (g : A -> list B) (l : list A) :
  filter p (flat_map g l) = flat_map (fun a => filter p (g a)) l.
Proof.
  induction l as [|a t IH]; simpl; [reflexivity|]. now rewrite filter_app, IH.
Qed.

Lemma map_filter_flat_map {A B : Type} (p : A -> bool) (f : A -> B) (l : list A) :
  map f (filter p l) = flat_map (fun a => if p a then [f a] else []) l.
Proof.
  induction l as [|a t IH]; simpl; [reflexivity|].
  destruct (p a); simpl; now rewrite IH.
Qed.

Lemma mem_app (name : string) (a b : list string) :
  mem name (a ++ b) = mem name a || mem name b.
Proof. apply existsb_app. Qed.

Lemma index_of_app_present (name : string) (cols more : list string) (i : nat) :
  index_of name cols = Some i -> index_of name (cols ++ more) = Some i.
Proof.
  revert i. induction cols as [|c t IH]; intros i; simpl; [discriminate|].
  destruct (String.eqb c name); [auto|].
  destruct (index_of name t) as [j|]; simpl; [|discriminate].
  intros H. injection H as <-. now rewrite (IH j eq_refl).
Qed.

Lemma index_of_app_absent (name : string) (cols more : list string) :
  mem name cols = false ->
  index_of name (cols ++ name :: more) = Some (List.length cols).
Proof.
  induction cols as [|c t IH]; simpl.
  - intros _. now rewrite String.eqb_refl.
  - rewrite (String.eqb_sym name c). destruct (String.eqb c name); simpl; [discriminate|].
    intros H. now rewrite (IH H).
Qed.

Lemma index_of_rename (old new : string) (cols : list string) :
  mem new cols = false ->
  index_of new (rename_label old new cols) = index_of old cols.
Proof.
  induction cols as [|c t IH]; simpl; [reflexivity|].
  rewrite (String.eqb_sym new c). destruct (String.eqb c new) eqn:En; simpl; [discriminate|].
  intros H. destruct (String.eqb c old) eqn:Eo.
  - now rewrite String.eqb_refl.
  - rewrite En, (IH H). reflexivity.
Qed.

Lemma mem_rename_new (old new : string) (cols : list string) :
  mem new (rename_label old new cols) = mem old cols || mem new cols.
Proof.
  induction cols as [|c t IH]; simpl; [reflexivity|]. rewrite IH.
  destruct (String.eqb c old) eqn:Eo.
  - apply String.eqb_eq in Eo. subst c. rewrite !String.eqb_refl. reflexivity.
  - rewrite (String.eqb_sym old c), Eo. simpl.
    destruct (String.eqb new c); simpl; [now rewrite orb_true_r|reflexivity].
Qed.

Lemma nth_app_at (l rest : list cell) (y : cell) (n : nat) :
  List.length l = n -> nth n (l ++ y :: rest) NaN = y.
Proof.
  intros <-. rewrite app_nth2 by lia. now rewrite Nat.sub_diag.
Qed.

Lemma nth_app_before (l rest : list cell) (i : nat) :
  (i < List.length l)%nat -> nth i (l ++ rest) NaN = nth i l NaN.
Proof. intros H. now apply app_nth1. Qed.

Lemma cells_where_app (k : string -> bool) (cols cs2 : list string) (l l2 : list cell) :
  List.length l = List.length cols ->
  cells_where k (cols ++ cs2) (l ++ l2) = cells_where k cols l ++ cells_where k cs2 l2.
Proof.
  revert l. induction cols as [|c t IH]; intros [|v l] H; simpl in *; try lia.
  - reflexivity.
  - destruct (k c); simpl; rewrite IH by lia; reflexivity.
Qed.

Lemma cells_where_rename (k : string -> bool) (ren : string -> string)
    (cols : list string) (l : list cell) :
  cells_where k (map ren cols) l = cells_where (fun c => k (ren c)) cols l.
Proof.
  revert l. induction cols as [|c t IH]; intros [|v l]; simpl; try reflexivity.
  now rewrite IH.
Qed.

Lemma cells_where_ext (k k' : string -> bool) (cols : list string) (l : list cell) :
  (forall c, In c cols -> k c = k' c) -> cells_where k cols l = cells_where k' cols l.
Proof.
  revert l. induction cols as [|c t IH]; intros [|v l] H; simpl; try reflexivity.
  rewrite (H c (or_introl eq_refl)), IH; [reflexivity|].
  intros d Hd. apply H. now right.
Qed.

Lemma cells_where_all (k : string -> bool) (cols : list string) (l : list cell) :
  (forall c, In c cols -> k c = true) -> List.length l = List.length cols ->
  cells_where k cols l = l.
Proof.
  revert l. induction cols as [|c t IH]; intros [|v l] H Hl; simpl in *; try lia;
    try reflexivity.
  rewrite (H c (or_introl eq_refl)), IH; auto.
Qed.

Lemma cells_where_length (k : string -> bool) (cols : list string) (l : list cell) :
  List.length l = List.length cols ->
  List.length (cells_where k cols l) = List.length (filter k cols).
Proof.
  revert l. induction cols as [|c t IH]; intros [|v l] Hl; simpl in *; try lia.
  destruct (k c); simpl; rewrite IH by lia; reflexivity.
Qed.

Lemma filter_ext_in' {A : Type} (p q : A -> bool) (l : list A) :
  (forall x, In x l -> p x = q x) -> filter p l = filter q l.
Proof.
  induction l as [|a t IH]; intros H; simpl; [reflexivity|].
  rewrite (H a (or_introl eq_refl)), IH; [reflexivity|].
  intros x Hx. apply H. now right.
Qed.

Lemma join_items_in (df_exploded df_clean : DataFrame) (it : list cell * cell) :
  In it (join_items df_exploded df_clean) -> In (fst it) (rows df_exploded).
Proof.
  unfold join_items. rewrite in_flat_map. intros (l & Hl & H).
  apply in_map_iff in H. destruct H as (y & <- & _). exact Hl.
Qed.

(** ** The left join *)

Lemma merge_year_items (df_exploded df_clean : DataFrame) :
  has_col "title" df_exploded = true ->
  has_col "title" df_clean = true -> has_col "year" df_clean = true ->
  has_col "year_x" df_exploded = false -> has_col "year_y" df_exploded = false ->
  merge_year "title" df_exploded df_clean
  = Ok (mkDF (merged_columns df_exploded)
             (map (fun it => fst it ++ [snd it]) (join_items df_exploded df_clean))).
Proof.
  intros Hte Htc Hyc Hx Hy. unfold merge_year.
  rewrite (get_col_cell_at "title" df_clean), Htc, bind_Ok.
  rewrite (get_col_cell_at "year" df_clean), Hyc, bind_Ok.
  rewrite (get_col_cell_at "title" df_exploded), Hte, bind_Ok.
  rewrite Hx, Hy, andb_false_r. unfold merged_columns. do 2 f_equal.
  rewrite combine_map_self, combine_map2, flat_map_map.
  unfold join_items. rewrite map_flat_map. apply flat_map_ext. intros l. simpl.
  unfold movie_years. rewrite filter_map_commute. simpl.
  destruct (filter _ (rows df_clean)) as [|m ms]; simpl; [reflexivity|].
  rewrite !map_map. reflexivity.
Qed.

(** ** Resolution of the year columns *)

Lemma flat_map_ext_in {A B : Type} (f g : A -> list B) (l : list A) :
  (forall a, In a l -> f a = g a) -> flat_map f l = flat_map g l.
Proof.
  induction l as [|a t IH]; intros H; simpl; [reflexivity|].
  rewrite (H a (or_introl eq_refl)), IH; [reflexivity|].
  intros x Hx. apply H. now right.
Qed.

Lemma resolver_rows_form (df_exploded df_clean : DataFrame)
    (q : list cell * cell -> bool) (h : list cell * cell -> list cell) :
  (forall l y, In l (rows df_exploded) ->
     (if q (l, y) then [h (l, y)] else [])
     = (if is_missing (coalesce y (cell_at "year" (columns df_exploded) l)) then []
        else [cells_where not_year (columns df_exploded) l
              ++ [coalesce y (cell_at "year" (columns df_exploded) l)]])) ->
  map h (filter q (join_items df_exploded df_clean))
  = rows (join_resolver df_exploded df_clean).
Proof.
  intros H. unfold join_items, join_resolver. simpl.
  rewrite filter_flat_map, map_flat_map. apply flat_map_ext_in. intros l Hl.
  rewrite filter_map_commute, map_map, map_filter_flat_map.
  apply flat_map_ext. intros y. rewrite (H l y Hl). unfold coalesce.
  destruct y; simpl; try reflexivity.
  destruct (cell_at "year" (columns df_exploded) l); reflexivity.
Qed.

Lemma dropna_items (cols : list string) (A : Type) (h : A -> list cell) (items : list A) :
  mem "year" cols = true ->
  dropna "year" (mkDF cols (map h items))
  = Ok (mkDF cols
          (map h (filter (fun it => negb (is_missing (cell_at "year" cols (h it)))) items))).
Proof.
  intros Hm. unfold dropna. rewrite get_col_cell_at, has_col_mk, Hm, bind_Ok.
  simpl columns. simpl rows.
  rewrite (map_map (cell_at "year" cols) (fun c => negb (is_missing c))).
  rewrite boolean_index_map_mk, filter_map_commute. reflexivity.
Qed.

Lemma not_year_all (cols : list string) :
  mem "year" cols = false -> forall c, In c cols -> not_year c = true.
Proof.
  intros H c Hc. unfold not_year. destruct (String.eqb c "year") eqn:E; [|reflexivity].
  apply String.eqb_eq in E. subst c. apply mem_In in Hc. congruence.
Qed.

Lemma filter_all {A : Type} (p : A -> bool) (l : list A) :
  (forall x, In x l -> p x = true) -> filter p l = l.
Proof.
  induction l as [|a t IH]; intros H; simpl; [reflexivity|].
  rewrite (H a (or_introl eq_refl)), IH; [reflexivity|].
  intros x Hx. apply H. now right.
Qed.

Lemma mem_filter_not_year (cols : list string) : mem "year" (filter not_year cols) = false.
Proof.
  destruct (mem "year" (filter not_year cols)) eqn:E; [|reflexivity].
  apply mem_In, filter_In in E. destruct E as [_ E]. discriminate.
Qed.

(** Without a [year] label on the exploded side nothing collides. *)
Lemma resolve_without_collision (df_exploded df_clean : DataFrame) :
  wf df_exploded ->
  has_col "year" df_exploded = false ->
  has_col "year_x" df_exploded = false -> has_col "year_y" df_exploded = false ->
  let m := mkDF (merged_columns df_exploded)
                (map (fun it => fst it ++ [snd it]) (join_items df_exploded df_clean)) in
  exists u, unify_year m = Ok u /\ has_col "year" u = true
            /\ dropna "year" u = Ok (join_resolver df_exploded df_clean).
Proof.
  intros [_ Hlen] Hyr Hx Hy m. unfold has_col in Hyr, Hx, Hy.
  assert (Hm : m = mkDF (columns df_exploded ++ ["year"])
                        (map (fun it => fst it ++ [snd it])
                             (join_items df_exploded df_clean))).
  { unfold m, merged_columns. unfold has_col. now rewrite Hyr. }
  exists m. rewrite Hm. repeat split.
  - unfold unify_year. rewrite !has_col_mk, !mem_app, Hx, Hy. reflexivity.
  - rewrite has_col_mk, mem_app. simpl. apply orb_true_r.
  - rewrite dropna_items by (rewrite mem_app; simpl; apply orb_true_r).
    unfold join_resolver at 1. do 2 f_equal.
    + rewrite (filter_all not_year); [reflexivity|]. now apply not_year_all.
    + apply resolver_rows_form. intros l y Hl.
      rewrite Forall_forall in Hlen. specialize (Hlen l Hl).
      unfold cell_at at 1. rewrite index_of_app_absent by exact Hyr. simpl fst. simpl snd.
      rewrite nth_app_at by exact Hlen.
      rewrite (cells_where_all not_year _ _ (not_year_all _ Hyr) Hlen).
      unfold cell_at. apply index_of_not_mem in Hyr. rewrite Hyr.
      destruct y; reflexivity.
Qed.

Lemma keep_after_rename (cols : list string) :
  mem "year_x" cols = false -> mem "year_y" cols = false ->
  forall c, In c cols ->
    negb (mem (if String.eqb c "year" then "year_x" else c) ["year_x"; "year_y"])
    = not_year c.
Proof.
  intros Hx Hy c Hc. unfold not_year. destruct (String.eqb c "year") eqn:E; [reflexivity|].
  simpl. rewrite orb_false_r.
  destruct (String.eqb c "year_x") eqn:E1.
  { apply String.eqb_eq in E1. subst c. apply mem_In in Hc. congruence. }
  destruct (String.eqb c "year_y") eqn:E2.
  { apply String.eqb_eq in E2. subst c. apply mem_In in Hc. congruence. }
  reflexivity.
Qed.

Lemma filter_renamed_labels (cols : list string) :
  mem "year_x" cols = false -> mem "year_y" cols = false ->
  filter (fun c => negb (mem c ["year_x"; "year_y"])) (rename_label "year" "year_x" cols)
  = filter not_year cols.
Proof.
  intros Hx Hy. unfold rename_label. rewrite filter_map_commute.
  rewrite (filter_ext_in' _ not_year) by (apply keep_after_rename; assumption).
  rewrite <- (map_id (filter not_year cols)) at 2. apply map_ext_in.
  intros c Hc. apply filter_In in Hc. destruct Hc as [_ Hc]. unfold not_year in Hc.
  destruct (String.eqb c "year"); [discriminate|reflexivity].
Qed.

(** With a [year] label on the exploded side the two candidates are
    coalesced and dropped. *)
Lemma resolve_with_collision (df_exploded df_clean : DataFrame) :
  wf df_exploded ->
  has_col "year" df_exploded = true ->
  has_col "year_x" df_exploded = false -> has_col "year_y" df_exploded = false ->
  let m := mkDF (merged_columns df_exploded)
                (map (fun it => fst it ++ [snd it]) (join_items df_exploded df_clean)) in
  exists u, unify_year m = Ok u /\ has_col "year" u = true
            /\ dropna "year" u = Ok (join_resolver df_exploded df_clean).
Proof.
  intros [_ Hlen] Hyr Hx Hy m. unfold has_col in Hyr, Hx, Hy.
  set (cols := columns df_exploded) in *.
  set (rc := rename_label "year" "year_x" cols).
  set (items := join_items df_exploded df_clean).
  assert (Hm : m = mkDF (rc ++ ["year_y"]) (map (fun it => fst it ++ [snd it]) items)).
  { unfold m, merged_columns. unfold has_col. fold cols. now rewrite Hyr. }
  assert (Hrx : mem "year_x" rc = true).
  { unfold rc. rewrite mem_rename_new, Hyr. reflexivity. }
  assert (Hry : mem "year_y" rc = false).
  { unfold rc. rewrite mem_rename_other by discriminate. exact Hy. }
  assert (Hrr : mem "year" rc = false).
  { unfold rc. apply mem_rename_old. discriminate. }
  destruct (proj1 (index_of_mem _ _) Hyr) as [i Hi].
  assert (Hix : index_of "year_x" rc = Some i).
  { unfold rc. rewrite index_of_rename by exact Hx. exact Hi. }
  assert (Hrlen : List.length rc = List.length cols).
  { unfold rc, rename_label. apply length_map. }
  assert (Hmx : has_col "year_x" (mkDF (rc ++ ["year_y"])
                  (map (fun it => fst it ++ [snd it]) items)) = true).
  { rewrite has_col_mk, mem_app, Hrx. reflexivity. }
  assert (Hmy : has_col "year_y" (mkDF (rc ++ ["year_y"])
                  (map (fun it => fst it ++ [snd it]) items)) = true).
  { rewrite has_col_mk, mem_app, Hry. reflexivity. }
  rewrite Hm.
  eexists. split; [|split].
  - unfold unify_year. rewrite Hmx, Hmy. simpl andb. cbv iota.
    rewrite (get_col_cell_at "year_y"), Hmy, bind_Ok.
    rewrite (get_col_cell_at "year_x"), Hmx, bind_Ok.
    simpl columns. simpl rows.
    unfold fillna_from. rewrite combine_map2, map_map.
    unfold set_col. simpl columns. simpl rows.
    assert (Hn : index_of "year" (rc ++ ["year_y"]) = None).
    { apply index_of_not_mem. rewrite mem_app, Hrr. reflexivity. }
    rewrite Hn. rewrite combine_map_self, !map_map. simpl fst. simpl snd.
    unfold drop_columns. simpl columns. simpl rows. rewrite map_map.
    reflexivity.
  - rewrite has_col_mk. rewrite <- app_assoc, filter_app, mem_app. simpl.
    apply orb_true_r.
  - assert (Hcols : filter (fun c => negb (mem c ["year_x"; "year_y"]))
                      ((rc ++ ["year_y"]) ++ ["year"])
                    = filter not_year cols ++ ["year"]).
    { rewrite <- app_assoc, filter_app. unfold rc.
      rewrite filter_renamed_labels by assumption. reflexivity. }
    rewrite Hcols.
    rewrite dropna_items by (rewrite mem_app; simpl; apply orb_true_r).
    unfold join_resolver at 1. fold cols. do 2 f_equal.
    apply resolver_rows_form. fold cols. intros l y Hl.
    rewrite Forall_forall in Hlen. specialize (Hlen l Hl).
    simpl fst. simpl snd.
    assert (Hcy : cell_at "year_y" (rc ++ ["year_y"]) (l ++ [y]) = y).
    { unfold cell_at. rewrite index_of_app_absent by exact Hry.
      apply nth_app_at. lia. }
    assert (Hcx : cell_at "year_x" (rc ++ ["year_y"]) (l ++ [y])
                  = cell_at "year" cols l).
    { unfold cell_at. rewrite (index_of_app_present _ _ _ _ Hix), Hi.
      apply nth_app_before. rewrite Hlen. eapply index_of_lt, Hi. }
    rewrite Hcy, Hcx.
    set (v := coalesce y (cell_at "year" cols l)).
    assert (Hrow : cells_where (fun c => negb (mem c ["year_x"; "year_y"]))
                     ((rc ++ ["year_y"]) ++ ["year"]) ((l ++ [y]) ++ [v])
                   = cells_where not_year cols l ++ [v]).
    { rewrite <- !app_assoc. rewrite cells_where_app by lia. simpl app at 3.
      f_equal. unfold rc, rename_label. rewrite cells_where_rename.
      apply cells_where_ext. apply keep_after_rename; assumption. }
    rewrite Hrow.
    assert (Hv : cell_at "year" (filter not_year cols ++ ["year"])
                   (cells_where not_year cols l ++ [v]) = v).
    { unfold cell_at. rewrite index_of_app_absent by apply mem_filter_not_year.
      apply nth_app_at. now apply cells_where_length. }
    rewrite Hv. destruct (is_missing v); reflexivity.
Qed.






(** ** The CSV writer read back *)



















(** ** The script between the two exports *)

Ltac step_tab :=
  match goal with
  | |- bind ?m _ = Ok _ -> _ =>
      destruct m eqn:?; [rewrite bind_Ok; cbv beta zeta | simpl; discriminate]
  | |- (if ?c then _ else _) = Ok _ -> _ => destruct c eqn:?
  | |- match ?x with _ => _ end = Ok _ -> _ => destruct x eqn:?
  end.










Example dashboard_run :
  option_map downloads
    (match dashboard fraction_text
             (mkFilter (2000, 2000)%Z (0, 100)%Z [] []) movies casts genres with
     | Ok e => Some e
     | Raise _ => None
     end)
  = Some [ String.concat "" ["title,year,metadata"; String (ascii_of_nat 10) "";
                             "A,2000,15/2"; String (ascii_of_nat 10) ""];
           String.concat "" ["title,year,metadata"; String (ascii_of_nat 10) "";
                             "A,2000,15/2"; String (ascii_of_nat 10) ""] ].
Proof. vm_compute. reflexivity. Qed.

(** A title with a comma and a quotation mark is quoted by the writer and
    read back unchanged. *)
Example to_csv_quotes :
  to_csv fraction_text
    (mkDF ["title"; "year"]
          [[Str (String.concat "" ["Monsters, "; String (ascii_of_nat 34) "Inc";
                                   String (ascii_of_nat 34) ""]); Num 2001];
           [NaN; NaN]])
  = String.concat ""
      ["title,year"; String (ascii_of_nat 10) "";
       String (ascii_of_nat 34) "Monsters, ";
       String (ascii_of_nat 34) (String (ascii_of_nat 34) "Inc");
       String (ascii_of_nat 34) (String (ascii_of_nat 34) (String (ascii_of_nat 34) ""));
       ",2001"; String (ascii_of_nat 10) "";
       ","; String (ascii_of_nat 10) ""].
Proof. vm_compute. reflexivity. Qed.

(** ** The trend view of the Genre tab *)

Lemma tab_genre_trend (e e' : Env) :
  tab_genre e = Ok e' ->
  if genre_trend_applies e
  then exists frame p,
         genre_tab_trend "title" (df_genre e) (df_clean e) = Ok frame
         /\ pivot_count "year" "genre" "title" frame = Ok p
         /\ df_year_genre e' = Some frame /\ pivot e' = Some p
  else df_year_genre e' = df_year_genre e /\ pivot e' = pivot e.
Proof.
  unfold tab_genre, genre_trend_applies, title_col.
  destruct (has_col "title" (df_clean e)) eqn:Et; simpl andb;
    [|intros H; injection H as <-; split; reflexivity].
  destruct (has_col "genre" (df_genre e)); simpl andb;
    [|intros H; injection H as <-; split; reflexivity].
  destruct (has_col "title" (df_genre e)); simpl andb;
    [|intros H; injection H as <-; split; reflexivity].
  destruct (has_col "title" (df_filtered e)); simpl andb;
    [|intros H; injection H as <-; split; reflexivity].
  do 3 step_tab. simpl df_clean. simpl df_genre.
  destruct (has_col "year" (df_clean e));
    [|intros H; injection H as <-; split; reflexivity].
  rewrite Et. do 3 step_tab. intros H. injection H as <-.
  do 2 eexists. repeat split; eassumption.
Qed.

(** X21.  In the trend view of the Genre tab the join computed on the
    filtered genre frame is overwritten by the join computed on the full
    genre frame: the frame that feeds the pivot is the resolved join of
    [df_genre] itself, and two interactions on the same base frames that
    both return end with the same frame and the same pivot whatever their
    filter states.  (This is the defect shown under C9, for every
    input.) *)
Theorem genre_pivot_ignores_filters (cfg1 cfg2 : FilterState)
    (clean cast genre : DataFrame) (e1 e2 : Env) :
  (e <- filter_block cfg1 (start clean cast genre) ;; tab_genre e) = Ok e1 ->
  (e <- filter_block cfg2 (start clean cast genre) ;; tab_genre e) = Ok e2 ->
  df_year_genre e1 = df_year_genre e2 /\ pivot e1 = pivot e2
  /\ forall frame, df_year_genre e1 = Some frame ->
                   genre_tab_trend "title" genre clean = Ok frame.
Proof.
  unfold filter_block. simpl df_clean. simpl df_genre. simpl df_cast.
  destruct (apply_filters cfg1 clean genre cast) as [f1|] eqn:F1; [|simpl; discriminate].
  destruct (apply_filters cfg2 clean genre cast) as [f2|] eqn:F2; [|simpl; discriminate].
  rewrite !bind_Ok. intros H1 H2.
  apply tab_genre_trend in H1, H2. unfold genre_trend_applies in H1, H2.
  simpl in H1, H2.
  apply apply_filters_sub in F1, F2. destruct F1 as [C1 _], F2 as [C2 _].
  unfold has_col in H1, H2. rewrite C1 in H1. rewrite C2 in H2.
  destruct (mem "title" (columns clean) && mem "genre" (columns genre)
            && mem "title" (columns genre) && mem "title" (columns clean)
            && mem "year" (columns clean)).
  - destruct H1 as (fr1 & p1 & T1 & P1 & Y1 & V1).
    destruct H2 as (fr2 & p2 & T2 & P2 & Y2 & V2).
    assert (fr1 = fr2) by congruence. subst fr2.
    assert (p1 = p2) by congruence. subst p2.
    split; [congruence|]. split; [congruence|].
    intros frame Hf. congruence.
  - destruct H1 as [Y1 V1], H2 as [Y2 V2]. simpl in *.
    split; [congruence|]. split; [congruence|].
    intros frame Hf. congruence.
Qed.

Lemma genre_pivot_ignores_filters_witness :
  exists e1 e2,
    (e <- filter_block (mkFilter (2000, 2000)%Z (0, 100)%Z [] [])
            (start movies casts genres) ;; tab_genre e) = Ok e1
    /\ (e <- filter_block (mkFilter (2000, 2001)%Z (0, 100)%Z [] [])
               (start movies casts genres) ;; tab_genre e) = Ok e2
    /\ pivot e1 = pivot e2.
Proof.
  destruct (e <- filter_block (mkFilter (2000, 2000)%Z (0, 100)%Z [] [])
                   (start movies casts genres) ;; tab_genre e) as [e1|x] eqn:E1;
    [|vm_compute in E1; discriminate].
  destruct (e <- filter_block (mkFilter (2000, 2001)%Z (0, 100)%Z [] [])
                   (start movies casts genres) ;; tab_genre e) as [e2|x] eqn:E2;
    [|vm_compute in E2; discriminate].
  exists e1, e2. repeat split.
  exact (proj1 (proj2 (genre_pivot_ignores_filters _ _ _ _ _ _ _ E1 E2))).
Defined.

(** C9.  The pivot of the Genre tab does not reflect the filtered
    selection.  With the year range narrowed to 2000 only movie A passes
    the filter, and the filtered genre frames [dfg] and [dfg_top] hold its
    Drama row alone; the pivot the tab ends with still counts the Comedy of
    2001, movie B, because the join of [dfg_top] (lines 256-260) is
    overwritten by the join of the full [df_genre] (lines 261-265).  The
    pivot of the filtered join, which the claim describes and the Cast tab
    computes for its own trend, would hold the Drama of 2000 alone. *)
Theorem genre_pivot_counts_filtered_out_movie :
  exists e,
    (e <- filter_block (mkFilter (2000, 2000)%Z (0, 100)%Z [] [])
            (start movies casts genres) ;; tab_genre e) = Ok e
    /\ rows (df_filtered e) = [[Str "A"; Num 2000; Num (15 # 2)]]
    /\ dfg_top e = Some (mkDF ["title"; "genre"] [[Str "A"; Str "Drama"]])
    /\ pivot e = Some (mkPivot [Num 2000; Num 2001] [Str "Comedy"; Str "Drama"]
                               [[0; 1]; [1; 0]]%nat)
    /\ (p <- (f <- genre_tab_trend "title"
                     (mkDF ["title"; "genre"] [[Str "A"; Str "Drama"]]) movies ;;
              pivot_count "year" "genre" "title" f) ;; Ok (Some p))
       = Ok (Some (mkPivot [Num 2000] [Str "Drama"] [[1%nat]])).
Proof.
  eexists. split; [vm_compute; reflexivity|]. repeat split; vm_compute; reflexivity.
Qed.

(** ** From the imputer to the filters *)

Lemma prepare_numeric_ready
    (parse_number : string -> option Q) (int_of_str : string -> option Z)
    (df df' : DataFrame) :
  wf df ->
  (forall c s, In c ["metadata"; "duration"; "year"] -> get_col c df = Ok s ->
               nonmissing (to_numeric parse_number s) <> []) ->
  prepare parse_number int_of_str df = Ok df' ->
  numeric_ready df'.
Proof.
  intros Hwf Hobs Hp.
  destruct (prepare_columns parse_number int_of_str df Hwf) as (d & Hd & _ & Hc & Hcols).
  { intros c s Hc. apply Hobs. simpl in *. tauto. }
  assert (d = df') by congruence. subst d.
  intros name s Hn Hs.
  assert (Hin : In name ["metadata"; "duration"; "year"]).
  { simpl in *. intuition. }
  rewrite (Hcols name Hin) in Hs.
  destruct (get_col name df) as [s0|] eqn:E0; simpl in Hs; [|discriminate].
  injection Hs as <-.
  eapply Forall_impl; [|apply imputed_all_num, (Hobs name s0 Hin E0)].
  intros x Hx. destruct x; simpl in *; congruence.
Qed.

(** ** Default ranges on whole numbers *)

Lemma Qle_bool_total (a b : Q) : Qle_bool a b = false -> Qle_bool b a = true.
Proof.
  intros H. apply Qle_bool_iff. apply Qlt_le_weak. apply Qnot_le_lt.
  intros Hle. apply Qle_bool_iff in Hle. congruence.
Qed.

Lemma list_min_spec (l : list Q) (m : Q) :
  list_min l = Some m -> In m l /\ forall q, In q l -> Qle_bool m q = true.
Proof.
  revert m. induction l as [|a t IH]; intros m; simpl; [discriminate|].
  destruct (list_min t) as [m'|] eqn:E.
  - specialize (IH m' eq_refl). destruct IH as [Hin Hle].
    intros H. injection H as <-. destruct (Qle_bool a m') eqn:Ea.
    + split; [now left|]. intros q [<-|Hq].
      * apply Qle_bool_iff. apply Qle_refl.
      * apply Qle_bool_iff. eapply Qle_trans; [apply Qle_bool_iff, Ea|].
        apply Qle_bool_iff. now apply Hle.
    + split; [now right|]. intros q [<-|Hq]; [now apply Qle_bool_total|now apply Hle].
  - destruct t; [|simpl in E; destruct (list_min t); discriminate].
    intros H. injection H as <-. split; [now left|].
    intros q [<-|[]]. apply Qle_bool_iff. apply Qle_refl.
Qed.

Lemma list_max_spec (l : list Q) (m : Q) :
  list_max l = Some m -> In m l /\ forall q, In q l -> Qle_bool q m = true.
Proof.
  revert m. induction l as [|a t IH]; intros m; simpl; [discriminate|].
  destruct (list_max t) as [m'|] eqn:E.
  - specialize (IH m' eq_refl). destruct IH as [Hin Hle].
    intros H. injection H as <-. destruct (Qle_bool m' a) eqn:Ea.
    + split; [now left|]. intros q [<-|Hq].
      * apply Qle_bool_iff. apply Qle_refl.
      * apply Qle_bool_iff. eapply Qle_trans; [|apply Qle_bool_iff, Ea].
        apply Qle_bool_iff. now apply Hle.
    + split; [now right|]. intros q [<-|Hq]; [now apply Qle_bool_total|now apply Hle].
  - destruct t; [|simpl in E; destruct (list_max t); discriminate].
    intros H. injection H as <-. split; [now left|].
    intros q [<-|[]]. apply Qle_bool_iff. apply Qle_refl.
Qed.

Lemma trunc_inject_Z (z : Z) : trunc (inject_Z z) = z.
Proof. unfold trunc. simpl. apply Z.quot_1_r. Qed.

Lemma observed_ints (s : list cell) :
  Forall is_int_cell s ->
  observed s = Ok (nonmissing s)
  /\ (forall q, In q (nonmissing s) -> exists z, q = inject_Z z)
  /\ (forall c, In c s -> exists q, c = Num q /\ In q (nonmissing s)).
Proof.
  induction 1 as [|c t [z ->] Ht IH]; simpl.
  - repeat split; [intros q []|intros c []].
  - destruct IH as (IH1 & IH2 & IH3). rewrite IH1. simpl. repeat split.
    + intros q [<-|Hq]; [now exists z|now apply IH2].
    + intros c [<-|Hc]; [exists (inject_Z z); split; [reflexivity|now left]|].
      destruct (IH3 c Hc) as (q & -> & Hq). exists q. split; [reflexivity|now right].
Qed.

(** On a column of whole numbers, which is what the imputer leaves in
    [year], the default range reaches from the least to the greatest value
    and contains every cell. *)
Lemma default_year_range_spans (df_clean : DataFrame) (s : list cell) :
  get_col "year" df_clean = Ok s -> s <> [] -> Forall is_int_cell s ->
  exists lo hi,
    default_year_range df_clean = Ok (lo, hi)
    /\ In (Num (inject_Z lo)) s /\ In (Num (inject_Z hi)) s
    /\ Forall (fun c => in_range lo hi c = true) s.
Proof.
  intros Hs Hne Hint. unfold default_year_range.
  assert (Hh : has_col "year" df_clean = true).
  { rewrite get_col_cell_at in Hs. destruct (has_col "year" df_clean); [reflexivity|discriminate]. }
  rewrite Hh, Hs, bind_Ok. unfold series_min, series_max.
  destruct (observed_ints s Hint) as (Ho & Hz & Hc). rewrite Ho, !bind_Ok.
  assert (Hq : nonmissing s <> []).
  { destruct s as [|c t]; [congruence|].
    destruct (Hc c (or_introl eq_refl)) as (q & _ & Hq). intros E. rewrite E in Hq.
    destruct Hq. }
  destruct (list_min (nonmissing s)) as [mn|] eqn:Emin.
  2:{ destruct (nonmissing s) as [|a t]; [congruence|]. simpl in Emin.
      destruct (list_min t); discriminate. }
  destruct (list_max (nonmissing s)) as [mx|] eqn:Emax.
  2:{ destruct (nonmissing s) as [|a t]; [congruence|]. simpl in Emax.
      destruct (list_max t); discriminate. }
  destruct (list_min_spec _ _ Emin) as [Hmin_in Hmin].
  destruct (list_max_spec _ _ Emax) as [Hmax_in Hmax].
  destruct (Hz mn Hmin_in) as [zlo ->]. destruct (Hz mx Hmax_in) as [zhi ->].
  unfold py_int. rewrite !bind_Ok, !trunc_inject_Z.
  assert (Hback : forall q, In q (nonmissing s) -> In (Num q) s).
  { clear. induction s as [|c t IH]; simpl; [tauto|].
    destruct c as [|p|p]; simpl; intros r Hr; auto. destruct Hr as [<-|Hr]; auto. }
  exists zlo, zhi. split; [reflexivity|]. split; [now apply Hback|].
  split; [now apply Hback|].
  apply Forall_forall. intros c Hcin. destruct (Hc c Hcin) as (q & -> & Hqin).
  simpl. now rewrite (Hmin q Hqin), (Hmax q Hqin).
Qed.

(* ================================================================= *)
(** * Further properties of the sidebar defaults and the filter block *)

(** The body shared by the two default ranges, on a column of whole
    numbers. *)
Lemma range_of_ints (s : list cell) :
  s <> [] -> Forall is_int_cell s ->
  exists lo hi,
    (a <- series_min s ;; x <- py_int a ;; b <- series_max s ;; y <- py_int b ;;
     Ok (x, y)) = Ok (lo, hi)
    /\ Forall (fun c => in_range lo hi c = true) s.
Proof.
  intros Hne Hint. unfold series_min, series_max.
  destruct (observed_ints s Hint) as (Ho & Hz & Hc). rewrite Ho, !bind_Ok.
  assert (Hq : nonmissing s <> []).
  { destruct s as [|c t]; [congruence|].
    destruct (Hc c (or_introl eq_refl)) as (q & _ & Hq). intros E. rewrite E in Hq.
    destruct Hq. }
  destruct (list_min (nonmissing s)) as [mn|] eqn:Emin.
  2:{ destruct (nonmissing s) as [|a t]; [congruence|]. simpl in Emin.
      destruct (list_min t); discriminate. }
  destruct (list_max (nonmissing s)) as [mx|] eqn:Emax.
  2:{ destruct (nonmissing s) as [|a t]; [congruence|]. simpl in Emax.
      destruct (list_max t); discriminate. }
  destruct (list_min_spec _ _ Emin) as [Hmin_in Hmin].
  destruct (list_max_spec _ _ Emax) as [Hmax_in Hmax].
  destruct (Hz mn Hmin_in) as [zlo ->]. destruct (Hz mx Hmax_in) as [zhi ->].
  unfold py_int. rewrite !bind_Ok, !trunc_inject_Z.
  exists zlo, zhi. split; [reflexivity|].
  apply Forall_forall. intros c Hcin. destruct (Hc c Hcin) as (q & -> & Hqin).
  simpl. now rewrite (Hmin q Hqin), (Hmax q Hqin).
Qed.

(** X2.  A [year] column without an observed value, as in a file with a header
    and no rows, stops the script at the sidebar: the minimum is missing
    and [int] refuses it. *)
Theorem default_year_range_unobserved (df_clean : DataFrame) (s : list cell) :
  get_col "year" df_clean = Ok s ->
  Forall (fun c => is_str c = false) s ->
  nonmissing s = [] ->
  default_year_range df_clean = Raise ValueError.
Proof.
  intros Hs Hns He. unfold default_year_range.
  assert (Hh : has_col "year" df_clean = true).
  { rewrite get_col_cell_at in Hs.
    destruct (has_col "year" df_clean); [reflexivity|discriminate]. }
  rewrite Hh, Hs, bind_Ok. unfold series_min.
  rewrite (observed_no_str _ Hns), He. reflexivity.
Qed.

Lemma default_year_range_unobserved_witness :
  default_year_range (mkDF ["title"; "year"] []) = Raise ValueError.
Proof.
  apply (default_year_range_unobserved (mkDF ["title"; "year"] []) []).
  - reflexivity.
  - constructor.
  - reflexivity.
Defined.

Lemma is_int_no_str (s : list cell) :
  Forall is_int_cell s -> Forall (fun c => is_str c = false) s.
Proof.
  intros H. eapply Forall_impl; [|exact H]. intros c [z ->]. reflexivity.
Qed.

Lemma select_all (p : list cell -> bool) (df : DataFrame) :
  (forall r, In r (rows df) -> p r = true) -> select p df = df.
Proof.
  intros H. destruct df as [cols rs]. unfold select. simpl in *.
  now rewrite (filter_all p rs H).
Qed.

(** X1.  When the [year] and [metadata] columns of a movie frame with at least
    one row hold whole numbers (or are absent), the sidebar defaults exist
    and filtering with them returns the movie frame itself. *)
Theorem default_filters_keep_all (df_clean df_genre df_cast : DataFrame) :
  rows df_clean <> [] ->
  (forall name s, In name ["year"; "metadata"] -> get_col name df_clean = Ok s ->
                  Forall is_int_cell s) ->
  exists cfg,
    default_filters df_clean = Ok cfg
    /\ genre_filter cfg = [] /\ cast_filter cfg = []
    /\ apply_filters cfg df_clean df_genre df_cast = Ok df_clean.
Proof.
  intros Hne Hint.
  assert (Hcol : forall name, has_col name df_clean = true ->
            get_col name df_clean
            = Ok (map (cell_at name (columns df_clean)) (rows df_clean))).
  { intros name H. now rewrite get_col_cell_at, H. }
  assert (Hnum : numeric_ready df_clean).
  { intros name s Hn Hs. apply is_int_no_str. now apply (Hint name). }
  assert (Hy : exists yr,
             default_year_range df_clean = Ok yr
             /\ forall r, In r (rows df_clean) ->
                  (if has_col "year" df_clean
                   then in_range (fst yr) (snd yr) (cell_at "year" (columns df_clean) r)
                   else true) = true).
  { unfold default_year_range. destruct (has_col "year" df_clean) eqn:E.
    - rewrite (Hcol _ E), bind_Ok.
      destruct (range_of_ints (map (cell_at "year" (columns df_clean)) (rows df_clean)))
        as (lo & hi & Hr & Hall).
      + destruct (rows df_clean); [congruence|discriminate].
      + apply (Hint "year"); [simpl; auto|now apply Hcol].
      + rewrite Hr. exists (lo, hi). split; [reflexivity|].
        intros r Hr'. rewrite Forall_map, Forall_forall in Hall. now apply Hall.
    - eexists. split; [reflexivity|]. reflexivity. }
  assert (Hm : exists mr,
             default_meta_range df_clean = Ok mr
             /\ forall r, In r (rows df_clean) ->
                  (if has_col "metadata" df_clean
                   then in_range (fst mr) (snd mr)
                          (cell_at "metadata" (columns df_clean) r)
                   else true) = true).
  { unfold default_meta_range. destruct (has_col "metadata" df_clean) eqn:E.
    - rewrite (Hcol _ E), bind_Ok.
      destruct (range_of_ints
                  (map (cell_at "metadata" (columns df_clean)) (rows df_clean)))
        as (lo & hi & Hr & Hall).
      + destruct (rows df_clean); [congruence|discriminate].
      + apply (Hint "metadata"); [simpl; auto|now apply Hcol].
      + rewrite Hr. exists (lo, hi). split; [reflexivity|].
        intros r Hr'. rewrite Forall_map, Forall_forall in Hall. now apply Hall.
    - eexists. split; [reflexivity|]. reflexivity. }
  destruct Hy as (yr & Ey & Hyr). destruct Hm as (mr & Em & Hmr).
  exists (mkFilter yr mr [] []). unfold default_filters.
  rewrite Ey, Em, !bind_Ok. repeat split.
  rewrite apply_filters_char by exact Hnum.
  unfold titles_linked, applies. simpl. f_equal. apply select_all.
  intros r Hr. unfold keeps, year_ok, metadata_ok, member_ok, applies. simpl.
  now rewrite (Hyr r Hr), (Hmr r Hr).
Qed.

Lemma default_filters_keep_all_witness :
  exists cfg,
    default_filters movies_whole = Ok cfg
    /\ genre_filter cfg = [] /\ cast_filter cfg = []
    /\ apply_filters cfg movies_whole genres casts = Ok movies_whole.
Proof.
  apply (default_filters_keep_all movies_whole genres casts).
  - discriminate.
  - intros name s [<-|[<-|[]]] H; vm_compute in H; injection H as <-;
      repeat constructor;
      match goal with |- is_int_cell (Num (?z # 1)) => exists z; reflexivity end.
Defined.

(** X3.  On a prepared movie frame a row is in the filtered frame exactly when
    it is a row of the movie frame that passes the year range, the metadata
    range and the two membership tests together. *)
Theorem filtered_rows_iff (cfg : FilterState)
    (df_clean df_genre df_cast out : DataFrame) (r : list cell) :
  numeric_ready df_clean ->
  apply_filters cfg df_clean df_genre df_cast = Ok out ->
  (In r (rows out) <->
   In r (rows df_clean) /\ keeps cfg df_clean df_genre df_cast r = true).
Proof.
  intros Hnum H. rewrite apply_filters_char in H by exact Hnum.
  destruct (titles_linked cfg df_clean df_genre df_cast); [|discriminate].
  injection H as <-. unfold select. simpl. apply filter_In.
Qed.

Lemma filtered_rows_iff_witness :
  In [Str "A"; Num 2000; Num (15 # 2)]
     (rows (mkDF ["title"; "year"; "metadata"] [[Str "A"; Num 2000; Num (15 # 2)]]))
  <-> In [Str "A"; Num 2000; Num (15 # 2)] (rows movies)
      /\ keeps (mkFilter (2000, 2001)%Z (0, 100)%Z [Str "Drama"] []) movies genres casts
            [Str "A"; Num 2000; Num (15 # 2)] = true.
Proof.
  apply (filtered_rows_iff (mkFilter (2000, 2001)%Z (0, 100)%Z [Str "Drama"] [])
           movies genres casts).
  - exact movies_numeric_ready.
  - vm_compute. reflexivity.
Defined.

Lemma numeric_ready_select (p : list cell -> bool) (df : DataFrame) :
  numeric_ready df -> numeric_ready (select p df).
Proof.
  intros H name s Hn Hs. rewrite get_col_cell_at in Hs.
  destruct (has_col name (select p df)) eqn:E; [|discriminate].
  injection Hs as <-. simpl.
  assert (Hg : get_col name df = Ok (map (cell_at name (columns df)) (rows df))).
  { rewrite get_col_cell_at. unfold has_col in *. simpl in E. now rewrite E. }
  specialize (H name _ Hn Hg). rewrite Forall_map in *. now apply Forall_filter.
Qed.

(** X4.  Filtering is idempotent: running the filter block again, with the same
    state, on the frame it produced gives that frame back. *)
Theorem refilter_same_state (cfg : FilterState)
    (df_clean df_genre df_cast out : DataFrame) :
  numeric_ready df_clean ->
  apply_filters cfg df_clean df_genre df_cast = Ok out ->
  apply_filters cfg out df_genre df_cast = Ok out.
Proof.
  intros Hnum H. rewrite apply_filters_char in H by exact Hnum.
  destruct (titles_linked cfg df_clean df_genre df_cast) eqn:Et; [|discriminate].
  injection H as <-.
  rewrite apply_filters_char by (now apply numeric_ready_select).
  change (titles_linked cfg (select (keeps cfg df_clean df_genre df_cast) df_clean)
            df_genre df_cast)
    with (titles_linked cfg df_clean df_genre df_cast).
  rewrite Et. f_equal. unfold select. simpl. f_equal.
  rewrite filter_filter. apply filter_ext. intros r.
  change (keeps cfg (mkDF (columns df_clean)
                       (filter (keeps cfg df_clean df_genre df_cast) (rows df_clean)))
            df_genre df_cast r)
    with (keeps cfg df_clean df_genre df_cast r).
  apply andb_diag.
Qed.

Lemma refilter_same_state_witness :
  apply_filters (mkFilter (2000, 2001)%Z (0, 100)%Z [Str "Drama"] [])
    (mkDF ["title"; "year"; "metadata"] [[Str "A"; Num 2000; Num (15 # 2)]]) genres casts
  = Ok (mkDF ["title"; "year"; "metadata"] [[Str "A"; Num 2000; Num (15 # 2)]]).
Proof.
  apply (refilter_same_state (mkFilter (2000, 2001)%Z (0, 100)%Z [Str "Drama"] [])
           movies genres casts).
  - exact movies_numeric_ready.
  - vm_compute. reflexivity.
Defined.

(* ================================================================= *)
(** * Further properties of the schema normaliser *)

Lemma repl_lower_clean (d : ascii) :
  PyStr.lower_char (repl (PyStr.lower_char d)) = repl (PyStr.lower_char d)
  /\ repl (PyStr.lower_char d) <> PyStr.SPACE
  /\ repl (PyStr.lower_char d) <> PyStr.NEWLINE
  /\ repl (PyStr.lower_char d) <> PyStr.TAB.
Proof. all_ascii d; repeat split; discriminate. Qed.

Lemma canon_chars_clean (l : PyStr.chars) :
  PyStr.strip (canon_chars l) = canon_chars l
  /\ Forall (fun ch => PyStr.lower_char ch = ch
                       /\ ch <> PyStr.SPACE /\ ch <> PyStr.NEWLINE /\ ch <> PyStr.TAB)
            (canon_chars l).
Proof.
  rewrite canon_chars_eq. set (t := PyStr.strip (map PyStr.lower_char l)). split.
  - unfold PyStr.strip.
    rewrite (lstrip_map_repl t) by apply strip_lstrip_fixed.
    apply rstrip_map_repl, strip_rstrip_fixed.
  - apply Forall_map, Forall_forall. intros c Hc.
    apply strip_incl, in_map_iff in Hc. destruct Hc as (d & <- & _).
    apply repl_lower_clean.
Qed.

Lemma normalize_name_clean (c : string) : clean_label (normalize_name c).
Proof.
  unfold normalize_name. destruct (String.eqb c "metadata") eqn:E.
  - apply String.eqb_eq in E. subst c. split; [reflexivity|].
    repeat constructor; discriminate.
  - unfold clean_label. rewrite list_ascii_of_string_of_list_ascii.
    apply canon_chars_clean.
Qed.

(** X5.  Every label of a normalised frame is clean: lower case, free of
    spaces, line feeds and tabs, and without white space at its ends. *)
Theorem normalize_labels_clean (df : DataFrame) :
  Forall clean_label (columns (normalize df)).
Proof.
  assert (R : forall old new l, clean_label new -> Forall clean_label l ->
                Forall clean_label (rename_label old new l)).
  { intros old new l Hn Hl. unfold rename_label. apply Forall_map.
    eapply Forall_impl; [|exact Hl]. intros c Hc. simpl.
    destruct (String.eqb c old); assumption. }
  assert (Hm : clean_label "metadata") by apply (normalize_name_clean "metadata").
  assert (Hd : clean_label "duration") by apply (normalize_name_clean "duration").
  assert (H0 : Forall clean_label (normalize_labels (columns df))).
  { unfold normalize_labels. apply Forall_map, Forall_forall. intros c _.
    apply normalize_name_clean. }
  unfold normalize, normalize_schema. simpl.
  unfold rename_duration_, rename_meta_data.
  destruct (mem "meta_data" (normalize_labels (columns df))
            && negb (mem "metadata" (normalize_labels (columns df)))).
  - destruct (_ && _); [apply R; [exact Hd|]|]; apply R; auto.
  - destruct (_ && _); [apply R; [exact Hd|]|]; auto.
Qed.

Lemma NoDup_rename_label (old new : string) (l : list string) :
  NoDup l -> ~ In new l -> NoDup (rename_label old new l).
Proof.
  unfold rename_label. induction 1 as [|c t Hc Ht IH]; intros Hn; simpl; [constructor|].
  assert (Hnt : ~ In new t) by (intros H; apply Hn; now right).
  assert (Hnc : new <> c) by (intros H; apply Hn; now left).
  constructor; [|now apply IH].
  intros H. apply in_map_iff in H. destruct H as (d & Hd & Hin).
  destruct (String.eqb c old) eqn:Ec, (String.eqb d old) eqn:Ed.
  - apply String.eqb_eq in Ec, Ed. subst. contradiction.
  - subst d. contradiction.
  - congruence.
  - subst d. contradiction.
Qed.

(** X6.  The two alias rules never make two labels equal: labels that are
    pairwise distinct after [normalize_columns] are so at the end. *)
Theorem alias_rules_keep_labels_distinct (df : DataFrame) :
  NoDup (columns (normalize_columns df)) -> NoDup (columns (normalize df)).
Proof.
  simpl. unfold normalize_schema. intros H.
  assert (Hm : NoDup (rename_meta_data (normalize_labels (columns df)))).
  { unfold rename_meta_data.
    destruct (mem "meta_data" _ && negb (mem "metadata" _)) eqn:E; [|exact H].
    apply andb_true_iff in E. destruct E as [_ E]. apply negb_true_iff in E.
    apply NoDup_rename_label; [exact H|]. intros Hin. apply mem_In in Hin. congruence. }
  unfold rename_duration_.
  destruct (mem "duration_" _ && negb (mem "duration" _)) eqn:E; [|exact Hm].
  apply andb_true_iff in E. destruct E as [_ E]. apply negb_true_iff in E.
  apply NoDup_rename_label; [exact Hm|]. intros Hin. apply mem_In in Hin. congruence.
Qed.

Lemma alias_rules_keep_labels_distinct_witness :
  NoDup (columns (normalize (mkDF ["Title"; "Meta_Data"; "Duration_"] []))).
Proof.
  apply (alias_rules_keep_labels_distinct (mkDF ["Title"; "Meta_Data"; "Duration_"] [])).
  simpl. repeat (constructor; [simpl; intuition discriminate|]). constructor.
Defined.

(** [normalize_columns] itself can make two labels equal. *)
Example normalize_columns_merges_labels :
  NoDup ["Year"; "year "] /\ columns (normalize_columns (mkDF ["Year"; "year "] []))
                             = ["year"; "year"].
Proof.
  split; [|reflexivity].
  repeat (constructor; [simpl; intuition discriminate|]). constructor.
Qed.

(** X7.  A column whose label is [duration_] once [normalize_columns] has run
    ends up named [duration] exactly when [normalize_columns] left no column
    named [duration]; the [meta_data] rule in between does not interfere. *)
Theorem duration_name_canonical (df : DataFrame) (i : nat) :
  nth_error (columns (normalize_columns df)) i = Some "duration_" ->
  (nth_error (columns (normalize df)) i = Some "duration"
   <-> mem "duration" (columns (normalize_columns df)) = false).
Proof.
  destruct df as [cols rs]. simpl. unfold normalize_schema. intros H.
  set (l := normalize_labels cols) in *.
  assert (H1 : nth_error (rename_meta_data l) i = Some "duration_").
  { unfold rename_meta_data.
    destruct (_ && _); [apply nth_error_rename_other; [exact H|discriminate]|exact H]. }
  assert (M1 : mem "duration" (rename_meta_data l) = mem "duration" l).
  { unfold rename_meta_data.
    destruct (_ && _); [apply mem_rename_other; discriminate|reflexivity]. }
  assert (M2 : mem "duration_" (rename_meta_data l) = true).
  { apply mem_In. eapply nth_error_In. exact H1. }
  unfold rename_duration_. rewrite M2, M1. simpl.
  destruct (mem "duration" l); simpl.
  - rewrite H1. split; discriminate.
  - rewrite (nth_error_rename_old _ _ _ _ H1). split; reflexivity.
Qed.

Lemma duration_name_canonical_witness :
  nth_error (columns (normalize (mkDF ["Title"; "Duration_"] []))) 1 = Some "duration".
Proof.
  apply (proj2 (duration_name_canonical (mkDF ["Title"; "Duration_"] []) 1 eq_refl)).
  reflexivity.
Defined.

(* ================================================================= *)
(** * Further properties of the coercer and imputer *)

Lemma mapM_length {A B : Type} (f : A -> result B) (l : list A) (out : list B) :
  mapM f l = Ok out -> List.length out = List.length l.
Proof.
  revert out. induction l as [|a t IH]; intros out; simpl.
  - intros H. injection H as <-. reflexivity.
  - destruct (f a) as [b|]; simpl; [|discriminate].
    destruct (mapM f t) as [bs|]; simpl; [|discriminate].
    intros H. injection H as <-. simpl. now rewrite (IH bs eq_refl).
Qed.

Section ImputerSteps.

Variable parse_number : string -> option Q.
Variable int_of_str : string -> option Z.

Lemma impute_float_step_inv (c : string) (df out : DataFrame) :
  wf df ->
  (if has_col c df
   then s <- get_col c df ;; m <- median s ;; Ok (set_col c (fillna m s) df)
   else Ok df) = Ok out ->
  exists f, col_updated c f df out.
Proof.
  intros Hwf. destruct (has_col c df) eqn:E.
  - pose proof E as E'. unfold has_col in E'. apply index_of_mem in E'.
    destruct E' as [i Hi]. destruct (get_col_has _ _ E) as [s Hs].
    rewrite Hs, bind_Ok. destruct (median s) as [m|]; [|simpl; discriminate].
    rewrite bind_Ok. intros H. injection H as <-.
    exists (fun s => fillna m s).
    apply (set_col_map c (fun s => fillna m s) df i s); auto. apply fillna_length.
  - intros H. injection H as <-. exists (fun s => s).
    now apply col_updated_refl_absent.
Qed.

Lemma impute_int_step_inv (c : string) (df out : DataFrame) :
  wf df ->
  (if has_col c df
   then s <- get_col c df ;; m <- median s ;;
        v <- astype_int int_of_str (fillna m s) ;; Ok (set_col c v df)
   else Ok df) = Ok out ->
  exists f, col_updated c f df out.
Proof.
  intros Hwf. destruct (has_col c df) eqn:E.
  - pose proof E as E'. unfold has_col in E'. apply index_of_mem in E'.
    destruct E' as [i Hi]. destruct (get_col_has _ _ E) as [s Hs].
    rewrite Hs, bind_Ok. destruct (median s) as [m|]; [|simpl; discriminate].
    rewrite bind_Ok.
    destruct (astype_int int_of_str (fillna m s)) as [v|] eqn:Ev; [|simpl; discriminate].
    rewrite bind_Ok. intros H. injection H as <-.
    exists (fun _ => v).
    apply (set_col_map c (fun _ => v) df i s); auto.
    unfold astype_int in Ev. apply mapM_length in Ev. now rewrite Ev, fillna_length.
  - intros H. injection H as <-. exists (fun s => s).
    now apply col_updated_refl_absent.
Qed.

(** The six passes of [prepare], whenever it returns. *)
Lemma prepare_chain (df df' : DataFrame) :
  wf df ->
  prepare parse_number int_of_str df = Ok df' ->
  wf df' /\ columns df' = columns df
  /\ List.length (rows df') = List.length (rows df)
  /\ exists fm fd fy,
       forall d, get_col d df' =
         if String.eqb d "year" then (s <- get_col d df ;; Ok (fy s))
         else if String.eqb d "duration" then (s <- get_col d df ;; Ok (fd s))
         else if String.eqb d "metadata" then (s <- get_col d df ;; Ok (fm s))
         else get_col d df.
Proof.
  intros Hwf. unfold prepare, impute_and_cast. simpl coerce_numeric.
  destruct (coerce_step parse_number "metadata" df Hwf) as (d1 & E1 & W1 & C1 & L1 & G1).
  rewrite E1. rewrite bind_Ok.
  destruct (coerce_step parse_number "duration" d1 W1) as (d2 & E2 & W2 & C2 & L2 & G2).
  rewrite E2. rewrite bind_Ok.
  destruct (coerce_step parse_number "year" d2 W2) as (d3 & E3 & W3 & C3 & L3 & G3).
  rewrite E3. rewrite !bind_Ok.
  match goal with |- bind ?m _ = _ -> _ => destruct m as [d4|] eqn:E4;
    [|simpl; discriminate] end.
  rewrite bind_Ok.
  match goal with |- bind ?m _ = _ -> _ => destruct m as [d5|] eqn:E5;
    [|simpl; discriminate] end.
  rewrite bind_Ok.
  match goal with |- bind ?m _ = _ -> _ => destruct m as [d6|] eqn:E6;
    [|simpl; discriminate] end.
  rewrite bind_Ok. intros H. injection H as <-.
  destruct (impute_float_step_inv _ _ _ W3 E4) as (f4 & W4 & C4 & L4 & G4).
  destruct (impute_int_step_inv _ _ _ W4 E5) as (f5 & W5 & C5 & L5 & G5).
  destruct (impute_int_step_inv _ _ _ W5 E6) as (f6 & W6 & C6 & L6 & G6).
  split; [exact W6|]. split; [congruence|]. split; [congruence|].
  exists (fun s => f4 (to_numeric parse_number s)),
         (fun s => f5 (to_numeric parse_number s)),
         (fun s => f6 (to_numeric parse_number s)).
  intros d. rewrite G6, G5, G4, G3, G2, G1.
  destruct (String.eqb d "year") eqn:Ey.
  { apply String.eqb_eq in Ey. subst d. simpl.
    destruct (get_col "year" df); reflexivity. }
  destruct (String.eqb d "duration") eqn:Ed.
  { apply String.eqb_eq in Ed. subst d. simpl.
    destruct (get_col "duration" df); reflexivity. }
  destruct (String.eqb d "metadata") eqn:Em; [|reflexivity].
  destruct (get_col d df); reflexivity.
Qed.

End ImputerSteps.

(** X8.  Whenever coercion and imputation return, the frame keeps its labels,
    its number of rows and its well-formedness, and every column other than
    [metadata], [duration] and [year] holds what it held before. *)
Theorem prepare_passthrough
    (parse_number : string -> option Q) (int_of_str : string -> option Z)
    (df df' : DataFrame) :
  wf df ->
  prepare parse_number int_of_str df = Ok df' ->
  wf df' /\ columns df' = columns df
  /\ List.length (rows df') = List.length (rows df)
  /\ forall d, ~ In d ["metadata"; "duration"; "year"] ->
               get_col d df' = get_col d df.
Proof.
  intros Hwf Hp.
  destruct (prepare_chain parse_number int_of_str df df' Hwf Hp)
    as (W & C & L & fm & fd & fy & G).
  split; [exact W|]. split; [exact C|]. split; [exact L|].
  intros d Hd. rewrite G.
  destruct (String.eqb d "year") eqn:Ey.
  { apply String.eqb_eq in Ey. subst d. exfalso. apply Hd. simpl. auto. }
  destruct (String.eqb d "duration") eqn:Ed.
  { apply String.eqb_eq in Ed. subst d. exfalso. apply Hd. simpl. auto. }
  destruct (String.eqb d "metadata") eqn:Em; [|reflexivity].
  apply String.eqb_eq in Em. subst d. exfalso. apply Hd. simpl. auto.
Qed.

Lemma sample_raw_wf : wf sample_raw.
Proof. wf_concrete. Qed.

Lemma prepare_passthrough_witness :
  get_col "title"
    (mkDF ["title"; "metadata"; "duration"; "year"]
       [ [Str "A"; Num (15 # 2); Num 90; Num 2000];
         [Str "B"; Num (33 # 4); Num 105; Num 2004];
         [Str "C"; Num 9; Num 121; Num 2002] ])
  = get_col "title" sample_raw.
Proof.
  refine (proj2 (proj2 (proj2
    (prepare_passthrough number_of_digits int_of_digits sample_raw _
       sample_raw_wf _))) "title" _).
  - vm_compute. reflexivity.
  - simpl. intuition discriminate.
Defined.

Lemma index_of_nth_NoDup (cols : list string) (i : nat) :
  NoDup cols -> (i < List.length cols)%nat ->
  index_of (nth i cols "") cols = Some i.
Proof.
  intros Hnd. revert i. induction Hnd as [|c t Hc Hnd IH]; intros i Hi; simpl in *; [lia|].
  destruct i as [|j].
  - now rewrite String.eqb_refl.
  - destruct (String.eqb c (nth j t "")) eqn:E.
    + apply String.eqb_eq in E. exfalso. apply Hc. rewrite E. apply nth_In. lia.
    + rewrite IH by lia. reflexivity.
Qed.

(** Two well-formed frames with the same labels, the same number of rows
    and the same cells under every label are the same frame. *)
Lemma frame_ext (a b : DataFrame) :
  wf a -> wf b -> columns a = columns b ->
  List.length (rows a) = List.length (rows b) ->
  (forall d, get_col d a = get_col d b) ->
  a = b.
Proof.
  destruct a as [cols ra], b as [cols' rb]. simpl.
  intros [Hnd Ha] [_ Hb] <- Hlen Hg. simpl in *. f_equal.
  apply (nth_ext _ _ [] [] Hlen). intros k Hk.
  rewrite Forall_forall in Ha, Hb.
  assert (La : List.length (nth k ra []) = List.length cols)
    by (apply Ha, nth_In; exact Hk).
  assert (Lb : List.length (nth k rb []) = List.length cols)
    by (apply Hb, nth_In; lia).
  apply (nth_ext _ _ NaN NaN); [congruence|]. intros i Hi. rewrite La in Hi.
  specialize (Hg (nth i cols "")). unfold get_col in Hg. simpl in Hg.
  rewrite (index_of_nth_NoDup cols i Hnd Hi) in Hg. injection Hg as Hg.
  assert (E : nth k (map (fun r => nth i r NaN) ra) NaN
              = nth k (map (fun r => nth i r NaN) rb) NaN) by now rewrite Hg.
  rewrite (nth_indep _ NaN (nth i [] NaN)) in E by (rewrite length_map; exact Hk).
  rewrite (nth_indep (map _ rb) NaN (nth i [] NaN)) in E by (rewrite length_map; lia).
  rewrite !(map_nth (fun r => nth i r NaN)) in E. exact E.
Qed.

Lemma cast_int_idem (c : cell) : cast_int (cast_int c) = cast_int c.
Proof. destruct c; simpl; [reflexivity| |reflexivity]. now rewrite trunc_inject_Z. Qed.

Lemma fillna_no_missing (v : cell) (s : list cell) :
  Forall (fun c => is_num c = true) s -> fillna v s = s.
Proof.
  intros H. unfold fillna. rewrite <- (map_id s) at 2. apply map_ext_in.
  intros c Hc. rewrite Forall_forall in H. specialize (H c Hc).
  destruct c; simpl in *; congruence.
Qed.

Lemma nonmissing_all_num (s : list cell) :
  Forall (fun c => is_num c = true) s -> s <> [] -> nonmissing s <> [].
Proof.
  intros H Hne. destruct s as [|c t]; [congruence|].
  inversion H; subst. destruct c; simpl in *; discriminate.
Qed.

Section ImputerTwice.

Variable parse_number : string -> option Q.
Variable int_of_str : string -> option Z.

Lemma to_numeric_all_num (s : list cell) :
  Forall (fun c => is_num c = true) s -> to_numeric parse_number s = s.
Proof.
  intros H. unfold to_numeric. rewrite <- (map_id s) at 2. apply map_ext_in.
  intros c Hc. rewrite Forall_forall in H. specialize (H c Hc).
  destruct c; simpl in *; congruence.
Qed.

Lemma imputed_twice (c : string) (s : list cell) :
  nonmissing (to_numeric parse_number s) <> [] ->
  imputed parse_number c (imputed parse_number c s) = imputed parse_number c s.
Proof.
  intros H. pose proof (imputed_all_num parse_number c s H) as Hall.
  unfold imputed at 1. rewrite (to_numeric_all_num _ Hall).
  rewrite (fillna_no_missing _ _ Hall).
  destruct (String.eqb c "metadata") eqn:E; [reflexivity|].
  unfold imputed. rewrite E, map_map. apply map_ext. intros x. apply cast_int_idem.
Qed.

Lemma imputed_observed (c : string) (s : list cell) :
  nonmissing (to_numeric parse_number s) <> [] ->
  nonmissing (to_numeric parse_number (imputed parse_number c s)) <> [].
Proof.
  intros H. pose proof (imputed_all_num parse_number c s H) as Hall.
  rewrite (to_numeric_all_num _ Hall). apply nonmissing_all_num; [exact Hall|].
  intros E. apply (f_equal (@List.length cell)) in E. revert E. unfold imputed.
  assert (Hs : s <> []) by (intros ->; apply H; reflexivity).
  destruct (String.eqb c "metadata");
    rewrite ?length_map, fillna_length; unfold to_numeric; rewrite length_map;
    destruct s; simpl; congruence.
Qed.

End ImputerTwice.

(** X9.  Coercion and imputation are idempotent: on a well-formed frame whose
    [metadata], [duration] and [year] columns each hold an observed value,
    preparing the prepared frame returns it unchanged. *)
Theorem prepare_idempotent
    (parse_number : string -> option Q) (int_of_str : string -> option Z)
    (df : DataFrame) :
  wf df ->
  (forall c s, In c ["metadata"; "duration"; "year"] -> get_col c df = Ok s ->
               nonmissing (to_numeric parse_number s) <> []) ->
  exists df',
    prepare parse_number int_of_str df = Ok df'
    /\ prepare parse_number int_of_str df' = Ok df'.
Proof.
  intros Hwf Hobs.
  destruct (prepare_columns parse_number int_of_str df Hwf) as (d1 & E1 & W1 & C1 & G1).
  { intros c s Hc. apply Hobs. simpl in *. tauto. }
  exists d1. split; [exact E1|].
  assert (Hobs1 : forall c s, In c ["metadata"; "duration"; "year"] ->
                    get_col c d1 = Ok s ->
                    nonmissing (to_numeric parse_number s) <> []).
  { intros c s Hc Hs. rewrite (G1 c Hc) in Hs.
    destruct (get_col c df) as [s0|] eqn:E0; simpl in Hs; [|discriminate].
    injection Hs as <-. apply imputed_observed. now apply (Hobs c). }
  destruct (prepare_columns parse_number int_of_str d1 W1) as (d2 & E2 & W2 & C2 & G2).
  { intros c s Hc. apply Hobs1. simpl in *. tauto. }
  rewrite E2. f_equal.
  destruct (prepare_chain parse_number int_of_str d1 d2 W1 E2)
    as (_ & _ & L2 & fm & fd & fy & K2).
  apply frame_ext; auto. intros d.
  assert (Hthree : forall c, In c ["metadata"; "duration"; "year"] ->
                     get_col c d2 = get_col c d1).
  { intros c Hc. rewrite (G2 c Hc), (G1 c Hc).
    destruct (get_col c df) as [s0|] eqn:E0; simpl; [|reflexivity].
    f_equal. apply imputed_twice. now apply (Hobs c). }
  destruct (String.eqb d "year") eqn:Ey.
  { apply String.eqb_eq in Ey. subst d. apply Hthree. simpl. auto. }
  destruct (String.eqb d "duration") eqn:Ed.
  { apply String.eqb_eq in Ed. subst d. apply Hthree. simpl. auto. }
  destruct (String.eqb d "metadata") eqn:Em.
  { apply String.eqb_eq in Em. subst d. apply Hthree. simpl. auto. }
  rewrite K2, Ey, Ed, Em. reflexivity.
Qed.

Lemma prepare_idempotent_witness :
  exists df',
    prepare number_of_digits int_of_digits sample_raw = Ok df'
    /\ prepare number_of_digits int_of_digits df' = Ok df'.
Proof.
  apply (prepare_idempotent number_of_digits int_of_digits sample_raw).
  - exact sample_raw_wf.
  - intros c s [<-|[<-|[<-|[]]]] H; vm_compute in H; injection H as <-;
      vm_compute; discriminate.
Defined.

(** X10.  A [duration] column with rows but no observed value stops the
    script: the median is missing, nothing is filled, and the integer cast
    raises. *)
Theorem prepare_unobserved_duration_raises
    (parse_number : string -> option Q) (int_of_str : string -> option Z)
    (df : DataFrame) (s : list cell) :
  wf df ->
  get_col "duration" df = Ok s -> s <> [] ->
  nonmissing (to_numeric parse_number s) = [] ->
  prepare parse_number int_of_str df = Raise IntCastingNaNError.
Proof.
  intros Hwf Hs Hne Hnone. unfold prepare, impute_and_cast. simpl coerce_numeric.
  destruct (coerce_step parse_number "metadata" df Hwf) as (d1 & E1 & W1 & C1 & L1 & G1).
  rewrite E1, bind_Ok.
  destruct (coerce_step parse_number "duration" d1 W1) as (d2 & E2 & W2 & C2 & L2 & G2).
  rewrite E2, bind_Ok.
  destruct (coerce_step parse_number "year" d2 W2) as (d3 & E3 & W3 & C3 & L3 & G3).
  rewrite E3, !bind_Ok.
  destruct (impute_float_step "metadata" d3 W3) as (d4 & E4 & W4 & C4 & L4 & G4).
  { intros t Ht. rewrite G3, G2, G1 in Ht. simpl in Ht.
    destruct (get_col "metadata" df); simpl in Ht; [|discriminate].
    injection Ht as <-. apply to_numeric_no_str. }
  rewrite E4, bind_Ok.
  assert (Hd : get_col "duration" d4 = Ok (to_numeric parse_number s)).
  { rewrite G4, G3, G2, G1. simpl. now rewrite Hs. }
  assert (Hh : has_col "duration" d4 = true).
  { rewrite get_col_cell_at in Hd. destruct (has_col "duration" d4);
      [reflexivity|discriminate]. }
  rewrite Hh, Hd, bind_Ok.
  rewrite (median_no_str _ (to_numeric_no_str parse_number s)), bind_Ok.
  unfold median_cell. rewrite Hnone. simpl median_of. cbv iota.
  assert (Hraise : astype_int int_of_str (fillna NaN (to_numeric parse_number s))
                   = Raise IntCastingNaNError).
  { pose proof (to_numeric_no_str parse_number s) as Hns.
    destruct (to_numeric parse_number s) as [|c t] eqn:Et.
    - destruct s; [congruence|discriminate].
    - inversion Hns; subst. destruct c; simpl in *; try discriminate. reflexivity. }
  rewrite Hraise. reflexivity.
Qed.

Lemma prepare_unobserved_duration_raises_witness :
  prepare number_of_digits int_of_digits
    (mkDF ["title"; "duration"] [[Str "A"; NaN]; [Str "B"; Str "n/a"]])
  = Raise IntCastingNaNError.
Proof.
  apply (prepare_unobserved_duration_raises number_of_digits int_of_digits
           (mkDF ["title"; "duration"] [[Str "A"; NaN]; [Str "B"; Str "n/a"]])
           [NaN; Str "n/a"]).
  - wf_concrete.
  - reflexivity.
  - discriminate.
  - reflexivity.
Defined.

(* ================================================================= *)
(** * The sidebar options *)

Lemma cell_leb_total (a b : cell) : cell_leb a b = false -> cell_leb b a = true.
Proof.
  destruct a, b; simpl; try discriminate; auto.
  - apply Qle_bool_total.
  - intros H. destruct (String.leb_total s s0) as [E|E]; congruence.
Qed.

Lemma insert_cell_In (c x : cell) (l : list cell) :
  In x (insert_cell c l) <-> x = c \/ In x l.
Proof.
  induction l as [|h t IH]; simpl.
  - intuition.
  - destruct (cell_leb c h); simpl; rewrite ?IH; intuition.
Qed.

Lemma sort_cells_In (x : cell) (l : list cell) :
  In x (fold_right insert_cell [] l) <-> In x l.
Proof.
  induction l as [|h t IH]; simpl; [tauto|].
  rewrite insert_cell_In, IH. intuition.
Qed.

Lemma insert_cell_ascending (c : cell) (l : list cell) :
  ascending l = true -> ascending (insert_cell c l) = true.
Proof.
  induction l as [|h t IH]; intros H; [reflexivity|].
  simpl insert_cell. destruct (cell_leb c h) eqn:E.
  - simpl. simpl in H. now rewrite E, H.
  - apply cell_leb_total in E.
    destruct t as [|y u].
    + simpl. now rewrite E.
    + simpl in H. apply andb_true_iff in H. destruct H as [Hy Hu].
      specialize (IH Hu). simpl insert_cell in *.
      destruct (cell_leb c y).
      * simpl. simpl in IH. now rewrite E, IH.
      * change (ascending (h :: y :: insert_cell c u))
          with (cell_leb h y && ascending (y :: insert_cell c u)).
        now rewrite Hy, IH.
Qed.

Lemma sort_cells_ascending (l : list cell) : ascending (fold_right insert_cell [] l) = true.
Proof.
  induction l as [|h t IH]; [reflexivity|]. simpl. now apply insert_cell_ascending.
Qed.

Lemma unique_In (x : cell) (s : list cell) : In x (unique s) -> In x s.
Proof.
  induction s as [|c t IH]; simpl; [tauto|].
  intros [<-|H]; [now left|]. apply filter_In in H. right. apply IH, H.
Qed.

Lemma existsb_sort_cells (c : cell) (l : list cell) :
  existsb (cell_eqb c) (fold_right insert_cell [] l) = existsb (cell_eqb c) l.
Proof.
  destruct (existsb (cell_eqb c) l) eqn:E.
  - apply existsb_exists in E. destruct E as (x & Hx & Hc).
    apply existsb_exists. exists x. split; [now apply sort_cells_In|exact Hc].
  - destruct (existsb _ (fold_right _ _ _)) eqn:E'; [|reflexivity].
    apply existsb_exists in E'. destruct E' as (x & Hx & Hc).
    apply (proj1 (sort_cells_In x l)) in Hx.
    assert (existsb (cell_eqb c) l = true)
      by (apply existsb_exists; exists x; split; assumption).
    congruence.
Qed.

Lemma count_cell_insert (c x : cell) (l : list cell) :
  count_cell c (insert_cell x l) = count_cell c (x :: l).
Proof.
  unfold count_cell. induction l as [|h t IH]; [reflexivity|].
  simpl insert_cell. destruct (cell_leb x h); [reflexivity|].
  simpl in *. destruct (cell_eqb c h), (cell_eqb c x); simpl in *; lia.
Qed.

Lemma count_cell_sort (c : cell) (l : list cell) :
  count_cell c (fold_right insert_cell [] l) = count_cell c l.
Proof.
  induction l as [|h t IH]; [reflexivity|]. simpl fold_right.
  rewrite count_cell_insert. unfold count_cell in *. simpl.
  destruct (cell_eqb c h); simpl; now rewrite IH.
Qed.

Lemma count_cell_unique (c : cell) (s : list cell) : (count_cell c (unique s) <= 1)%nat.
Proof.
  unfold count_cell. induction s as [|x t IH]; simpl; [lia|].
  rewrite filter_filter.
  destruct (cell_eqb c x) eqn:E; simpl.
  - rewrite (filter_ext _ (fun _ => false)).
    + assert (H : forall l : list cell, filter (fun _ => false) l = []).
      { induction l; simpl; auto. }
      rewrite H. simpl. lia.
    + intros d. destruct (cell_eqb d x) eqn:Ed; simpl; [reflexivity|].
      destruct (cell_eqb c d) eqn:Ec; [|reflexivity].
      rewrite cell_eqb_sym in Ec. rewrite cell_eqb_sym in E.
      rewrite (cell_eqb_trans _ _ _ Ec) in Ed; [discriminate|].
      now rewrite cell_eqb_sym.
  - etransitivity; [|exact IH].
    rewrite <- filter_filter. apply Sublist_length.
    assert (S : forall (p : cell -> bool) (l : list cell), Sublist (filter p l) l).
    { intros p l. induction l as [|a u IHu]; simpl; [constructor|].
      destruct (p a); constructor; exact IHu. }
    rewrite filter_filter, (filter_ext _ (fun d => cell_eqb c d && negb (cell_eqb d x))).
    + rewrite <- filter_filter. apply S.
    + intros d. apply andb_comm.
Qed.

(** X11.  The options a multiselect offers are the values present in the
    column, each once and none missing, in ascending order: every option
    occurs in the column, every present value of the column is among the
    options, and an absent column gives no option. *)
Theorem options_available_exact (label : string) (df : DataFrame) (opts : list cell) :
  options_available label df = Ok opts ->
  ascending opts = true
  /\ (forall c, (count_cell c opts <= 1)%nat)
  /\ (has_col label df = false -> opts = [])
  /\ (forall c, In c opts ->
        is_missing c = false /\ exists s, get_col label df = Ok s /\ In c s)
  /\ (forall s c, get_col label df = Ok s -> In c s -> is_missing c = false ->
        existsb (cell_eqb c) opts = true).
Proof.
  unfold options_available. destruct (has_col label df) eqn:Eh.
  - destruct (get_col_has _ _ Eh) as [s Hs]. rewrite Hs, bind_Ok. unfold py_sorted.
    destruct (_ && _); [discriminate|]. intros H. injection H as <-.
    split; [apply sort_cells_ascending|].
    split; [intros c; rewrite count_cell_sort; apply count_cell_unique|].
    split; [discriminate|]. split.
    + intros c Hc. apply (proj1 (sort_cells_In _ _)) in Hc.
      apply unique_In, filter_In in Hc.
      destruct Hc as [Hin Hm]. apply negb_true_iff in Hm.
      split; [exact Hm|]. now exists s.
    + intros s' c Hs' Hin Hm. assert (s' = s) by congruence. subst s'.
      rewrite existsb_sort_cells, isin_unique. apply existsb_exists.
      exists c. split; [|apply cell_eqb_refl].
      apply filter_In. split; [exact Hin|]. now rewrite Hm.
  - intros H. injection H as <-. split; [reflexivity|].
    split; [intros c; unfold count_cell; simpl; lia|]. split; [reflexivity|].
    split; [intros c []|].
    intros s c Hs. rewrite get_col_cell_at, Eh in Hs. discriminate.
Qed.

Lemma options_available_exact_witness :
  ascending [Str "Comedy"; Str "Drama"] = true.
Proof.
  exact (proj1 (options_available_exact "genre" genres [Str "Comedy"; Str "Drama"]
                  eq_refl)).
Defined.

(* ================================================================= *)
(** * Further properties of the title-to-year join *)

Lemma movie_years_length (t : cell) (df_clean : DataFrame) :
  (1 <= List.length (movie_years t df_clean))%nat
  /\ (titles_unique df_clean -> List.length (movie_years t df_clean) = 1%nat).
Proof.
  unfold movie_years, titles_unique, rows_titled. split.
  - destruct (filter _ (rows df_clean)); simpl; lia.
  - intros H. specialize (H t).
    destruct (filter _ (rows df_clean)) as [|m ms]; simpl in *; [reflexivity|].
    rewrite length_map. lia.
Qed.

Lemma join_items_length (df_exploded df_clean : DataFrame) :
  (List.length (rows df_exploded) <= List.length (join_items df_exploded df_clean))%nat
  /\ (titles_unique df_clean ->
      List.length (join_items df_exploded df_clean) = List.length (rows df_exploded)).
Proof.
  unfold join_items. induction (rows df_exploded) as [|l t [IH1 IH2]]; simpl.
  - split; reflexivity.
  - rewrite length_app, length_map.
    destruct (movie_years_length (cell_at "title" (columns df_exploded) l) df_clean)
      as [H1 H2].
    split; [lia|]. intros Hu. rewrite (H2 Hu), (IH2 Hu). reflexivity.
Qed.

(** X14.  The left join loses no exploded row: the joined frame has at least as
    many rows as the exploded frame, and exactly as many when no title
    occurs twice in the movie frame. *)
Theorem merge_year_row_count (df_exploded df_clean m : DataFrame) :
  has_col "title" df_exploded = true ->
  has_col "title" df_clean = true -> has_col "year" df_clean = true ->
  has_col "year_x" df_exploded = false -> has_col "year_y" df_exploded = false ->
  merge_year "title" df_exploded df_clean = Ok m ->
  (List.length (rows df_exploded) <= List.length (rows m))%nat
  /\ (titles_unique df_clean -> List.length (rows m) = List.length (rows df_exploded)).
Proof.
  intros Hte Htc Hyc Hx Hy Hm. rewrite merge_year_items in Hm by assumption.
  injection Hm as <-. simpl. rewrite length_map. apply join_items_length.
Qed.

Lemma merge_year_row_count_witness :
  (List.length (rows genres)
   <= List.length (rows (mkDF ["title"; "genre"; "year"]
                           [ [Str "A"; Str "Drama"; Num 2000];
                             [Str "B"; Str "Comedy"; Num 2001];
                             [Str "C"; Str "Drama"; NaN] ])))%nat.
Proof.
  refine (proj1 (merge_year_row_count genres movies _ eq_refl eq_refl eq_refl
                   eq_refl eq_refl _)).
  vm_compute. reflexivity.
Defined.

(** A title that occurs twice in the movie frame doubles the exploded rows
    that carry it. *)
Example merge_year_repeats_rows :
  merge_year "title" casts movies_remade
  = Ok (mkDF ["title"; "cast"; "year"]
          [ [Str "A"; Str "X"; Num 1960]; [Str "A"; Str "X"; Num 2001];
            [Str "A"; Str "Y"; Num 1960]; [Str "A"; Str "Y"; Num 2001];
            [Str "B"; Str "X"; Num 1999] ]).
Proof. vm_compute. reflexivity. Qed.

Lemma guarded_trend_resolved (df_exploded df_clean : DataFrame) :
  wf df_exploded ->
  has_col "title" df_exploded = true ->
  has_col "title" df_clean = true -> has_col "year" df_clean = true ->
  has_col "year_x" df_exploded = false -> has_col "year_y" df_exploded = false ->
  guarded_trend "title" df_exploded df_clean = Ok (join_resolver df_exploded df_clean)
  /\ genre_tab_trend "title" df_exploded df_clean
     = Ok (join_resolver df_exploded df_clean).
Proof.
  intros Hwf Hte Htc Hyc Hx Hy.
  assert (H : exists u,
             unify_year (mkDF (merged_columns df_exploded)
                              (map (fun it => fst it ++ [snd it])
                                   (join_items df_exploded df_clean))) = Ok u
             /\ has_col "year" u = true
             /\ dropna "year" u = Ok (join_resolver df_exploded df_clean)).
  { destruct (has_col "year" df_exploded) eqn:E.
    - now apply resolve_with_collision.
    - now apply resolve_without_collision. }
  destruct H as (u & Hu & Hyu & Hd). split.
  - unfold guarded_trend. rewrite merge_year_items by assumption.
    rewrite bind_Ok, Hu, bind_Ok, Hyu. exact Hd.
  - unfold genre_tab_trend. rewrite merge_year_items by assumption.
    rewrite bind_Ok, Hu, bind_Ok. exact Hd.
Qed.

Lemma flat_map_length_ge {A B : Type} (f : A -> list B) (l : list A) :
  (forall a, In a l -> (1 <= List.length (f a))%nat) ->
  (List.length l <= List.length (flat_map f l))%nat.
Proof.
  induction l as [|a t IH]; intros H; simpl; [lia|].
  rewrite length_app. specialize (H a (or_introl eq_refl)) as Ha.
  assert (List.length t <= List.length (flat_map f t))%nat
    by (apply IH; intros x Hx; apply H; now right).
  lia.
Qed.

(** X16.  When the exploded frame carries its own [year] column without missing
    values (as the imputer leaves it), the trend frame loses no exploded
    row: a title without a match in the movie frame is kept, with the
    exploded row's own year. *)
Theorem trend_keeps_rows_with_own_year (df_exploded df_clean out : DataFrame) :
  wf df_exploded ->
  has_col "title" df_exploded = true ->
  has_col "title" df_clean = true -> has_col "year" df_clean = true ->
  has_col "year_x" df_exploded = false -> has_col "year_y" df_exploded = false ->
  has_col "year" df_exploded = true ->
  Forall (fun l => is_missing (cell_at "year" (columns df_exploded) l) = false)
         (rows df_exploded) ->
  guarded_trend "title" df_exploded df_clean = Ok out ->
  (List.length (rows df_exploded) <= List.length (rows out))%nat.
Proof.
  intros Hwf Hte Htc Hyc Hx Hy Hown Hfull Hg.
  rewrite (proj1 (guarded_trend_resolved _ _ Hwf Hte Htc Hyc Hx Hy)) in Hg.
  injection Hg as <-. unfold join_resolver. simpl.
  apply flat_map_length_ge. intros l Hl.
  rewrite Forall_forall in Hfull. specialize (Hfull l Hl).
  destruct (movie_years_length (cell_at "title" (columns df_exploded) l) df_clean)
    as [H1 _].
  etransitivity; [exact H1|]. apply flat_map_length_ge. intros y _.
  destruct y as [|q|s]; simpl; try lia.
  destruct (cell_at "year" (columns df_exploded) l); simpl; try lia.
  discriminate Hfull.
Qed.

Lemma trend_keeps_rows_with_own_year_witness :
  (List.length (rows (mkDF ["title"; "cast"; "year"]
                        [[Str "A"; Str "X"; Num 1999]; [Str "C"; Str "Y"; Num 1987]]))
   <= List.length (rows (mkDF ["title"; "cast"; "year"]
                           [[Str "A"; Str "X"; Num 2000]; [Str "C"; Str "Y"; Num 1987]])))%nat.
Proof.
  refine (trend_keeps_rows_with_own_year
            (mkDF ["title"; "cast"; "year"]
               [[Str "A"; Str "X"; Num 1999]; [Str "C"; Str "Y"; Num 1987]])
            movies _ _ eq_refl eq_refl eq_refl eq_refl eq_refl eq_refl _ _).
  - wf_concrete.
  - repeat constructor.
  - vm_compute. reflexivity.
Defined.

Lemma movie_years_present (t y : cell) (df_clean : DataFrame) :
  is_missing y = false ->
  (In y (movie_years t df_clean)
   <-> exists m, In m (rows df_clean)
                 /\ cell_eqb (cell_at "title" (columns df_clean) m) t = true
                 /\ cell_at "year" (columns df_clean) m = y).
Proof.
  intros Hy. unfold movie_years.
  destruct (filter _ (rows df_clean)) as [|m0 ms] eqn:E.
  - split.
    + intros [<-|[]]. discriminate.
    + intros (m & Hm & Ht & _).
      assert (Hin : In m (filter (fun m => cell_eqb (cell_at "title" (columns df_clean) m) t)
                            (rows df_clean))) by (apply filter_In; auto).
      rewrite E in Hin. destruct Hin.
  - rewrite <- E. rewrite in_map_iff. split.
    + intros (m & <- & Hm). apply filter_In in Hm. exists m. tauto.
    + intros (m & Hm & Ht & <-). exists m. split; [reflexivity|].
      apply filter_In. auto.
Qed.

(** X17.  Let a well-formed exploded frame have a [title] column and no
    column named [year], [year_x] or [year_y], and let the movie frame have
    [title] and [year] columns.  Then the trend frame has the exploded
    labels followed by [year], and its rows are exactly the exploded rows
    extended by the year of a movie row with the same title and a year
    present: titles without such a movie are dropped, and nothing else
    is. *)
Theorem trend_rows_matched (df_exploded df_clean out : DataFrame) (r : list cell) :
  wf df_exploded ->
  has_col "title" df_exploded = true ->
  has_col "title" df_clean = true -> has_col "year" df_clean = true ->
  has_col "year_x" df_exploded = false -> has_col "year_y" df_exploded = false ->
  has_col "year" df_exploded = false ->
  guarded_trend "title" df_exploded df_clean = Ok out ->
  columns out = columns df_exploded ++ ["year"]
  /\ (In r (rows out) <->
      exists l m,
        In l (rows df_exploded) /\ In m (rows df_clean)
        /\ cell_eqb (cell_at "title" (columns df_clean) m)
                    (cell_at "title" (columns df_exploded) l) = true
        /\ is_missing (cell_at "year" (columns df_clean) m) = false
        /\ r = l ++ [cell_at "year" (columns df_clean) m]).
Proof.
  intros Hwf Hte Htc Hyc Hx Hy Hown Hg.
  rewrite (proj1 (guarded_trend_resolved _ _ Hwf Hte Htc Hyc Hx Hy)) in Hg.
  injection Hg as <-. unfold join_resolver. simpl.
  unfold has_col in Hown.
  assert (Hcw : forall l, In l (rows df_exploded) ->
                  cells_where not_year (columns df_exploded) l = l).
  { intros l Hl. apply cells_where_all; [now apply not_year_all|].
    destruct Hwf as [_ Hlen]. rewrite Forall_forall in Hlen. now apply Hlen. }
  assert (Hno : forall l, cell_at "year" (columns df_exploded) l = NaN).
  { intros l. unfold cell_at. apply index_of_not_mem in Hown. now rewrite Hown. }
  split.
  - now rewrite (filter_all not_year _ (not_year_all _ Hown)).
  - rewrite in_flat_map. split.
    + intros (l & Hl & Hr). apply in_flat_map in Hr. destruct Hr as (y & Hyin & Hr).
      rewrite Hno, (Hcw l Hl) in Hr.
      assert (Ey : is_missing y = false)
        by (destruct y; [destruct Hr|reflexivity|reflexivity]).
      assert (Hr' : r = l ++ [y])
        by (destruct y; [discriminate Ey| |]; destruct Hr as [<-|[]]; reflexivity).
      subst r.
      apply (movie_years_present _ _ _ Ey) in Hyin.
      destruct Hyin as (m & Hm & Ht & <-). exists l, m. auto.
    + intros (l & m & Hl & Hm & Ht & Hmy & ->). exists l. split; [exact Hl|].
      apply in_flat_map. exists (cell_at "year" (columns df_clean) m). split.
      * apply (movie_years_present _ _ _ Hmy). exists m. auto.
      * rewrite Hno, (Hcw l Hl).
        destruct (cell_at "year" (columns df_clean) m); [discriminate Hmy| |]; now left.
Qed.

Lemma trend_rows_matched_witness :
  columns (mkDF ["title"; "genre"; "year"]
             [ [Str "A"; Str "Drama"; Num 2000]; [Str "B"; Str "Comedy"; Num 2001] ])
  = columns genres ++ ["year"].
Proof.
  refine (proj1 (trend_rows_matched genres movies _ [] genres_wf eq_refl eq_refl eq_refl
                   eq_refl eq_refl eq_refl _)).
  vm_compute. reflexivity.
Defined.

(* ================================================================= *)
(** * Value counts and the frames of the Genre and Cast tabs *)

Lemma insert_by_count_In (x y : cell * nat) (l : list (cell * nat)) :
  In y (insert_by_count x l) <-> y = x \/ In y l.
Proof.
  induction l as [|h t IH]; simpl.
  - intuition.
  - destruct (snd h <=? snd x)%nat; simpl; rewrite ?IH; intuition.
Qed.

Lemma sort_by_count_In (y : cell * nat) (l : list (cell * nat)) :
  In y (fold_right insert_by_count [] l) <-> In y l.
Proof.
  induction l as [|h t IH]; simpl; [tauto|].
  rewrite insert_by_count_In, IH. intuition.
Qed.

Lemma insert_by_count_length (x : cell * nat) (l : list (cell * nat)) :
  List.length (insert_by_count x l) = S (List.length l).
Proof.
  induction l as [|h t IH]; simpl; [reflexivity|].
  destruct (snd h <=? snd x)%nat; simpl; [reflexivity|now rewrite IH].
Qed.

Lemma sort_by_count_length (l : list (cell * nat)) :
  List.length (fold_right insert_by_count [] l) = List.length l.
Proof.
  induction l as [|h t IH]; simpl; [reflexivity|].
  now rewrite insert_by_count_length, IH.
Qed.

Lemma insert_by_count_descending (x : cell * nat) (l : list (cell * nat)) :
  descending (map snd l) = true ->
  descending (map snd (insert_by_count x l)) = true.
Proof.
  induction l as [|h t IH]; intros H; [reflexivity|].
  simpl insert_by_count. destruct (snd h <=? snd x)%nat eqn:E.
  - simpl map. simpl map in H.
    change (descending (snd x :: snd h :: map snd t))
      with ((snd h <=? snd x)%nat && descending (snd h :: map snd t)).
    now rewrite H, E.
  - apply Nat.leb_gt in E. destruct t as [|y u].
    + simpl. rewrite andb_true_r. apply Nat.leb_le. lia.
    + simpl map in H.
      change (descending (snd h :: snd y :: map snd u))
        with ((snd y <=? snd h)%nat && descending (snd y :: map snd u)) in H.
      apply andb_true_iff in H. destruct H as [Hy Hu].
      specialize (IH Hu). simpl insert_by_count in *.
      destruct (snd y <=? snd x)%nat.
      * simpl map in *.
        change (descending (snd h :: snd x :: snd y :: map snd u))
          with ((snd x <=? snd h)%nat && descending (snd x :: snd y :: map snd u)).
        rewrite IH, andb_true_r. apply Nat.leb_le. lia.
      * simpl map in *.
        change (descending (snd h :: snd y :: map snd (insert_by_count x u)))
          with ((snd y <=? snd h)%nat
                && descending (snd y :: map snd (insert_by_count x u))).
        now rewrite Hy, IH.
Qed.

Lemma sort_by_count_descending (l : list (cell * nat)) :
  descending (map snd (fold_right insert_by_count [] l)) = true.
Proof.
  induction l as [|h t IH]; [reflexivity|]. simpl fold_right.
  now apply insert_by_count_descending.
Qed.

(** Insertion puts the new pair in front of the pairs of its own count and
    leaves the pairs of every count in their order. *)
Lemma insert_by_count_ties (x : cell * nat) (l : list (cell * nat)) (k : nat) :
  filter (fun p => (snd p =? k)%nat) (insert_by_count x l)
  = if (snd x =? k)%nat
    then x :: filter (fun p => (snd p =? k)%nat) l
    else filter (fun p => (snd p =? k)%nat) l.
Proof.
  induction l as [|h t IH].
  - simpl. destruct (snd x =? k)%nat; reflexivity.
  - simpl insert_by_count. destruct (snd h <=? snd x)%nat eqn:E.
    + simpl. destruct (snd x =? k)%nat; reflexivity.
    + apply Nat.leb_gt in E. simpl. rewrite IH.
      destruct (snd h =? k)%nat eqn:Eh, (snd x =? k)%nat eqn:Ex; try reflexivity.
      apply Nat.eqb_eq in Eh, Ex. lia.
Qed.

Lemma sort_by_count_ties (l : list (cell * nat)) (k : nat) :
  filter (fun p => (snd p =? k)%nat) (fold_right insert_by_count [] l)
  = filter (fun p => (snd p =? k)%nat) l.
Proof.
  induction l as [|h t IH]; [reflexivity|].
  simpl fold_right. rewrite insert_by_count_ties, IH. simpl.
  destruct (snd h =? k)%nat; reflexivity.
Qed.

Lemma count_cell_pos (c : cell) (s : list cell) : In c s -> (1 <= count_cell c s)%nat.
Proof.
  unfold count_cell. induction s as [|x t IH]; simpl; [tauto|].
  intros [->|H].
  - rewrite cell_eqb_refl. simpl. lia.
  - specialize (IH H). destruct (cell_eqb c x); simpl; lia.
Qed.

(** X12.  [value_counts] lists values that are present in the column, each
    with the number of its occurrences (at least one), in order of
    decreasing count, leaves out no present value, and lists the values of
    one count in the order of their first appearance in the column. *)
Theorem value_counts_spec (s : list cell) :
  descending (map snd (value_counts s)) = true
  /\ (forall c k, In (c, k) (value_counts s) ->
        In c s /\ is_missing c = false /\ (1 <= k)%nat
        /\ k = count_cell c (filter (fun x => negb (is_missing x)) s))
  /\ (forall c, In c s -> is_missing c = false ->
        existsb (cell_eqb c) (map fst (value_counts s)) = true)
  /\ (forall k,
        map fst (filter (fun p => (snd p =? k)%nat) (value_counts s))
        = filter (fun c => (count_cell c (filter (fun x => negb (is_missing x)) s) =? k)%nat)
                 (unique (filter (fun x => negb (is_missing x)) s)))
  /\ List.length (value_counts s)
     = List.length (unique (filter (fun x => negb (is_missing x)) s)).
Proof.
  unfold value_counts. set (obs := filter (fun x => negb (is_missing x)) s).
  split; [apply sort_by_count_descending|]. split; [|split; [|split]].
  - intros c k H. apply sort_by_count_In, in_map_iff in H.
    destruct H as (x & E & Hx). injection E as -> <-.
    apply unique_In in Hx. pose proof Hx as Hobs.
    apply filter_In in Hx. destruct Hx as [Hin Hm]. apply negb_true_iff in Hm.
    repeat split; auto. now apply count_cell_pos.
  - intros c Hin Hm.
    assert (Hu : existsb (cell_eqb c) (unique obs) = true).
    { rewrite isin_unique. apply existsb_exists. exists c.
      split; [|apply cell_eqb_refl]. apply filter_In. now rewrite Hm. }
    apply existsb_exists in Hu. destruct Hu as (x & Hx & Hcx).
    apply existsb_exists. exists x. split; [|exact Hcx].
    apply in_map_iff. exists (x, count_cell x obs). split; [reflexivity|].
    apply sort_by_count_In, in_map_iff. exists x. auto.
  - intros k. rewrite sort_by_count_ties, filter_map_commute, map_map. simpl.
    apply map_id.
  - now rewrite sort_by_count_length, length_map.
Qed.

Lemma value_counts_spec_witness :
  In (Str "X") [Str "X"; Str "Y"; NaN; Str "X"] /\ is_missing (Str "X") = false
  /\ (1 <= 2)%nat
  /\ 2%nat = count_cell (Str "X")
               (filter (fun x => negb (is_missing x)) [Str "X"; Str "Y"; NaN; Str "X"]).
Proof.
  apply (proj1 (proj2 (value_counts_spec [Str "X"; Str "Y"; NaN; Str "X"]))
           (Str "X") 2%nat).
  vm_compute. auto.
Defined.

(** Values of equal count keep the order of their first appearance. *)
Example value_counts_ties :
  value_counts [Str "X"; Str "Y"; NaN; Str "Z"; Str "Y"; Str "W"]
  = [(Str "Y", 2%nat); (Str "X", 1%nat); (Str "Z", 1%nat); (Str "W", 1%nat)].
Proof. vm_compute. reflexivity. Qed.

Lemma descending_head_max (x : nat) (l : list nat) :
  descending (x :: l) = true -> forall y, In y l -> (y <= x)%nat.
Proof.
  revert x. induction l as [|z t IH]; intros x H y Hy; [destruct Hy|].
  change (descending (x :: z :: t)) with ((z <=? x)%nat && descending (z :: t)) in H.
  apply andb_true_iff in H. destruct H as [Hz Ht]. apply Nat.leb_le in Hz.
  destruct Hy as [<-|Hy]; [exact Hz|].
  specialize (IH z Ht y Hy). lia.
Qed.

Lemma descending_tail (x : nat) (l : list nat) :
  descending (x :: l) = true -> descending l = true.
Proof.
  destruct l as [|z t]; [reflexivity|].
  change (descending (x :: z :: t)) with ((z <=? x)%nat && descending (z :: t)).
  intros H. apply andb_true_iff in H. tauto.
Qed.

Lemma descending_split (a b : list (cell * nat)) :
  descending (map snd (a ++ b)) = true ->
  forall x y, In x a -> In y b -> (snd y <= snd x)%nat.
Proof.
  induction a as [|h t IH]; intros H x y Hx Hy; [destruct Hx|].
  simpl in H. destruct Hx as [<-|Hx].
  - apply (descending_head_max _ _ H). apply in_map. apply in_or_app. now right.
  - apply IH; auto. exact (descending_tail _ _ H).
Qed.

Lemma count_cell_eqb (c d : cell) (s : list cell) :
  cell_eqb c d = true -> count_cell c s = count_cell d s.
Proof.
  intros H. unfold count_cell. f_equal. apply filter_ext. intros x.
  destruct (cell_eqb c x) eqn:E1, (cell_eqb d x) eqn:E2; try reflexivity.
  - rewrite cell_eqb_sym in H. now rewrite (cell_eqb_trans _ _ _ H E1) in E2.
  - now rewrite (cell_eqb_trans _ _ _ H E2) in E1.
Qed.

(** X13.  [value_counts().head(n).index]: its length is [n] or the number
    of distinct present values, whichever is smaller; each entry is a
    present value of the column; no value left out occurs more often than
    a value kept; and nothing is left out when there are at most [n]
    distinct values. *)
Theorem top_values_dominate (n : nat) (s : list cell) :
  List.length (top_values n s)
  = Nat.min n (List.length (unique (filter (fun x => negb (is_missing x)) s)))
  /\ (forall c, In c (top_values n s) -> In c s /\ is_missing c = false)
  /\ (forall c d, In c (top_values n s) -> In d s -> is_missing d = false ->
        existsb (cell_eqb d) (top_values n s) = false ->
        (count_cell d (filter (fun x => negb (is_missing x)) s)
         <= count_cell c (filter (fun x => negb (is_missing x)) s))%nat)
  /\ ((List.length (unique (filter (fun x => negb (is_missing x)) s)) <= n)%nat ->
      forall d, In d s -> is_missing d = false ->
                existsb (cell_eqb d) (top_values n s) = true).
Proof.
  destruct (value_counts_spec s) as (Hdesc & Hin & Hall & _ & Hlen).
  set (obs := filter (fun x => negb (is_missing x)) s) in *.
  unfold top_values. split; [|split; [|split]].
  - now rewrite length_map, length_firstn, Hlen.
  - intros c H. apply in_map_iff in H. destruct H as ((c' & k) & E & Hc).
    simpl in E. subst c'.
    assert (Hvc : In (c, k) (value_counts s)).
    { rewrite <- (firstn_skipn n (value_counts s)). apply in_or_app. now left. }
    destruct (Hin c k Hvc) as (H1 & H2 & _). auto.
  - intros c d Hc Hd Hdm Hout.
    apply in_map_iff in Hc. destruct Hc as ((c' & k) & E & Hc). simpl in E. subst c'.
    specialize (Hall d Hd Hdm). apply existsb_exists in Hall.
    destruct Hall as (x & Hx & Hdx). apply in_map_iff in Hx.
    destruct Hx as ((x' & j) & E & Hx). simpl in E. subst x'.
    assert (Hck : k = count_cell c obs).
    { apply (Hin c k). rewrite <- (firstn_skipn n (value_counts s)).
      apply in_or_app. now left. }
    assert (Hxj : j = count_cell x obs) by (now apply (Hin x j)).
    rewrite (count_cell_eqb d x obs Hdx), <- Hxj, <- Hck.
    rewrite <- (firstn_skipn n (value_counts s)) in Hx, Hdesc.
    apply in_app_or in Hx. destruct Hx as [Hx|Hx].
    + exfalso. assert (Ht : existsb (cell_eqb d) (map fst (firstn n (value_counts s))) = true).
      { apply existsb_exists. exists x. split; [|exact Hdx].
        apply in_map_iff. exists (x, j). auto. }
      rewrite Ht in Hout. discriminate.
    + exact (descending_split _ _ Hdesc (c, k) (x, j) Hc Hx).
  - intros Hn d Hd Hdm. rewrite firstn_all2 by (rewrite Hlen; exact Hn).
    now apply Hall.
Qed.

Lemma top_values_dominate_witness :
  (count_cell (Str "Y") (filter (fun x => negb (is_missing x))
                                [Str "X"; Str "Y"; NaN; Str "X"])
   <= count_cell (Str "X") (filter (fun x => negb (is_missing x))
                                   [Str "X"; Str "Y"; NaN; Str "X"]))%nat.
Proof.
  apply (proj1 (proj2 (proj2 (top_values_dominate 1 [Str "X"; Str "Y"; NaN; Str "X"])))
           (Str "X") (Str "Y")).
  - vm_compute. auto.
  - vm_compute. auto.
  - reflexivity.
  - vm_compute. reflexivity.
Defined.

Lemma filter_Sublist {A : Type} (p : A -> bool) (l : list A) : Sublist (filter p l) l.
Proof.
  induction l as [|a u IH]; simpl; [constructor|].
  destruct (p a); constructor; exact IH.
Qed.

Lemma rows_of_filtered_titles_select (df_x filtered : DataFrame) :
  has_col "title" df_x = true -> has_col "title" filtered = true ->
  rows_of_filtered_titles "title" df_x filtered
  = Ok (select (fun r => existsb (cell_eqb (cell_at "title" (columns df_x) r))
                           (map (cell_at "title" (columns filtered)) (rows filtered)))
               df_x).
Proof.
  intros Hx Hf. unfold rows_of_filtered_titles.
  rewrite (get_col_cell_at "title" df_x), Hx, bind_Ok.
  rewrite (get_col_cell_at "title" filtered), Hf, bind_Ok.
  now rewrite isin_map, boolean_index_map.
Qed.

Lemma wf_select (p : list cell -> bool) (df : DataFrame) : wf df -> wf (select p df).
Proof.
  intros [Hnd Hlen]. split; [exact Hnd|]. simpl. now apply Forall_filter.
Qed.

(** X18.  When the Genre tab's guard holds and the tab returns, [dfg] has
    the labels of the genre frame and exactly its rows whose title is the
    title of a filtered movie, in their order; [dfg_top] has the same labels
    and exactly the rows of [dfg] whose genre is one of the top twelve
    genres of [dfg], in their order: a row of [dfg] is in [dfg_top] if and
    only if its genre is one of them. *)
Theorem genre_tab_frames (e e' : Env) :
  has_col "title" (df_clean e) = true ->
  has_col "genre" (df_genre e) = true -> has_col "title" (df_genre e) = true ->
  has_col "title" (df_filtered e) = true ->
  tab_genre e = Ok e' ->
  exists g top,
    dfg e' = Some g /\ dfg_top e' = Some top
    /\ columns g = columns (df_genre e) /\ columns top = columns (df_genre e)
    /\ rows g
       = filter (fun r => existsb (cell_eqb (cell_at "title" (columns (df_genre e)) r))
                            (map (cell_at "title" (columns (df_filtered e)))
                                 (rows (df_filtered e))))
                (rows (df_genre e))
    /\ rows top
       = filter (fun r => existsb (cell_eqb (cell_at "genre" (columns (df_genre e)) r))
                            (top_values 12
                               (map (cell_at "genre" (columns (df_genre e))) (rows g))))
                (rows g)
    /\ (forall r, In r (rows top) <->
          In r (rows g)
          /\ existsb (cell_eqb (cell_at "genre" (columns (df_genre e)) r))
               (top_values 12 (map (cell_at "genre" (columns (df_genre e))) (rows g)))
             = true).
Proof.
  intros Etc Eg Etg Etf. unfold tab_genre, title_col.
  rewrite Etc, Eg, Etg, Etf. simpl andb. cbv iota.
  rewrite (rows_of_filtered_titles_select _ _ Etg Etf), bind_Ok. cbv beta zeta.
  match goal with |- context [get_col "genre" ?g] => set (g0 := g) end.
  assert (Hgg : has_col "genre" g0 = true) by exact Eg.
  rewrite (get_col_cell_at "genre" g0), Hgg, bind_Ok. cbv beta zeta.
  step_tab. rewrite isin_map, boolean_index_map.
  match goal with |- context [set_dfg_top ?t _] => set (top0 := t) end.
  assert (Hfacts :
    columns g0 = columns (df_genre e) /\ columns top0 = columns (df_genre e)
    /\ rows g0
       = filter (fun r => existsb (cell_eqb (cell_at "title" (columns (df_genre e)) r))
                            (map (cell_at "title" (columns (df_filtered e)))
                                 (rows (df_filtered e))))
                (rows (df_genre e))
    /\ rows top0
       = filter (fun r => existsb (cell_eqb (cell_at "genre" (columns (df_genre e)) r))
                            (top_values 12
                               (map (cell_at "genre" (columns (df_genre e))) (rows g0))))
                (rows g0)
    /\ (forall r, In r (rows top0) <->
          In r (rows g0)
          /\ existsb (cell_eqb (cell_at "genre" (columns (df_genre e)) r))
               (top_values 12 (map (cell_at "genre" (columns (df_genre e))) (rows g0)))
             = true)).
  { split; [reflexivity|]. split; [reflexivity|]. split; [reflexivity|].
    split; [reflexivity|].
    intros r. unfold top0, select. simpl. rewrite filter_In. reflexivity. }
  repeat step_tab; intros H; injection H as <-; exists g0, top0;
    (split; [reflexivity|]); (split; [reflexivity|]); exact Hfacts.
Qed.

Lemma genre_tab_frames_witness :
  exists e' g top,
    tab_genre (set_df_filtered
                 (mkDF ["title"; "year"; "metadata"] [[Str "B"; Num 2001; Num (93 # 10)]])
                 (start movies casts genres)) = Ok e'
    /\ dfg e' = Some g /\ dfg_top e' = Some top
    /\ rows g = [[Str "B"; Str "Comedy"]] /\ rows top = [[Str "B"; Str "Comedy"]].
Proof.
  destruct (tab_genre (set_df_filtered
                         (mkDF ["title"; "year"; "metadata"]
                            [[Str "B"; Num 2001; Num (93 # 10)]])
                         (start movies casts genres))) as [e'|x] eqn:E;
    [|vm_compute in E; discriminate].
  destruct (genre_tab_frames
              (set_df_filtered
                 (mkDF ["title"; "year"; "metadata"]
                    [[Str "B"; Num 2001; Num (93 # 10)]])
                 (start movies casts genres))
              e' eq_refl eq_refl eq_refl eq_refl E)
    as (g & top & Hg & Ht & _ & _ & Hrg & Hrt & _).
  exists e', g, top. split; [reflexivity|]. split; [exact Hg|]. split; [exact Ht|].
  assert (Eg : rows g = [[Str "B"; Str "Comedy"]]) by (rewrite Hrg; vm_compute; reflexivity).
  split; [exact Eg|]. rewrite Hrt, Eg. vm_compute. reflexivity.
Defined.

(** X19.  When the Cast tab's guard holds and the tab returns, [dfc] has
    the labels of the cast frame and exactly its rows whose title is the
    title of a filtered movie, in their order; [dfc_top] has exactly the
    rows of [dfc] whose actor is one of the top fifteen actors of [dfc], in
    their order; and when the movie frame has a [year] column and the cast
    frame is well formed without [year_x] or [year_y] labels, the actor
    trend frame is the resolved join of [dfc_top] with the movie frame: it
    is built from the filtered rows. *)
Theorem cast_tab_frames (e e' : Env) :
  has_col "title" (df_clean e) = true ->
  has_col "cast" (df_cast e) = true -> has_col "title" (df_cast e) = true ->
  has_col "title" (df_filtered e) = true ->
  tab_cast e = Ok e' ->
  exists c top,
    dfc e' = Some c /\ dfc_top e' = Some top
    /\ columns c = columns (df_cast e) /\ columns top = columns (df_cast e)
    /\ rows c
       = filter (fun r => existsb (cell_eqb (cell_at "title" (columns (df_cast e)) r))
                            (map (cell_at "title" (columns (df_filtered e)))
                                 (rows (df_filtered e))))
                (rows (df_cast e))
    /\ rows top
       = filter (fun r => existsb (cell_eqb (cell_at "cast" (columns (df_cast e)) r))
                            (top_values 15
                               (map (cell_at "cast" (columns (df_cast e))) (rows c))))
                (rows c)
    /\ (forall r, In r (rows top) <->
          In r (rows c)
          /\ existsb (cell_eqb (cell_at "cast" (columns (df_cast e)) r))
               (top_values 15 (map (cell_at "cast" (columns (df_cast e))) (rows c)))
             = true)
    /\ (wf (df_cast e) -> has_col "year" (df_clean e) = true ->
        has_col "year_x" (df_cast e) = false -> has_col "year_y" (df_cast e) = false ->
        df_year_cast e' = Some (join_resolver top (df_clean e))).
Proof.
  intros Etc Ec Ett Etf. unfold tab_cast, title_col.
  rewrite Etc, Ec, Ett, Etf. simpl andb. cbv iota.
  rewrite (rows_of_filtered_titles_select _ _ Ett Etf), bind_Ok. cbv beta zeta.
  match goal with |- context [get_col "cast" ?g] => set (c0 := g) end.
  assert (Hcc : has_col "cast" c0 = true) by exact Ec.
  rewrite (get_col_cell_at "cast" c0), Hcc, bind_Ok. cbv beta zeta.
  step_tab. rewrite isin_map, boolean_index_map.
  match goal with |- context [set_dfc_top ?t _] => set (top0 := t) end.
  assert (Hfacts :
    columns c0 = columns (df_cast e) /\ columns top0 = columns (df_cast e)
    /\ rows c0
       = filter (fun r => existsb (cell_eqb (cell_at "title" (columns (df_cast e)) r))
                            (map (cell_at "title" (columns (df_filtered e)))
                                 (rows (df_filtered e))))
                (rows (df_cast e))
    /\ rows top0
       = filter (fun r => existsb (cell_eqb (cell_at "cast" (columns (df_cast e)) r))
                            (top_values 15
                               (map (cell_at "cast" (columns (df_cast e))) (rows c0))))
                (rows c0)
    /\ (forall r, In r (rows top0) <->
          In r (rows c0)
          /\ existsb (cell_eqb (cell_at "cast" (columns (df_cast e)) r))
               (top_values 15 (map (cell_at "cast" (columns (df_cast e))) (rows c0)))
             = true)).
  { split; [reflexivity|]. split; [reflexivity|]. split; [reflexivity|].
    split; [reflexivity|].
    intros r. unfold top0, select. simpl. rewrite filter_In. reflexivity. }
  destruct Hfacts as (F1 & F2 & F3 & F4 & F5).
  simpl df_clean.
  destruct (has_col "year" (df_clean e)) eqn:Ey.
  - destruct (guarded_trend "title" top0 (df_clean e)) as [t|] eqn:Et;
      [rewrite bind_Ok|simpl; discriminate].
    cbv beta zeta. step_tab.
    intros H. injection H as <-. exists c0, top0. simpl.
    repeat (split; [assumption || reflexivity|]).
    intros Hwf _ Hx Hy.
    assert (Wtop : wf top0) by (apply wf_select, wf_select, Hwf).
    rewrite (proj1 (guarded_trend_resolved top0 (df_clean e) Wtop Ett Etc Ey Hx Hy)) in Et.
    now injection Et as <-.
  - intros H. injection H as <-. exists c0, top0. simpl.
    repeat (split; [assumption || reflexivity|]).
    intros _ Hyes. discriminate.
Qed.

Lemma cast_tab_frames_witness :
  exists e' c top,
    tab_cast (set_df_filtered
                (mkDF ["title"; "year"; "metadata"] [[Str "B"; Num 2001; Num (93 # 10)]])
                (start movies casts genres)) = Ok e'
    /\ dfc e' = Some c /\ dfc_top e' = Some top
    /\ rows c = [[Str "B"; Str "X"]] /\ rows top = [[Str "B"; Str "X"]]
    /\ df_year_cast e'
       = Some (mkDF ["title"; "cast"; "year"] [[Str "B"; Str "X"; Num 2001]]).
Proof.
  destruct (tab_cast (set_df_filtered
                        (mkDF ["title"; "year"; "metadata"]
                           [[Str "B"; Num 2001; Num (93 # 10)]])
                        (start movies casts genres))) as [e'|x] eqn:E;
    [|vm_compute in E; discriminate].
  destruct (cast_tab_frames
              (set_df_filtered
                 (mkDF ["title"; "year"; "metadata"]
                    [[Str "B"; Num 2001; Num (93 # 10)]])
                 (start movies casts genres))
              e' eq_refl eq_refl eq_refl eq_refl E)
    as (c & top & Hc & Ht & _ & _ & Hrc & Hrt & _ & Htrend).
  exists e', c, top. split; [reflexivity|]. split; [exact Hc|]. split; [exact Ht|].
  assert (Ec : rows c = [[Str "B"; Str "X"]]) by (rewrite Hrc; vm_compute; reflexivity).
  split; [exact Ec|].
  assert (Etop : rows top = [[Str "B"; Str "X"]])
    by (rewrite Hrt, Ec; vm_compute; reflexivity).
  split; [exact Etop|].
  vm_compute in E. injection E as <-. reflexivity.
Defined.


(* ================================================================= *)
(** * The script returns on prepared frames *)







Lemma numeric_col_same (name : string) (a b : DataFrame) :
  columns a = columns b -> rows a = rows b -> numeric_col name b -> numeric_col name a.
Proof. unfold numeric_col. intros -> ->. auto. Qed.
















(** A string left in [duration] stops the script in the Overview tab: the
    mean of the column raises. *)
Example dashboard_string_duration_raises :
  dashboard fraction_text (mkFilter (2000, 2001)%Z (0, 100)%Z [] [])
    (mkDF ["title"; "year"; "duration"] [[Str "A"; Num 2000; Str "n/a"]]) casts genres
  = Raise TypeError.
Proof. vm_compute. reflexivity. Qed.
